(** * infrahub-backup: backup and restore orchestration

    A shallow embedding of the Go sources of the backup tool:

    - [src/internal/app/backup_neo4j.go]: the Neo4j backup and restore
      procedures of the two editions, and the watchdog-gated pause of the
      database process of the community edition;
    - [src/internal/app/backup.go]: [CreateBackup] and [RestoreBackup]
      (module [Delegated]) and the Kubernetes backend;
    - the listing of [CreateBackup] and [RestoreBackup] that has the
      checksum code and the reconciliation of the editions in the body of
      the two functions (third part of [S3_BACKUP.md], module [Inlined]);
    - the dump and the restore of the task manager database (second part of
      [backup_s3.go]);
    - the upload of a backup to S3 (first part of [backup_s3.go], module
      [S3], whose calls are those of the environment, of the SDK and of the
      backup file) and [loadS3Config] (second part of [S3_BACKUP.md]).

    The program is an imperative sequence of calls to collaborators: the
    backend, the local file system, helper methods whose bodies are in
    other files.  Every such call is an element of the type [Call]; a run
    is a function of the events so far, which returns its result together
    with the events it made, in the order it made them.  The answers to the
    calls, the constants and the pure helpers that the sources use without
    declaring them make a [World], over which every statement
    quantifies. *)

From Stdlib Require Import String Ascii List NArith ZArith Bool Arith Lia.
Import ListNotations.
Open Scope list_scope.
Open Scope string_scope.

Set Implicit Arguments.

(* ===================================================================== *)
(** * Go library functions used by the sources                            *)
(* ===================================================================== *)

(** Strings are sequences of bytes, as in Go. *)

Definition byte_of (c : ascii) : nat := nat_of_ascii c.
Definition bytes (s : string) : list nat := map byte_of (list_ascii_of_string s).
Definition of_bytes (l : list nat) : string :=
  string_of_list_ascii (map ascii_of_nat l).

Fixpoint is_prefix {A} (eqb : A -> A -> bool) (p l : list A) : bool :=
  match p, l with
  | [], _ => true
  | x :: p', y :: l' => eqb x y && is_prefix eqb p' l'
  | _ :: _, [] => false
  end.

(** The bytes of a string as numbers, for the functions that read runes. *)
Definition rune_bytes (s : string) : list N :=
  map N_of_ascii (list_ascii_of_string s).
Definition of_rune_bytes (l : list N) : string :=
  string_of_list_ascii (map ascii_of_N l).

Module utf8.

Definition RuneError : N := 65533.
Definition RuneSelf : N := 128.
Definition MaxRune : N := 1114111.

(** A continuation byte, [0x80] to [0xBF]. *)
Definition continuation (b : N) : bool := ((128 <=? b) && (b <=? 191))%N.

(** [utf8.DecodeRuneInString]: the first rune of the bytes and its width.
    A byte that starts no rune, an encoding that is cut short, one that is
    longer than needed and a surrogate are [RuneError] of width 1; the
    second byte of a rune of three or four bytes has the narrower range
    that the first byte asks for. *)
Definition DecodeRune (p : list N) : N * nat :=
  match p with
  | [] => (RuneError, 0%nat)
  | s0 :: rest =>
      (if s0 <? RuneSelf then (s0, 1%nat)
       else if (s0 <? 194) || (244 <? s0) then (RuneError, 1%nat)
       else
         let lo := if s0 =? 224 then 160 else if s0 =? 240 then 144 else 128 in
         let hi := if s0 =? 237 then 159 else if s0 =? 244 then 143 else 191 in
         if s0 <? 224 then
           match rest with
           | s1 :: _ =>
               if (lo <=? s1) && (s1 <=? hi)
               then (N.lor (N.shiftl (N.land s0 31) 6) (N.land s1 63), 2%nat)
               else (RuneError, 1%nat)
           | _ => (RuneError, 1%nat)
           end
         else if s0 <? 240 then
           match rest with
           | s1 :: s2 :: _ =>
               if (lo <=? s1) && (s1 <=? hi) && continuation s2
               then (N.lor (N.shiftl (N.land s0 15) 12)
                       (N.lor (N.shiftl (N.land s1 63) 6) (N.land s2 63)),
                     3%nat)
               else (RuneError, 1%nat)
           | _ => (RuneError, 1%nat)
           end
         else
           match rest with
           | s1 :: s2 :: s3 :: _ =>
               if (lo <=? s1) && (s1 <=? hi) && continuation s2
                  && continuation s3
               then (N.lor (N.shiftl (N.land s0 7) 18)
                       (N.lor (N.shiftl (N.land s1 63) 12)
                          (N.lor (N.shiftl (N.land s2 63) 6) (N.land s3 63))),
                     4%nat)
               else (RuneError, 1%nat)
           | _ => (RuneError, 1%nat)
           end)%N
  end.

(** The runes that [for _, c := range s] visits; [fuel] bounds the number
    of runes by the number of bytes. *)
Fixpoint runes_from (fuel : nat) (p : list N) : list N :=
  match fuel, p with
  | S fuel', _ :: _ =>
      fst (DecodeRune p) :: runes_from fuel' (skipn (snd (DecodeRune p)) p)
  | _, _ => []
  end.

Definition runes (p : list N) : list N := runes_from (length p) p.

(** [utf8.AppendRune]: a rune out of range and a surrogate are written as
    [RuneError]. *)
Definition EncodeRune (r : N) : list N :=
  (if r <=? 127 then [r]
   else if r <=? 2047 then
     [N.lor 192 (N.shiftr r 6); N.lor 128 (N.land r 63)]
   else
     let r := if (MaxRune <? r) || ((55296 <=? r) && (r <=? 57343))
              then RuneError else r in
     if r <=? 65535 then
       [N.lor 224 (N.shiftr r 12); N.lor 128 (N.land (N.shiftr r 6) 63);
        N.lor 128 (N.land r 63)]
     else
       [N.lor 240 (N.shiftr r 18); N.lor 128 (N.land (N.shiftr r 12) 63);
        N.lor 128 (N.land (N.shiftr r 6) 63); N.lor 128 (N.land r 63)])%N.

End utf8.

Module unicode.

(** [unicode.ToLower].  Above ASCII the result is
    [unicode.To(unicode.LowerCase, r)], which reads the table
    [unicode.CaseRanges] of the Go library: [lowerCase] stands for it. *)
Definition ToLower (lowerCase : N -> N) (r : N) : N :=
  (if r <=? 127 then
     if (65 <=? r) && (r <=? 90) then r + 32 else r
   else lowerCase r)%N.

End unicode.

Module strings.

(** [strings.Join(elems, sep)]. *)
Definition Join (elems : list string) (sep : string) : string :=
  String.concat sep elems.

Definition lower_byte (c : ascii) : ascii :=
  let n := nat_of_ascii c in
  if ((65 <=? n) && (n <=? 90))%nat then ascii_of_nat (n + 32) else c.

(** The bytes of a string with the letters A-Z mapped to a-z. *)
Fixpoint lower_bytes (s : string) : string :=
  match s with
  | EmptyString => EmptyString
  | String c s' => String (lower_byte c) (lower_bytes s')
  end.

(** [strings.Map(mapping, s)] for a mapping that returns no negative rune:
    every rune of the string, an invalid byte being [RuneError], is mapped
    and written in UTF-8.  (Go returns [s] itself when no rune changes and
    no byte is invalid, which is the same string.) *)
Definition Map (mapping : N -> N) (s : string) : string :=
  of_rune_bytes
    (flat_map (fun c => utf8.EncodeRune (mapping c))
              (utf8.runes (rune_bytes s))).

(** [strings.ToLower]: a string of ASCII bytes is mapped byte by byte, any
    other string rune by rune with [unicode.ToLower]. *)
Definition ToLower (lowerCase : N -> N) (s : string) : string :=
  if forallb (fun c => (N_of_ascii c <? utf8.RuneSelf)%N)
             (list_ascii_of_string s)
  then lower_bytes s
  else Map (unicode.ToLower lowerCase) s.

(** [strings.EqualFold]: equality under case folding, byte by byte.  The
    only runes outside ASCII that fold to an ASCII letter are the Kelvin
    sign (k) and the long s (s): against an ASCII string with neither
    letter, such as "Running", this is Go's result. *)
Fixpoint EqualFold (s t : string) : bool :=
  match s, t with
  | EmptyString, EmptyString => true
  | String c s', String d t' =>
      Ascii.eqb (lower_byte c) (lower_byte d) && EqualFold s' t'
  | _, _ => false
  end.

(** [strings.Contains(s, substr)]. *)
Fixpoint Contains (s substr : string) : bool :=
  String.prefix substr s
  || match s with
     | EmptyString => false
     | String _ s' => Contains s' substr
     end.

(** [strings.Split(s, sep)] for a separator of one byte or more (the
    sources split on a newline and on a semicolon); [skip] counts the
    bytes of a separator still to be dropped and [cur] is the piece being
    read, last byte first. *)
Fixpoint split_from (s sep : string) (skip : nat) (cur : list ascii)
  : list string :=
  match s with
  | EmptyString => [string_of_list_ascii (rev cur)]
  | String c s' =>
      match skip with
      | S k => split_from s' sep k cur
      | O =>
          if String.prefix sep s
          then string_of_list_ascii (rev cur)
               :: split_from s' sep (String.length sep - 1) []
          else split_from s' sep 0 (c :: cur)
      end
  end.

Definition Split (s sep : string) : list string := split_from s sep 0 [].

(** [strings.TrimSuffix(s, suffix)]. *)
Definition TrimSuffix (s suffix : string) : string :=
  let n := String.length s in
  let m := String.length suffix in
  if (m <=? n)%nat && String.eqb (String.substring (n - m) m s) suffix
  then String.substring 0 (n - m) s
  else s.

(** White space as [unicode.IsSpace] has it, each rune by its UTF-8
    encoding: tab, newline, vertical tab, form feed, carriage return,
    space, U+0085, U+00A0, U+1680, U+2000 to U+200A, U+2028, U+2029,
    U+202F, U+205F and U+3000. *)
Definition spaces : list (list nat) :=
  [ [9]; [10]; [11]; [12]; [13]; [32];
    [194; 133]; [194; 160];
    [225; 154; 128];
    [226; 128; 128]; [226; 128; 129]; [226; 128; 130]; [226; 128; 131];
    [226; 128; 132]; [226; 128; 133]; [226; 128; 134]; [226; 128; 135];
    [226; 128; 136]; [226; 128; 137]; [226; 128; 138];
    [226; 128; 168]; [226; 128; 169]; [226; 128; 175];
    [226; 129; 159];
    [227; 128; 128] ].

Fixpoint strip_one (encs : list (list nat)) (l : list nat)
  : option (list nat) :=
  match encs with
  | [] => None
  | e :: encs' =>
      if is_prefix Nat.eqb e l then Some (skipn (List.length e) l)
      else strip_one encs' l
  end.

Fixpoint trim_left (fuel : nat) (encs : list (list nat)) (l : list nat)
  : list nat :=
  match fuel with
  | O => l
  | S f =>
      match strip_one encs l with
      | Some l' => trim_left f encs l'
      | None => l
      end
  end.

(** [strings.TrimSpace]: every leading and every trailing white-space
    rune is removed. *)
Definition TrimSpace (s : string) : string :=
  let l := bytes s in
  let l1 := trim_left (List.length l) spaces l in
  let r := rev l1 in
  of_bytes (rev (trim_left (List.length r) (map (@rev nat) spaces) r)).

End strings.

Module strconv.

Inductive NumErr := ErrSyntax | ErrRange.

Definition maxUint64 : Z := 18446744073709551615.

(** The digit loop of [ParseUint(s, 10, 64)]. *)
Fixpoint parse_digits (s : string) (n : Z) : NumErr + Z :=
  match s with
  | EmptyString => inr n
  | String c s' =>
      let b := nat_of_ascii c in
      if ((48 <=? b) && (b <=? 57))%nat then
        if (n >=? maxUint64 / 10 + 1)%Z then inl ErrRange
        else
          let n1 := (n * 10 + Z.of_nat (b - 48))%Z in
          if (n1 >? maxUint64)%Z then inl ErrRange else parse_digits s' n1
      else inl ErrSyntax
  end.

Definition ParseUint (s : string) : NumErr + Z :=
  match s with
  | EmptyString => inl ErrSyntax
  | _ => parse_digits s 0
  end.

(** [ParseInt(s, 10, 0)] with the 64-bit [int] of the platforms the tool
    is built for. *)
Definition ParseInt (s : string) : NumErr + Z :=
  match s with
  | EmptyString => inl ErrSyntax
  | String c s' =>
      let neg := Ascii.eqb c "-" in
      let digits := if Ascii.eqb c "+" || neg then s' else s in
      match ParseUint digits with
      | inl e => inl e
      | inr un =>
          let cutoff := (2 ^ 63)%Z in
          if negb neg && (un >=? cutoff)%Z then inl ErrRange
          else if neg && (un >? cutoff)%Z then inl ErrRange
          else inr (if neg then (- un)%Z else un)
      end
  end.

(** [strconv.Atoi]: its fast path for short strings computes what
    [ParseInt] computes. *)
Definition Atoi (s : string) : NumErr + Z := ParseInt s.

End strconv.

Module fmt.

(** [fmt.Sprintf] for formats whose only verb is [%s], each with its
    operand present (this is how the sources call it). *)
Fixpoint Sprintf (format : string) (args : list string) : string :=
  match format with
  | String "%" (String "s" rest) =>
      match args with
      | a :: args' => a ++ Sprintf rest args'
      | [] => "%!s(MISSING)" ++ Sprintf rest []
      end
  | String c rest => String c (Sprintf rest args)
  | EmptyString => EmptyString
  end.

End fmt.

Module filepath.

Definition Separator : string := "/".

Definition elements (p : string) : list string :=
  if String.eqb p "/" then [""] else strings.Split p "/".

(** The element stack of [Clean]; [out] holds the elements kept so far,
    last one first. *)
Fixpoint clean_elems (rooted : bool) (elems out : list string)
  : list string :=
  match elems with
  | [] => rev out
  | e :: rest =>
      if String.eqb e "" || String.eqb e "." then
        clean_elems rooted rest out
      else if String.eqb e ".." then
        match out with
        | top :: out' =>
            if String.eqb top ".." then clean_elems rooted rest (e :: out)
            else clean_elems rooted rest out'
        | [] =>
            if rooted then clean_elems rooted rest []
            else clean_elems rooted rest [e]
        end
      else clean_elems rooted rest (e :: out)
  end.

(** [filepath.Clean] on a system whose separator is the slash. *)
Definition Clean (p : string) : string :=
  if String.eqb p "" then "."
  else
    let rooted := String.prefix "/" p in
    let out := strings.Join (clean_elems rooted (strings.Split p "/") []) "/" in
    if rooted then "/" ++ out
    else if String.eqb out "" then "." else out.

(** [filepath.Join]: empty leading elements are dropped, the rest is
    joined with the separator and cleaned. *)
Fixpoint Join (elem : list string) : string :=
  match elem with
  | [] => ""
  | e :: rest =>
      if String.eqb e "" then Join rest
      else Clean (strings.Join elem Separator)
  end.

Fixpoint drop_common (b t : list string) : list string * list string :=
  match b, t with
  | x :: b', y :: t' =>
      if String.eqb x y then drop_common b' t' else (b, t)
  | _, _ => (b, t)
  end.

(** [filepath.Rel(basepath, targpath)]: [None] stands for the error
    "can't make targpath relative to basepath". *)
Definition Rel (basepath targpath : string) : option string :=
  let base := Clean basepath in
  let targ := Clean targpath in
  if String.eqb targ base then Some "."
  else
    let base := if String.eqb base "." then "" else base in
    if negb (Bool.eqb (String.prefix "/" base && negb (String.eqb base ""))
                      (String.prefix "/" targ))
    then None
    else
      let belems := if String.eqb base "" then [] else elements base in
      let '(b, t) := drop_common belems (elements targ) in
      match b with
      | [] => Some (strings.Join t "/")
      | b0 :: _ =>
          if String.eqb b0 ".." then None
          else
            Some (strings.Join (map (fun _ => "..") b ++ t) "/")
      end.

End filepath.

(* ===================================================================== *)
(** * Errors, calls and runs                                              *)
(* ===================================================================== *)

(** Go [error] values.  [Errorf format args cause] is
    [fmt.Errorf(format, ...)] for a format without the verb [%w]: the
    format string is the one of the source and [args] are its string
    operands in order.  [Wrapf format args cause] is [fmt.Errorf] for a
    format with [%w], [cause] being the operand of that verb. *)
Inductive error : Type :=
| ErrNotExist
| ErrEnvironmentNotFound
| NumError (fn num : string) (e : strconv.NumErr)
| ErrExternal (msg : string)
| Errorf (format : string) (args : list string)
| Wrapf (format : string) (args : list string) (cause : error).

(** [err.Error()] for the errors whose text the embedding can render: the
    formats of [Errorf] have no verb but [%s]. *)
Definition ErrorString (e : error) : option string :=
  match e with
  | Errorf format args => Some (fmt.Sprintf format args)
  | ErrExternal msg => Some msg
  | _ => None
  end.

Module os.
(** [os.IsNotExist(err)]: the error itself reports a missing file. *)
Definition IsNotExist (e : option error) : bool :=
  match e with
  | Some ErrNotExist => true
  | _ => false
  end.
End os.

Module errors.
(** [errors.Is(err, os.ErrNotExist)]: the chain of [%w] causes is
    followed. *)
Fixpoint IsErrNotExist (e : error) : bool :=
  match e with
  | ErrNotExist => true
  | Wrapf _ _ c => IsErrNotExist c
  | _ => false
  end.
End errors.

(** [ExecOptions] of the backend interface. *)
Record ExecOptions : Type := mkExecOptions {
  User : string;
  Env : list (string * string)
}.

Inductive Level := LDebug | LInfo | LWarn | LError.

(** [BackupMetadata]; [Checksums] lists the entries of the Go map in the
    order a [range] statement visits them. *)
Record BackupMetadata : Type := mkBackupMetadata {
  BackupID : string;
  CreatedAt : string;
  ToolVersion : string;
  InfrahubVersion : string;
  Neo4jEdition : string;
  Components : list string;
  Checksums : list (string * string)
}.

(** The fields of [Neo4jEditionInfo] that the embedded functions read. *)
Record Neo4jEditionInfo : Type := mkNeo4jEditionInfo {
  Edition : string;
  IsCommunity : bool
}.

(** The calls a run makes outside the functions embedded here: methods of
    [InfrahubOps], of the command executor and of the backend whose bodies
    are in other files, functions of the Go library that act on the local
    machine, and the log lines that report an error. *)
Inductive Call : Type :=
(* backend, through InfrahubOps *)
| Exec (service : string) (command : list string) (opts : option ExecOptions)
| CopyTo (service src dest : string)
| CopyFrom (service src dest : string)
| StartServices (services : list string)
(* InfrahubOps helpers *)
| checkPrerequisites
| DetectEnvironment
| detectNeo4jEdition
| getInfrahubVersion
| waitForRunningTasks
| stopAppContainers
| startAppContainers (services : list string)
| generateBackupFilename
| wipeTransientData
| restartDependencies
| getWritableTempDir (service : string)
| waitForRemoteFile (path : string) (timeout : Z)
| waitForProcessStopped (pid : string) (timeout : Z)
| uploadBackupToS3 (backupPath : string)
| detectNeo4jEditionInfo (operation : string)
| ResolveRestoreEdition (info : Neo4jEditionInfo) (backupEdition : string)
| LogDetection (info : Neo4jEditionInfo) (operation : string)
(* package-level helpers *)
| selectWatchdogBinary (arch : string)
| writeEmbeddedWatchdog (watchdogBytes : string)
| cleanup (localWatchdog : string)
| calculateSHA256 (path : string)
| createTarball (backupPath workDir prefix : string)
| extractTarball (backupFile workDir : string)
| calculateBackupChecksums (backupDir : string) (excludeTaskManager : bool)
| validateBackupChecksums (workDir : string) (metadata : BackupMetadata)
                          (excludeTaskManager : bool)
| fileExists (path : string)
| ListKubernetesNamespaces
| runCommand (name : string) (args : list string)
| runCommandQuiet (name : string) (args : list string)
(* Go library *)
| Stat (path : string)
| MkdirTemp (dir pattern : string)
| MkdirAll (path : string) (perm : Z)
| RemoveAll (path : string)
| ReadFile (path : string)
| WriteFile (path data : string) (perm : Z)
| Walk (root : string)
| Sleep (nanoseconds : Z)
| Log (level : Level) (format : string) (args : list string)
      (reported : option error).

(** What [filepath.Walk] hands to its callback for one file or directory. *)
Record WalkEntry : Type := mkWalkEntry {
  we_path : string;
  we_isDir : bool;
  we_err : option error
}.

(** What a call returns: a string result ([r_out]), a list result
    ([r_list]), the visits of a walk ([r_walk]), a boolean result
    ([r_flag]), a map result ([r_map]) and the error ([r_err], [None] for
    Go's [nil]).  A call uses the fields its Go signature has. *)
Record Reply : Type := mkReply {
  r_out : string;
  r_list : list string;
  r_walk : list WalkEntry;
  r_flag : bool;
  r_map : list (string * string);
  r_err : option error
}.

Definition ok : Reply := mkReply "" [] [] false [] None.
Definition ok_out (s : string) : Reply := mkReply s [] [] false [] None.
Definition ok_list (l : list string) : Reply := mkReply "" l [] false [] None.
Definition ok_walk (l : list WalkEntry) : Reply := mkReply "" [] l false [] None.
Definition failed (e : error) : Reply := mkReply "" [] [] false [] (Some e).

(** The fields of [Configuration] that the embedded functions read. *)
Record Configuration : Type := mkConfiguration {
  BackupDir : string;
  K8sNamespace : string;
  Neo4jDatabase : string;
  Neo4jUsername : string;
  Neo4jPassword : string;
  PostgresDatabase : string;
  PostgresUsername : string;
  PostgresPassword : string;
  S3Upload : bool
}.

(** [KubernetesBackend]: the configuration it points to (of which [Detect]
    writes the namespace), the resolved namespace and the pod cache. *)
Record KubernetesBackend : Type := mkKubernetesBackend {
  k_config : Configuration;
  namespace : string;
  podCache : list (string * string)
}.

(** An event of a run: a call and what it returned. *)
Definition Event : Type := (Call * Reply)%type.

Definition calls (t : list Event) : list Call := map fst t.

(** The world a run takes place in: how every call answers, given the events
    before it, and the constants and pure helpers that the sources use but
    declare in other files.  [lowerCase] is the lower-case mapping of the
    runes above ASCII, which [strings.ToLower] reads from the table
    [unicode.CaseRanges] of the Go library. *)
Record World : Type := mkWorld {
  oracle : list Event -> Call -> Reply;
  config : Configuration;
  neo4jPIDFile : string;
  neo4jRemoteWorkDir : string;
  neo4jRemoteWatchdogBinary : string;
  neo4jRemoteWatchdogReady : string;
  neo4jRemoteWatchdogLog : string;
  neo4jEditionCommunity : string;
  neo4jEditionEnterprise : string;
  prefectDumpFilename : string;
  NewNeo4jEditionInfo : string -> option error -> Neo4jEditionInfo;
  createBackupMetadata : string -> bool -> string -> string -> BackupMetadata;
  MarshalIndent : BackupMetadata -> error + string;
  Unmarshal : string -> error + BackupMetadata;
  podSelectors : KubernetesBackend -> string -> list string;
  nonEmptyLines : string -> list string;
  lowerCase : N -> N
}.

(** A run: from the events so far to a result and the events of the run,
    both lists in the order of time. *)
Definition M (A : Type) : Type := list Event -> A * list Event.

Definition ret {A} (a : A) : M A := fun _ => (a, []).

Definition bind {A B} (m : M A) (k : A -> M B) : M B :=
  fun h =>
    let (a, e1) := m h in
    let (b, e2) := k a (h ++ e1)%list in
    (b, (e1 ++ e2)%list).

Definition perform (w : World) (c : Call) : M Reply :=
  fun h => (oracle w h c, [(c, oracle w h c)]).

Declare Scope run_scope.
Delimit Scope run_scope with run.
Notation "x <- m ;; k" := (bind m (fun x => k))
  (at level 61, m at next level, right associativity) : run_scope.
Notation "m ;; k" := (bind m (fun _ => k))
  (at level 61, right associativity) : run_scope.
Open Scope run_scope.

(** [if err != nil { return fail(err) }] after a call. *)
Definition orReturn {R} (m : M Reply) (fail : error -> R) (k : Reply -> M R)
  : M R :=
  r <- m ;;
  match r_err r with
  | Some e => ret (fail e)
  | None => k r
  end.

(** The same after a function that returns a value and an error. *)
Definition orReturn2 {A R} (m : M (A * option error)) (fail : error -> R)
    (k : A -> M R) : M R :=
  r <- m ;;
  match snd r with
  | Some e => ret (fail e)
  | None => k (fst r)
  end.

(** The same after a block of statements that ends with an error or with
    the values the following statements use. *)
Definition orReturnS {A R} (m : M (error + A)) (fail : error -> R)
    (k : A -> M R) : M R :=
  r <- m ;;
  match r with
  | inl e => ret (fail e)
  | inr a => k a
  end.

Notation "'check' m 'onError' f ;; k" := (orReturn m f (fun _ => k))
  (at level 61, m at next level, f at next level, right associativity)
  : run_scope.
Notation "x <-! m 'onError' f ;; k" := (orReturn m f (fun x => k))
  (at level 61, m at next level, f at next level, right associativity)
  : run_scope.
Notation "x <-? m 'onError' f ;; k" := (orReturn2 m f (fun x => k))
  (at level 61, m at next level, f at next level, right associativity)
  : run_scope.
Notation "x <-| m 'onError' f ;; k" := (orReturnS m f (fun x => k))
  (at level 61, m at next level, f at next level, right associativity)
  : run_scope.

(** [defer]: the deferred function runs when the body returns, sees the
    result the body set and gives the result of the function. *)
Definition defer {R} (deferred : R -> M R) (body : M R) : M R :=
  r <- body ;; deferred r.

(** A deferred function that leaves the result as it is. *)
Definition after {R} (m : M unit) : R -> M R := fun r => m ;; ret r.

Definition log (w : World) (l : Level) (format : string) (args : list string)
    (e : option error) : M unit :=
  perform w (Log l format args e) ;; ret tt.


(** The double quote, for the Go string literals that contain one. *)
Definition dquote : string := String (ascii_of_nat 34) EmptyString.

(** The newline byte. *)
Definition newline : string := String (ascii_of_nat 10) EmptyString.

(** [if _, err := call; err != nil { log(format, err) }]. *)
Definition logIfErr (w : World) (l : Level) (format : string)
    (args : list string) (r : Reply) : M unit :=
  match r_err r with
  | Some e => log w l format args (Some e)
  | None => ret tt
  end.

(** [%w] wrapping without string operands. *)
Definition wrap (format : string) (e : error) : error :=
  Wrapf format [] e.


(* ===================================================================== *)
(** * backup_neo4j.go                                                     *)
(* ===================================================================== *)

Definition Second : Z := 1000000000.

Definition neo4jTempBackupDir : string := "/tmp/infrahubops".
Definition neo4jWatchdogInitTimeout : Z := 5 * Second.
Definition neo4jProcessStopTimeout : Z := 120 * Second.
Definition neo4jMetadataScriptPath : string :=
  "/data/scripts/neo4j/restore_metadata.cypher".

Section Neo4j.

Variable w : World.

Let cfg := config w.

Definition backupNeo4jEnterprise (backupDir backupMetadata : string)
  : M (option error) :=
  check perform w (Exec "database" ["mkdir"; "-p"; neo4jTempBackupDir] None)
    onError (fun e => Some (wrap "failed to create backup directory: %w" e)) ;;
  defer (after (
      r <- perform w (Exec "database" ["rm"; "-rf"; neo4jTempBackupDir] None) ;;
      logIfErr w LWarn "Failed to remove temporary Neo4j backup directory: %v" [] r))
  ( r <- perform w (Exec "database"
           ["neo4j-admin"; "database"; "backup"; "--expand-commands";
            "--include-metadata=" ++ backupMetadata;
            "--to-path=" ++ neo4jTempBackupDir; Neo4jDatabase cfg] None) ;;
    match r_err r with
    | Some e =>
        ret (Some (Wrapf "failed to backup neo4j: %w\nOutput: %v" [r_out r] e))
    | None =>
        check perform w (CopyFrom "database" neo4jTempBackupDir
                           (filepath.Join [backupDir; "database"]))
          onError (fun e => Some (wrap "failed to copy database backup: %w" e)) ;;
        ret None
    end ).

Definition detectNeo4jArchitecture : M (string * option error) :=
  r <- perform w (Exec "database" ["uname"; "-m"] None) ;;
  match r_err r with
  | Some e =>
      ret ("", Some (wrap "failed to detect neo4j architecture: %w" e))
  | None =>
      let arch := strings.TrimSpace (r_out r) in
      if String.eqb arch ""
      then ret ("", Some (Errorf "empty architecture string" []))
      else ret (arch, None)
  end.

Definition readNeo4jPID : M (string * option error) :=
  r <- perform w (Exec "database" ["cat"; neo4jPIDFile w] None) ;;
  match r_err r with
  | Some e => ret ("", Some (wrap "failed to read neo4j pid file: %w" e))
  | None =>
      let pid := strings.TrimSpace (r_out r) in
      if String.eqb pid ""
      then ret ("", Some (Errorf "neo4j pid file is empty" []))
      else
        match strconv.Atoi pid with
        | inl ne =>
            ret ("", Some (Wrapf "invalid pid %q: %w" [pid]
                             (NumError "Atoi" pid ne)))
        | inr _ => ret (pid, None)
        end
  end.

Definition stopNeo4jCommunity (pidStr : string) : M (option error) :=
  check perform w (Exec "database" ["mkdir"; "-p"; neo4jRemoteWorkDir w] None)
    onError (fun e => Some (wrap "failed to prepare remote work directory: %w" e)) ;;
  arch <-? detectNeo4jArchitecture onError (fun e => Some e) ;;
  bin <-! perform w (selectWatchdogBinary arch) onError (fun e => Some e) ;;
  let watchdogBytes := r_out bin in
  tmp <-! perform w (writeEmbeddedWatchdog watchdogBytes)
    onError (fun e => Some e) ;;
  let localWatchdog := r_out tmp in
  defer (after (perform w (cleanup localWatchdog) ;; ret tt))
  ( check perform w (CopyTo "database" localWatchdog (neo4jRemoteWatchdogBinary w))
      onError (fun e => Some (wrap "failed to deploy watchdog binary: %w" e)) ;;
    check perform w (Exec "database" ["chmod"; "+x"; neo4jRemoteWatchdogBinary w] None)
      onError (fun e => Some (wrap "failed to mark watchdog executable: %w" e)) ;;
    r <- perform w (Exec "database"
           ["rm"; "-f"; neo4jRemoteWatchdogReady w; neo4jRemoteWatchdogLog w]
           None) ;;
    logIfErr w LDebug "Could not clear watchdog markers: %v" [] r ;;
    let watchdogCmd :=
      fmt.Sprintf "nohup %s --ready-file %s >%s 2>&1 &"
        [neo4jRemoteWatchdogBinary w; neo4jRemoteWatchdogReady w;
         neo4jRemoteWatchdogLog w] in
    check perform w (Exec "database" ["sh"; "-c"; watchdogCmd] None)
      onError (fun e => Some (wrap "failed to start watchdog: %w" e)) ;;
    check perform w (waitForRemoteFile (neo4jRemoteWatchdogReady w)
                       neo4jWatchdogInitTimeout)
      onError (fun e => Some (wrap "watchdog failed to initialize: %w" e)) ;;
    check perform w (Exec "database" ["kill"; pidStr] None)
      onError (fun e => Some (wrap "failed to stop neo4j: %w" e)) ;;
    check perform w (waitForProcessStopped pidStr neo4jProcessStopTimeout)
      onError (fun e => Some e) ;;
    ret None ).

(** The end of the function deferred by [backupNeo4jCommunity] and by
    [restoreNeo4jCommunity], whose text is the same in both: the watchdog
    files are removed, the continue signal is sent and a failure to send
    it becomes the result when the result is still [nil]. *)
Definition resumeNeo4j (pidStr : string) (retErr : option error)
  : M (option error) :=
  r <- perform w (Exec "database"
         ["rm"; "-f"; neo4jRemoteWatchdogBinary w; neo4jRemoteWatchdogReady w;
          neo4jRemoteWatchdogLog w] None) ;;
  logIfErr w LDebug "Failed to remove watchdog artifacts: %v" [] r ;;
  r <- perform w (Exec "database" ["kill"; "-CONT"; pidStr] None) ;;
  match r_err r with
  | Some e =>
      log w LError "Failed to send SIGCONT to neo4j (pid %s): %v" [pidStr]
        (Some e) ;;
      match retErr with
      | None => ret (Some (wrap "failed to resume neo4j process: %w" e))
      | Some _ => ret retErr
      end
  | None => ret retErr
  end.

(** The statements of [backupNeo4jCommunity] that follow its [defer]. *)
Definition dumpNeo4jCommunity (backupDir : string) : M (option error) :=
  check perform w (Exec "database" ["mkdir"; "-p"; neo4jRemoteWorkDir w] None)
    onError (fun e => Some (wrap "failed to prepare remote dump directory: %w" e)) ;;
  let databaseDir := filepath.Join [backupDir; "database"] in
  check perform w (MkdirAll databaseDir 493)
    onError (fun e => Some (wrap "failed to prepare local dump directory: %w" e)) ;;
  let dumpCmd :=
    ["neo4j-admin"; "database"; "dump"; "--overwrite-destination=true";
     "--to-path=" ++ neo4jRemoteWorkDir w; Neo4jDatabase cfg] in
  r <- perform w (Exec "database" dumpCmd None) ;;
  match r_err r with
  | Some dumpErr =>
      ret (Some (Wrapf "failed to dump neo4j database: %w\nOutput: %v"
                   [r_out r] dumpErr))
  | None =>
      let dumpFilename := fmt.Sprintf "%s.dump" [Neo4jDatabase cfg] in
      check perform w (CopyFrom "database"
                         (neo4jRemoteWorkDir w ++ "/" ++ dumpFilename)
                         (filepath.Join [databaseDir; dumpFilename]))
        onError (fun e => Some (wrap "failed to copy neo4j dump: %w" e)) ;;
      ret None
  end.

Definition backupNeo4jCommunity (backupDir : string) : M (option error) :=
  pidStr <-? readNeo4jPID onError (fun e => Some e) ;;
  stopped <- stopNeo4jCommunity pidStr ;;
  match stopped with
  | Some e => ret (Some e)
  | None => defer (resumeNeo4j pidStr) (dumpNeo4jCommunity backupDir)
  end.

Definition backupDatabase (backupDir backupMetadata neo4jEdition : string)
  : M (option error) :=
  let edition := strings.ToLower (lowerCase w) neo4jEdition in
  if String.eqb edition (neo4jEditionCommunity w)
  then backupNeo4jCommunity backupDir
  else backupNeo4jEnterprise backupDir backupMetadata.

Definition restoreNeo4jEnterprise (restoreMigrateFormat : bool)
  : M (option error) :=
  let opts := Some (mkExecOptions "neo4j" []) in
  check perform w (Exec "database"
          ["cypher-shell"; "-u"; Neo4jUsername cfg; "-p" ++ Neo4jPassword cfg;
           "-d"; "system"; "stop database " ++ Neo4jDatabase cfg] None)
    onError (fun e => Some (wrap "failed to stop neo4j database: %w" e)) ;;
  r <- perform w (Exec "database"
         ["neo4j-admin"; "database"; "restore"; "--expand-commands";
          "--overwrite-destination=true"; "--from-path=" ++ neo4jTempBackupDir;
          Neo4jDatabase cfg] opts) ;;
  match r_err r with
  | Some e => ret (Some (Wrapf "failed to restore neo4j: %w\nOutput: %v" [r_out r] e))
  | None =>
  migrated <-
    (if restoreMigrateFormat then
       r <- perform w (Exec "database"
              ["neo4j-admin"; "database"; "migrate"; "--expand-commands";
               "--to-format=block"; Neo4jDatabase cfg] opts) ;;
       match r_err r with
       | Some e =>
           ret (Some (Wrapf "failed to migrate neo4j to block format: %w\nOutput: %v"
                        [r_out r] e))
       | None => ret None
       end
     else ret None) ;;
  match migrated with
  | Some e => ret (Some e)
  | None =>
  r <- perform w (Exec "database"
         ["sh"; "-c";
          "cat " ++ neo4jMetadataScriptPath ++ " | cypher-shell -u "
            ++ Neo4jUsername cfg ++ " -p" ++ Neo4jPassword cfg
            ++ " -d system --param " ++ dquote ++ "database => '"
            ++ Neo4jDatabase cfg ++ "'" ++ dquote] opts) ;;
  match r_err r with
  | Some e =>
      ret (Some (Wrapf "failed to restore neo4j metadata: %w\nOutput: %v" [r_out r] e))
  | None =>
  check perform w (Exec "database"
          ["cypher-shell"; "-u"; Neo4jUsername cfg; "-p" ++ Neo4jPassword cfg;
           "-d"; "system"; "start database " ++ Neo4jDatabase cfg] None)
    onError (fun e => Some (wrap "failed to start neo4j database: %w" e)) ;;
  ret None
  end end end.

(** The statements of [restoreNeo4jCommunity] that follow its [defer]. *)
Definition loadNeo4jCommunity (restoreMigrateFormat : bool)
  : M (option error) :=
  let opts := Some (mkExecOptions "neo4j" []) in
  r <- perform w (Exec "database"
         ["neo4j-admin"; "database"; "load"; "--overwrite-destination=true";
          "--from-path=" ++ neo4jTempBackupDir; Neo4jDatabase cfg] opts) ;;
  match r_err r with
  | Some e => ret (Some (Wrapf "failed to load neo4j dump: %w\nOutput: %v" [r_out r] e))
  | None =>
      if restoreMigrateFormat then
        r <- perform w (Exec "database"
               ["neo4j-admin"; "database"; "migrate"; "--to-format=block";
                Neo4jDatabase cfg] opts) ;;
        match r_err r with
        | Some e =>
            ret (Some (Wrapf "failed to migrate neo4j to block format: %w\nOutput: %v"
                         [r_out r] e))
        | None => ret None
        end
      else ret None
  end.

(** The function deferred by [restoreNeo4jCommunity]. *)
Definition restoreDeferred (pidStr : string) (retErr : option error)
  : M (option error) :=
  r <- perform w (Exec "database" ["rm"; "-rf"; neo4jTempBackupDir] None) ;;
  logIfErr w LWarn "Failed to cleanup temporary Neo4j backup data: %v" [] r ;;
  resumeNeo4j pidStr retErr.

Definition restoreNeo4jCommunity (restoreMigrateFormat : bool)
  : M (option error) :=
  pidStr <-? readNeo4jPID onError (fun e => Some e) ;;
  stopped <- stopNeo4jCommunity pidStr ;;
  match stopped with
  | Some e => ret (Some e)
  | None =>
      defer (restoreDeferred pidStr)
            (loadNeo4jCommunity restoreMigrateFormat)
  end.

Definition restoreNeo4j (workDir neo4jEdition : string)
    (restoreMigrateFormat : bool) : M (option error) :=
  let backupPath := filepath.Join [workDir; "backup"; "database"] in
  check perform w (CopyTo "database" backupPath neo4jTempBackupDir)
    onError (fun e => Some (wrap "failed to copy backup to container: %w" e)) ;;
  defer (after (
      r <- perform w (Exec "database" ["rm"; "-rf"; neo4jTempBackupDir] None) ;;
      logIfErr w LWarn
        "Failed to cleanup temporary Neo4j backup data (this is expected for community restore method): %v"
        [] r))
  ( check perform w (Exec "database" ["chown"; "-R"; "neo4j:neo4j"; neo4jTempBackupDir] None)
      onError (fun e => Some (wrap "failed to change backup ownership: %w" e)) ;;
    let edition := strings.ToLower (lowerCase w) neo4jEdition in
    if String.eqb edition (neo4jEditionCommunity w)
    then restoreNeo4jCommunity restoreMigrateFormat
    else restoreNeo4jEnterprise restoreMigrateFormat ).

End Neo4j.

(* ===================================================================== *)
(** * backup.go, second part: the Kubernetes backend                      *)
(* ===================================================================== *)

Definition set_K8sNamespace (c : Configuration) (ns : string) : Configuration :=
  mkConfiguration (BackupDir c) ns (Neo4jDatabase c) (Neo4jUsername c)
    (Neo4jPassword c) (PostgresDatabase c) (PostgresUsername c)
    (PostgresPassword c) (S3Upload c).

Section Kubernetes.

Variable w : World.

(** [Detect] returns the error and the backend as the method leaves it. *)
Definition Detect (k : KubernetesBackend)
  : M (KubernetesBackend * option error) :=
  check perform w (runCommandQuiet "kubectl" ["version"; "--client"])
    onError (fun e => (k, Some (wrap "kubectl CLI not available: %w" e))) ;;
  ns <-! perform w ListKubernetesNamespaces onError (fun e => (k, Some e)) ;;
  let namespaces := r_list ns in
  if negb (String.eqb (K8sNamespace (k_config k)) "") then
    let k := mkKubernetesBackend (k_config k) (K8sNamespace (k_config k))
                                 (podCache k) in
    check perform w (runCommand "kubectl"
             ["get"; "pods"; "-n"; namespace k; "-l";
              "app.kubernetes.io/name=infrahub"])
      onError (fun e => (k, Some (Wrapf "failed to verify namespace %s: %w"
                                    [namespace k] e))) ;;
    ret (k, None)
  else
    match namespaces with
    | [] => ret (k, Some ErrEnvironmentNotFound)
    | [n] =>
        ret (mkKubernetesBackend (set_K8sNamespace (k_config k) n) n
                                 (podCache k), None)
    | _ =>
        ret (k, Some (Errorf
               "multiple kubernetes namespaces found: %s (set INFRAHUB_K8S_NAMESPACE)"
               [strings.Join namespaces ", "]))
    end.

(** The loop of [getPodStatuses] over the selectors. *)
Fixpoint getPodStatuses_selectors (k : KubernetesBackend)
    (selectors : list string) : M (option (list string)) :=
  match selectors with
  | [] => ret None
  | selector :: rest =>
      r <- perform w (runCommand "kubectl"
             ["get"; "pods"; "-n"; namespace k; "-l"; selector; "-o";
              "jsonpath={range .items[*]}{.status.phase}{" ++ dquote
                ++ "\n" ++ dquote ++ "}{end}"]) ;;
      match r_err r with
      | Some _ => getPodStatuses_selectors k rest
      | None =>
          match nonEmptyLines w (r_out r) with
          | [] => getPodStatuses_selectors k rest
          | statuses => ret (Some statuses)
          end
      end
  end.

(** The loop of [getPodStatuses] over the lines of the fallback query. *)
Fixpoint getPodStatuses_lines (service : string) (lines statuses : list string)
  : list string :=
  match lines with
  | [] => statuses
  | line :: rest =>
      if String.eqb line "" then getPodStatuses_lines service rest statuses
      else
        match strings.Split line ";" with
        | [name; phase] =>
            if strings.Contains name service
            then getPodStatuses_lines service rest (statuses ++ [phase])%list
            else getPodStatuses_lines service rest statuses
        | _ => getPodStatuses_lines service rest statuses
        end
  end.

Definition getPodStatuses (k : KubernetesBackend) (service : string)
  : M (list string * option error) :=
  let selectors := podSelectors w k service in
  found <- getPodStatuses_selectors k selectors ;;
  match found with
  | Some statuses => ret (statuses, None)
  | None =>
      r <-! perform w (runCommand "kubectl"
              ["get"; "pods"; "-n"; namespace k; "-o";
               "jsonpath={range .items[*]}{.metadata.name}{" ++ dquote ++ ";"
                 ++ dquote ++ "}{.status.phase}{" ++ dquote ++ "\n" ++ dquote
                 ++ "}{end}"])
        onError (fun e => ([], Some e)) ;;
      ret (getPodStatuses_lines service (strings.Split (r_out r) newline) [],
           None)
  end.

(** The loop of [IsRunning] over the statuses. *)
Fixpoint IsRunning_statuses (statuses : list string) : bool :=
  match statuses with
  | [] => false
  | status :: rest =>
      if strings.EqualFold status "Running" then true
      else IsRunning_statuses rest
  end.

Definition IsRunning (k : KubernetesBackend) (service : string)
  : M (bool * option error) :=
  statuses <-? getPodStatuses k service onError (fun e => (false, Some e)) ;;
  ret (IsRunning_statuses statuses, None).

End Kubernetes.

(* ===================================================================== *)
(** * backup_s3.go, second part: the task-manager database                *)
(* ===================================================================== *)

Section TaskManager.

Variable w : World.

Let cfg := config w.

Definition backupTaskManagerDB (backupDir : string) : M (option error) :=
  tmp <- perform w (getWritableTempDir "task-manager-db") ;;
  let tempDir := r_out tmp in
  let dumpFile := tempDir ++ "/infrahubops_prefect.dump" in
  let opts := Some (mkExecOptions "" [("PGPASSWORD", PostgresPassword cfg)]) in
  r <- perform w (Exec "task-manager-db"
         ["pg_dump"; "-Fc"; "-h"; "localhost"; "-U"; PostgresUsername cfg;
          "-d"; PostgresDatabase cfg; "-f"; dumpFile] opts) ;;
  match r_err r with
  | Some e =>
      ret (Some (Wrapf "failed to create postgresql dump: %w\nOutput: %v"
                   [r_out r] e))
  | None =>
      defer (after (
          r <- perform w (Exec "task-manager-db" ["rm"; dumpFile] None) ;;
          logIfErr w LWarn "Failed to remove temporary postgres dump: %v" [] r))
      ( check perform w (CopyFrom "task-manager-db" dumpFile
                           (filepath.Join [backupDir; "prefect.dump"]))
          onError (fun e => Some (wrap "failed to copy postgresql dump: %w" e)) ;;
        ret None )
  end.

Definition restorePostgreSQL (workDir : string) : M (option error) :=
  check perform w (StartServices ["task-manager-db"])
    onError (fun e => Some (wrap "failed to start task-manager-db: %w" e)) ;;
  tmp <- perform w (getWritableTempDir "task-manager-db") ;;
  let tempDir := r_out tmp in
  let dumpFile := tempDir ++ "/infrahubops_prefect.dump" in
  let dumpPath := filepath.Join [workDir; "backup"; "prefect.dump"] in
  check perform w (CopyTo "task-manager-db" dumpPath dumpFile)
    onError (fun e => Some (wrap "failed to copy dump to container: %w" e)) ;;
  defer (after (
      r <- perform w (Exec "task-manager-db" ["rm"; dumpFile] None) ;;
      logIfErr w LWarn "Failed to remove temporary postgres dump: %v" [] r))
  ( let opts := Some (mkExecOptions "" [("PGPASSWORD", PostgresPassword cfg)]) in
    r <- perform w (Exec "task-manager-db"
           ["pg_restore"; "-h"; "localhost"; "-d"; "postgres"; "-U";
            PostgresUsername cfg; "--clean"; "--create"; dumpFile] opts) ;;
    match r_err r with
    | Some e =>
        ret (Some (Wrapf "failed to restore postgresql: %w\nOutput: %v"
                     [r_out r] e))
    | None => ret None
    end ).

End TaskManager.
(* ===================================================================== *)
(** * CreateBackup and RestoreBackup: what the two revisions share        *)
(* ===================================================================== *)

(** The sources hold [CreateBackup] and [RestoreBackup] twice: in
    [backup.go], where the checksums and the reconciliation of the editions
    are the work of functions declared in other files, and in the listing
    of the third part of [S3_BACKUP.md], where that code is in the body of
    the two functions.  The statements below are the same in both. *)

(** Go maps from strings to strings, as association lists. *)
Fixpoint map_get (m : list (string * string)) (k : string) : option string :=
  match m with
  | [] => None
  | (k', v) :: m' => if String.eqb k k' then Some v else map_get m' k
  end.

Fixpoint map_set (m : list (string * string)) (k v : string)
  : list (string * string) :=
  match m with
  | [] => [(k, v)]
  | (k', v') :: m' =>
      if String.eqb k k' then (k, v) :: m' else (k', v') :: map_set m' k v
  end.

Definition set_Checksums (m : BackupMetadata) (c : list (string * string))
  : BackupMetadata :=
  mkBackupMetadata (BackupID m) (CreatedAt m) (ToolVersion m)
    (InfrahubVersion m) (Neo4jEdition m) (Components m) c.

Section Common.

Variable w : World.

Let cfg := config w.

(** "Create backup directory structure" and "Backup databases". *)
Definition dumpDatabases (backupDir neo4jMetadata : string)
    (excludeTaskManager : bool) (edition : string) : M (option error) :=
  check perform w (MkdirAll backupDir 493)
    onError (fun e => Some (wrap "failed to create backup directory: %w" e)) ;;
  check perform w (MkdirAll (BackupDir cfg) 493)
    onError (fun e => Some (wrap "failed to create backup parent directory: %w" e)) ;;
  dbErr <- backupDatabase w backupDir neo4jMetadata edition ;;
  match dbErr with
  | Some e => ret (Some e)
  | None =>
      if negb excludeTaskManager then backupTaskManagerDB w backupDir
      else ret None
  end.

(** The function deferred by [CreateBackup] once the application
    containers are stopped. *)
Definition restartDeferred (servicesToRestart : list string)
    (retErr : option error) : M (option error) :=
  match servicesToRestart with
  | [] => ret retErr
  | _ =>
      r <- perform w (startAppContainers servicesToRestart) ;;
      match r_err r with
      | Some startErr =>
          log w LError "Failed to restart services after backup: %v" []
            (Some startErr) ;;
          match retErr with
          | None =>
              ret (Some (wrap "failed to restart services after backup: %w" startErr))
          | Some _ => ret retErr
          end
      | None => ret retErr
      end
  end.

(** The statements of [RestoreBackup] up to the creation of the work
    directory. *)
Definition createRestoreWorkDir (backupFile : string) : M (error + string) :=
  st <- perform w (Stat backupFile) ;;
  if os.IsNotExist (r_err st)
  then ret (inl (Errorf "backup file not found: %s" [backupFile]))
  else
    check perform w checkPrerequisites onError (fun e => inl e) ;;
    check perform w DetectEnvironment onError (fun e => inl e) ;;
    tmp <-! perform w (MkdirTemp "" "infrahub_restore_*")
      onError (fun e => inl (wrap "failed to create temp directory: %w" e)) ;;
    ret (inr (r_out tmp)).

(** "Extract backup", "Validate backup", "Read and parse backup info". *)
Definition readBackupMetadata (backupFile workDir : string)
  : M (error + BackupMetadata) :=
  check perform w (extractTarball backupFile workDir)
    onError (fun e => inl (wrap "failed to extract backup: %w" e)) ;;
  let metadataPath :=
    filepath.Join [workDir; "backup"; "backup_information.json"] in
  st <- perform w (Stat metadataPath) ;;
  if os.IsNotExist (r_err st)
  then ret (inl (Errorf "invalid backup file: missing metadata" []))
  else
    rd <-! perform w (ReadFile metadataPath)
      onError (fun e => inl (wrap "failed to read metadata: %w" e)) ;;
    match Unmarshal w (r_out rd) with
    | inl e => ret (inl (wrap "failed to parse metadata: %w" e))
    | inr metadata => ret (inr metadata)
    end.

(** "Determine task manager database availability": the loop over the
    components of the listing, [slices.Contains] in [backup.go]. *)
Definition taskManagerIncluded (metadata : BackupMetadata) : bool :=
  if existsb (fun component => String.eqb component "task-manager-db")
             (Components metadata)
  then true
  else match map_get (Checksums metadata) "prefect.dump" with
       | Some _ => true
       | None => false
       end.

(** The statements of [RestoreBackup] from "Wipe transient data" on. *)
Definition applyRestore (workDir neo4jEdition : string)
    (validatePrefect restoreMigrateFormat : bool) : M (option error) :=
  perform w wipeTransientData ;;
  check perform w stopAppContainers onError (fun e => Some e) ;;
  pg <- (if validatePrefect then restorePostgreSQL w workDir else ret None) ;;
  match pg with
  | Some e => ret (Some e)
  | None =>
      check perform w restartDependencies onError (fun e => Some e) ;;
      neo <- restoreNeo4j w workDir neo4jEdition restoreMigrateFormat ;;
      match neo with
      | Some e => ret (Some e)
      | None =>
          check perform w (StartServices ["infrahub-server"; "task-worker"])
            onError (fun e => Some (wrap "failed to restart infrahub services: %w" e)) ;;
          ret None
      end
  end.

End Common.
(* ===================================================================== *)
(** * backup.go, first part: CreateBackup and RestoreBackup               *)
(* ===================================================================== *)

(** [CreateBackup] and [RestoreBackup] as [backup.go] has them.  The
    functions [detectNeo4jEditionInfo], [calculateBackupChecksums],
    [ResolveRestoreEdition], [LogDetection], [validateBackupChecksums] and
    [fileExists] are declared in other files: they are calls of the
    world. *)
Module Delegated.
Section Delegated.

Variable w : World.

Let cfg := config w.

(** *** CreateBackup *)

(** The statements of [CreateBackup] that follow the checksums: the
    metadata file, the archive and the upload. *)
Definition packageBackup (workDir backupDir backupPath : string)
    (metadata : BackupMetadata) (checksums : list (string * string))
  : M (option error) :=
  let metadata := set_Checksums metadata checksums in
  match MarshalIndent w metadata with
  | inl e => ret (Some (wrap "failed to marshal metadata: %w" e))
  | inr metadataBytes =>
      check perform w (WriteFile (filepath.Join [backupDir; "backup_information.json"])
                         metadataBytes 420)
        onError (fun e => Some (wrap "failed to write metadata: %w" e)) ;;
      check perform w (createTarball backupPath workDir "backup/")
        onError (fun e => Some (wrap "failed to create archive: %w" e)) ;;
      perform w (Stat backupPath) ;;
      if S3Upload cfg then
        check perform w (uploadBackupToS3 backupPath)
          onError (fun e =>
            Some (wrap "backup created but failed to upload to S3: %w" e)) ;;
        ret None
      else ret None
  end.

(** The statements of [CreateBackup] from the choice of the file name to
    the end. *)
Definition writeBackup (neo4jMetadata : string) (excludeTaskManager : bool)
    (version : string) (editionInfo : Neo4jEditionInfo) : M (option error) :=
  name <- perform w generateBackupFilename ;;
  let backupFilename := r_out name in
  let backupPath := filepath.Join [BackupDir cfg; backupFilename] in
  tmp <-! perform w (MkdirTemp "" "infrahub_backup_*")
    onError (fun e => Some (wrap "failed to create temp directory: %w" e)) ;;
  let workDir := r_out tmp in
  defer (after (perform w (RemoveAll workDir) ;; ret tt))
  ( let backupDir := filepath.Join [workDir; "backup"] in
    let backupID := strings.TrimSuffix backupFilename ".tar.gz" in
    let metadata :=
      createBackupMetadata w backupID (negb excludeTaskManager) version
                           (Edition editionInfo) in
    dumped <- dumpDatabases w backupDir neo4jMetadata excludeTaskManager
                            (Edition editionInfo) ;;
    match dumped with
    | Some e => ret (Some e)
    | None =>
        sums <-! perform w (calculateBackupChecksums backupDir excludeTaskManager)
          onError (fun e => Some e) ;;
        let checksums := r_map sums in
        packageBackup workDir backupDir backupPath metadata checksums
    end ).

Definition CreateBackup (force : bool) (neo4jMetadata : string)
    (excludeTaskManager : bool) : M (option error) :=
  check perform w checkPrerequisites onError (fun e => Some e) ;;
  check perform w DetectEnvironment onError (fun e => Some e) ;;
  info <- perform w (detectNeo4jEditionInfo "backup") ;;
  let editionInfo := mkNeo4jEditionInfo (r_out info) (r_flag info) in
  (if IsCommunity editionInfo then perform w (Sleep (10 * Second)) ;; ret tt
   else ret tt) ;;
  ver <- perform w getInfrahubVersion ;;
  let version := r_out ver in
  tasks <- (if negb force then
              r <- perform w waitForRunningTasks ;; ret (r_err r)
            else ret None) ;;
  match tasks with
  | Some e => ret (Some e)
  | None =>
      if IsCommunity editionInfo then
        st <- perform w stopAppContainers ;;
        let stoppedServices := r_list st in
        match r_err st with
        | Some stopErr =>
            match stoppedServices with
            | [] => ret tt
            | _ =>
                r <- perform w (startAppContainers stoppedServices) ;;
                logIfErr w LWarn
                  "Failed to restart services after stop error: %v" [] r
            end ;;
            ret (Some (wrap
                   "failed to stop services for Neo4j Community backup: %w"
                   stopErr))
        | None =>
            let servicesToRestart := stoppedServices in
            defer (restartDeferred w servicesToRestart)
                  (writeBackup neo4jMetadata excludeTaskManager version editionInfo)
        end
      else writeBackup neo4jMetadata excludeTaskManager version editionInfo
  end.

(** *** RestoreBackup *)

(** The statements of [RestoreBackup] between the parsing of the metadata
    and "Wipe transient data": the result is the edition to restore with
    and the value of [validatePrefect]. *)
Definition validateRestore (workDir : string) (metadata : BackupMetadata)
    (excludeTaskManager : bool) : M (error + (string * bool)) :=
  det <- perform w detectNeo4jEdition ;;
  let editionInfo := NewNeo4jEditionInfo w (r_out det) (r_err det) in
  res <-! perform w (ResolveRestoreEdition editionInfo (Neo4jEdition metadata))
    onError (fun e => inl e) ;;
  let neo4jEdition := r_out res in
  perform w (LogDetection editionInfo "restore") ;;
  let taskManagerIncluded := taskManagerIncluded metadata in
  check perform w (validateBackupChecksums workDir metadata excludeTaskManager)
    onError (fun e => inl e) ;;
  let shouldRestoreTaskManager := taskManagerIncluded && negb excludeTaskManager in
  let prefectPath := filepath.Join [workDir; "backup"; prefectDumpFilename w] in
  ex <- perform w (fileExists prefectPath) ;;
  let prefectExists := r_flag ex in
  let validatePrefect := shouldRestoreTaskManager && prefectExists in
  if taskManagerIncluded && negb prefectExists && negb excludeTaskManager
  then ret (inl (Errorf
         "backup metadata includes task manager database but %s is missing"
         [prefectDumpFilename w]))
  else ret (inr (neo4jEdition, validatePrefect)).

Definition RestoreBackup (backupFile : string)
    (excludeTaskManager restoreMigrateFormat : bool) : M (option error) :=
  workDir <-| createRestoreWorkDir w backupFile onError (fun e => Some e) ;;
  defer (after (perform w (RemoveAll workDir) ;; ret tt))
  ( metadata <-| readBackupMetadata w backupFile workDir onError (fun e => Some e) ;;
    checked <-| validateRestore workDir metadata excludeTaskManager
      onError (fun e => Some e) ;;
    applyRestore w workDir (fst checked) (snd checked) restoreMigrateFormat ).

End Delegated.
End Delegated.

(* ===================================================================== *)
(** * CreateBackup and RestoreBackup, checksum code in the body           *)
(* ===================================================================== *)

(** The listing of [CreateBackup] and [RestoreBackup] in the third part of
    [S3_BACKUP.md]: the two functions with the computation and the
    validation of the checksums written in their body. *)
Module Inlined.
Section Inlined.

Variable w : World.

Let cfg := config w.

(** *** CreateBackup *)

(** The callback of [filepath.Walk] over the database directory, applied
    to the visits in order: a visit with an error ends the walk with that
    error; the digest of a file is recorded when it could be computed. *)
Fixpoint walkChecksums (backupDir : string) (visits : list WalkEntry)
    (checksums : list (string * string))
  : M (list (string * string) * option error) :=
  match visits with
  | [] => ret (checksums, None)
  | v :: rest =>
      match we_err v with
      | Some e => ret (checksums, Some e)
      | None =>
          if we_isDir v then walkChecksums backupDir rest checksums
          else
            let rel := match filepath.Rel backupDir (we_path v) with
                       | Some rel => rel
                       | None => ""
                       end in
            s <- perform w (calculateSHA256 (we_path v)) ;;
            match r_err s with
            | None => walkChecksums backupDir rest (map_set checksums rel (r_out s))
            | Some _ => walkChecksums backupDir rest checksums
            end
      end
  end.

(** "Calculate checksum for each file in Neo4j backup directory" and
    "Calculate checksum for Prefect DB dump". *)
Definition calculateChecksums (backupDir : string) (excludeTaskManager : bool)
  : M (error + list (string * string)) :=
  let checksums := [] in
  let neo4jDir := filepath.Join [backupDir; "database"] in
  let prefectPath := filepath.Join [backupDir; "prefect.dump"] in
  visits <- perform w (Walk neo4jDir) ;;
  walked <- walkChecksums backupDir (r_walk visits) checksums ;;
  match snd walked with
  | Some e => ret (inl (wrap "failed to calculate Neo4j backup checksums: %w" e))
  | None =>
      let checksums := fst walked in
      if negb excludeTaskManager then
        st <- perform w (Stat prefectPath) ;;
        match r_err st with
        | None =>
            s <- perform w (calculateSHA256 prefectPath) ;;
            match r_err s with
            | None => ret (inr (map_set checksums "prefect.dump" (r_out s)))
            | Some e =>
                ret (inl (wrap "failed to calculate Prefect DB checksum: %w" e))
            end
        | Some e =>
            if negb (errors.IsErrNotExist e)
            then ret (inl (wrap "could not access Prefect DB dump: %w" e))
            else ret (inr checksums)
        end
      else ret (inr checksums)
  end.

(** The statements of [CreateBackup] that follow the checksums: the
    metadata file and the archive. *)
Definition packageBackup (workDir backupDir backupPath : string)
    (metadata : BackupMetadata) (checksums : list (string * string))
  : M (option error) :=
  let metadata :=
    match checksums with
    | [] => metadata
    | _ => set_Checksums metadata checksums
    end in
  match MarshalIndent w metadata with
  | inl e => ret (Some (wrap "failed to marshal metadata: %w" e))
  | inr metadataBytes =>
      check perform w (WriteFile (filepath.Join [backupDir; "backup_information.json"])
                         metadataBytes 420)
        onError (fun e => Some (wrap "failed to write metadata: %w" e)) ;;
      check perform w (createTarball backupPath workDir "backup/")
        onError (fun e => Some (wrap "failed to create archive: %w" e)) ;;
      perform w (Stat backupPath) ;;
      ret None
  end.

(** The statements of [CreateBackup] from the choice of the file name to
    the end. *)
Definition writeBackup (neo4jMetadata : string) (excludeTaskManager : bool)
    (version edition : string) : M (option error) :=
  name <- perform w generateBackupFilename ;;
  let backupFilename := r_out name in
  let backupPath := filepath.Join [BackupDir cfg; backupFilename] in
  tmp <-! perform w (MkdirTemp "" "infrahub_backup_*")
    onError (fun e => Some (wrap "failed to create temp directory: %w" e)) ;;
  let workDir := r_out tmp in
  defer (after (perform w (RemoveAll workDir) ;; ret tt))
  ( let backupDir := filepath.Join [workDir; "backup"] in
    let backupID := strings.TrimSuffix backupFilename ".tar.gz" in
    let metadata :=
      createBackupMetadata w backupID (negb excludeTaskManager) version edition in
    dumped <- dumpDatabases w backupDir neo4jMetadata excludeTaskManager edition ;;
    match dumped with
    | Some e => ret (Some e)
    | None =>
        checksums <-| calculateChecksums backupDir excludeTaskManager
          onError (fun e => Some e) ;;
        packageBackup workDir backupDir backupPath metadata checksums
    end ).

Definition CreateBackup (force : bool) (neo4jMetadata : string)
    (excludeTaskManager : bool) : M (option error) :=
  check perform w checkPrerequisites onError (fun e => Some e) ;;
  check perform w DetectEnvironment onError (fun e => Some e) ;;
  ed <- perform w detectNeo4jEdition ;;
  let edition := r_out ed in
  logIfErr w LWarn "Could not determine Neo4j edition: %v" [] ed ;;
  let isCommunityEdition :=
    strings.EqualFold edition (neo4jEditionCommunity w) in
  (if isCommunityEdition then perform w (Sleep (10 * Second)) ;; ret tt
   else ret tt) ;;
  ver <- perform w getInfrahubVersion ;;
  let version := r_out ver in
  tasks <- (if negb force then
              r <- perform w waitForRunningTasks ;; ret (r_err r)
            else ret None) ;;
  match tasks with
  | Some e => ret (Some e)
  | None =>
      if isCommunityEdition then
        st <- perform w stopAppContainers ;;
        let stoppedServices := r_list st in
        match r_err st with
        | Some stopErr =>
            match stoppedServices with
            | [] => ret tt
            | _ =>
                r <- perform w (startAppContainers stoppedServices) ;;
                logIfErr w LWarn
                  "Failed to restart services after stop error: %v" [] r
            end ;;
            ret (Some (wrap
                   "failed to stop services for Neo4j Community backup: %w"
                   stopErr))
        | None =>
            let servicesToRestart := stoppedServices in
            defer (restartDeferred w servicesToRestart)
                  (writeBackup neo4jMetadata excludeTaskManager version edition)
        end
      else writeBackup neo4jMetadata excludeTaskManager version edition
  end.

(** *** RestoreBackup *)

(** The reconciliation of the edition of the backup with the edition
    detected on the target. *)
Definition resolveEdition (metadata : BackupMetadata) : M (error + string) :=
  let neo4jEdition := strings.ToLower (lowerCase w) (Neo4jEdition metadata) in
  det <- perform w detectNeo4jEdition ;;
  match r_err det with
  | Some e =>
      log w LWarn
        "Could not detect Neo4j edition during restore; defaulting to community workflow: %v"
        [] (Some e) ;;
      ret (inr (neo4jEditionCommunity w))
  | None =>
      let detectedEdition := r_out det in
      if String.eqb neo4jEdition (neo4jEditionCommunity w)
         && String.eqb (strings.ToLower (lowerCase w) detectedEdition) (neo4jEditionEnterprise w)
      then ret (inr (neo4jEditionCommunity w))
      else if String.eqb neo4jEdition (neo4jEditionEnterprise w)
              && String.eqb (strings.ToLower (lowerCase w) detectedEdition) (neo4jEditionCommunity w)
      then ret (inl (Errorf
                 "cannot restore Enterprise backup on Community edition Neo4j" []))
      else ret (inr (strings.ToLower (lowerCase w) detectedEdition))
  end.

(** "Validate checksums for Neo4j backup files": the [range] loop over
    the checksums of the metadata. *)
Fixpoint validateChecksums (workDir : string)
    (checksums : list (string * string)) : M (option error) :=
  match checksums with
  | [] => ret None
  | (relPath, expectedSum) :: rest =>
      if String.eqb relPath "prefect.dump" then validateChecksums workDir rest
      else
        let filePath := filepath.Join [workDir; "backup"; relPath] in
        st <- perform w (Stat filePath) ;;
        match r_err st with
        | Some _ => ret (Some (Errorf "missing backup file: %s" [relPath]))
        | None =>
            s <- perform w (calculateSHA256 filePath) ;;
            match r_err s with
            | Some e =>
                ret (Some (Wrapf "failed to calculate checksum for %s: %w"
                             [relPath] e))
            | None =>
                let sum := r_out s in
                if negb (String.eqb sum expectedSum)
                then ret (Some (Errorf
                            "checksum mismatch for %s: expected %s, got %s"
                            [relPath; expectedSum; sum]))
                else validateChecksums workDir rest
            end
        end
  end.

(** "Validate checksum for Prefect DB dump when applicable": the result is
    the value of [validatePrefect]. *)
Definition validatePrefectDump (workDir : string) (metadata : BackupMetadata)
    (excludeTaskManager : bool) : M (error + bool) :=
  let taskManagerIncluded := taskManagerIncluded metadata in
  let prefectPath := filepath.Join [workDir; "backup"; "prefect.dump"] in
  st <- perform w (Stat prefectPath) ;;
  match (match r_err st with
         | None => inr true
         | Some e =>
             if negb (errors.IsErrNotExist e)
             then inl (wrap "failed to access prefect.dump: %w" e)
             else inr false
         end) with
  | inl e => ret (inl e)
  | inr prefectExists =>
      let shouldRestoreTaskManager := taskManagerIncluded && negb excludeTaskManager in
      let validatePrefect := shouldRestoreTaskManager && prefectExists in
      if taskManagerIncluded && negb prefectExists && negb excludeTaskManager
      then ret (inl (Errorf
             "backup metadata includes task manager database but prefect.dump is missing"
             []))
      else if validatePrefect then
        match map_get (Checksums metadata) "prefect.dump" with
        | None =>
            ret (inl (Errorf "missing checksum for prefect.dump in metadata" []))
        | Some expectedSum =>
            s <- perform w (calculateSHA256 prefectPath) ;;
            match r_err s with
            | Some e =>
                ret (inl (wrap "failed to calculate checksum for prefect.dump: %w" e))
            | None =>
                let sum := r_out s in
                if negb (String.eqb sum expectedSum)
                then ret (inl (Errorf
                            "checksum mismatch for prefect.dump: expected %s, got %s"
                            [expectedSum; sum]))
                else ret (inr validatePrefect)
            end
        end
      else ret (inr validatePrefect)
  end.

(** The statements of [RestoreBackup] between the parsing of the metadata
    and "Wipe transient data": the result is the edition to restore with
    and the value of [validatePrefect]. *)
Definition validateRestore (workDir : string) (metadata : BackupMetadata)
    (excludeTaskManager : bool) : M (error + (string * bool)) :=
  neo4jEdition <-| resolveEdition metadata onError (fun e => inl e) ;;
  invalid <- validateChecksums workDir (Checksums metadata) ;;
  match invalid with
  | Some e => ret (inl e)
  | None =>
      validatePrefect <-| validatePrefectDump workDir metadata excludeTaskManager
        onError (fun e => inl e) ;;
      ret (inr (neo4jEdition, validatePrefect))
  end.

Definition RestoreBackup (backupFile : string)
    (excludeTaskManager restoreMigrateFormat : bool) : M (option error) :=
  workDir <-| createRestoreWorkDir w backupFile onError (fun e => Some e) ;;
  defer (after (perform w (RemoveAll workDir) ;; ret tt))
  ( metadata <-| readBackupMetadata w backupFile workDir onError (fun e => Some e) ;;
    checked <-| validateRestore workDir metadata excludeTaskManager
      onError (fun e => Some e) ;;
    applyRestore w workDir (fst checked) (snd checked) restoreMigrateFormat ).

End Inlined.
End Inlined.
(* ===================================================================== *)
(** * backup.go, second part: pods, commands and copies                   *)
(* ===================================================================== *)

(** The methods of [KubernetesBackend] that run a command in a pod or copy
    a file to or from it, and the lookup of the pod of a service, which
    they share.  A method returns the backend as it leaves it: the lookup
    writes the pod cache. *)
Module Kubernetes.
Section Kubernetes.

Variable w : World.

(** [prepareCommand], a method of the backend that another file
    declares. *)
Variable prepareCommand :
  KubernetesBackend -> list string -> option ExecOptions -> list string.

(** [k.podCache[service] = pod]. *)
Definition set_podCache (k : KubernetesBackend) (service pod : string)
  : KubernetesBackend :=
  mkKubernetesBackend (k_config k) (namespace k)
                      (map_set (podCache k) service pod).

(** The loop of [getPodForService] over the selectors: the first pod of
    the first selector whose query succeeds and names a pod. *)
Fixpoint getPodForService_selectors (k : KubernetesBackend)
    (selectors : list string) : M (option string) :=
  match selectors with
  | [] => ret None
  | selector :: rest =>
      r <- perform w (runCommand "kubectl"
             ["get"; "pods"; "-n"; namespace k; "-l"; selector; "-o";
              "jsonpath={range .items[*]}{.metadata.name}{" ++ dquote
                ++ "\n" ++ dquote ++ "}{end}"]) ;;
      match r_err r with
      | Some _ => getPodForService_selectors k rest
      | None =>
          match nonEmptyLines w (r_out r) with
          | [] => getPodForService_selectors k rest
          | pod :: _ => ret (Some pod)
          end
      end
  end.

(** The loop of [getPodForService] over the names of all the pods: the
    first name that contains the service. *)
Fixpoint getPodForService_names (service : string) (names : list string)
  : option string :=
  match names with
  | [] => None
  | name :: rest =>
      if strings.Contains name service then Some name
      else getPodForService_names service rest
  end.

(** The statements of [getPodForService] that follow the test of the
    cache: the selectors, then the search among all the pods. *)
Definition findPodForService (k : KubernetesBackend) (service : string)
  : M (KubernetesBackend * (string * option error)) :=
  let selectors := podSelectors w k service in
  found <- getPodForService_selectors k selectors ;;
  match found with
  | Some pod => ret (set_podCache k service pod, (pod, None))
  | None =>
      r <-! perform w (runCommand "kubectl"
              ["get"; "pods"; "-n"; namespace k; "-o";
               "jsonpath={range .items[*]}{.metadata.name}{" ++ dquote
                 ++ "\n" ++ dquote ++ "}{end}"])
        onError (fun err => (k, ("", Some err))) ;;
      match getPodForService_names service (nonEmptyLines w (r_out r)) with
      | Some name => ret (set_podCache k service name, (name, None))
      | None =>
          ret (k, ("", Some (Errorf
                 "no pods found for service %s in namespace %s"
                 [service; namespace k])))
      end
  end.

Definition getPodForService (k : KubernetesBackend) (service : string)
  : M (KubernetesBackend * (string * option error)) :=
  match map_get (podCache k) service with
  | Some pod =>
      if negb (String.eqb pod "") then ret (k, (pod, None))
      else findPodForService k service
  | None => findPodForService k service
  end.

(** [Exec]: the command runs in the pod of the service. *)
Definition Exec (k : KubernetesBackend) (service : string)
    (command : list string) (opts : option ExecOptions)
  : M (KubernetesBackend * (string * option error)) :=
  p <- getPodForService k service ;;
  let k := fst p in
  match snd (snd p) with
  | Some err => ret (k, ("", Some err))
  | None =>
      let pod := fst (snd p) in
      let finalCmd := prepareCommand k command opts in
      let args := (["exec"; "-n"; namespace k; pod; "--"] ++ finalCmd)%list in
      r <- perform w (runCommand "kubectl" args) ;;
      ret (k, (r_out r, r_err r))
  end.

Definition CopyTo (k : KubernetesBackend) (service src dest : string)
  : M (KubernetesBackend * option error) :=
  p <- getPodForService k service ;;
  let k := fst p in
  match snd (snd p) with
  | Some err => ret (k, Some err)
  | None =>
      let pod := fst (snd p) in
      let target := fmt.Sprintf "%s/%s:%s" [namespace k; pod; dest] in
      r <- perform w (runCommand "kubectl" ["cp"; src; target]) ;;
      ret (k, r_err r)
  end.

Definition CopyFrom (k : KubernetesBackend) (service src dest : string)
  : M (KubernetesBackend * option error) :=
  p <- getPodForService k service ;;
  let k := fst p in
  match snd (snd p) with
  | Some err => ret (k, Some err)
  | None =>
      let pod := fst (snd p) in
      let source := fmt.Sprintf "%s/%s:%s" [namespace k; pod; src] in
      r <- perform w (runCommand "kubectl" ["cp"; source; dest]) ;;
      ret (k, r_err r)
  end.

End Kubernetes.
End Kubernetes.
(* ===================================================================== *)
(** * backup_s3.go, first part: the upload of a backup to S3              *)
(* ===================================================================== *)

(** [filepath.Base]: the last element of the path, trailing slashes
    removed first; [.] for the empty path and the separator for a path of
    slashes only.  The path is read from its end. *)
Fixpoint strip_slashes (l : list ascii) : list ascii :=
  match l with
  | "/"%char :: l' => strip_slashes l'
  | _ => l
  end.

Fixpoint last_element (l : list ascii) : list ascii :=
  match l with
  | [] => []
  | "/"%char :: _ => []
  | c :: l' => c :: last_element l'
  end.

Definition filepath_Base (path : string) : string :=
  if String.eqb path "" then "."
  else
    let stripped := strip_slashes (rev (list_ascii_of_string path)) in
    let path := string_of_list_ascii (rev (last_element stripped)) in
    if String.eqb path "" then filepath.Separator else path.

Module S3.

(** The S3 fields of [Configuration] (the record of that name holds the
    fields that the backup and restore functions read). *)
Record S3Configuration : Type := mkS3Configuration {
  S3Bucket : string;
  S3Endpoint : string;
  S3Region : string;
  S3AccessKeyID : string;
  S3SecretKey : string
}.

(** [loadS3Config], from the second part of [S3_BACKUP.md]; [getenv] is
    [os.Getenv], which gives the empty string for a variable that is not
    set. *)
Definition loadS3Config (getenv : string -> string) (cfg : S3Configuration)
  : S3Configuration :=
  let bucket := getenv "S3_BUCKET" in
  let cfg :=
    if negb (String.eqb bucket "")
    then mkS3Configuration bucket (S3Endpoint cfg) (S3Region cfg)
                           (S3AccessKeyID cfg) (S3SecretKey cfg)
    else cfg in
  let endpoint := getenv "S3_ENDPOINT" in
  let cfg :=
    if negb (String.eqb endpoint "")
    then mkS3Configuration (S3Bucket cfg) endpoint (S3Region cfg)
                           (S3AccessKeyID cfg) (S3SecretKey cfg)
    else cfg in
  let accessKey := getenv "S3_ACCESS_KEY_ID" in
  let cfg :=
    if negb (String.eqb accessKey "")
    then mkS3Configuration (S3Bucket cfg) (S3Endpoint cfg) (S3Region cfg)
                           accessKey (S3SecretKey cfg)
    else cfg in
  let secretKey := getenv "S3_SECRET_ACCESS_KEY" in
  let cfg :=
    if negb (String.eqb secretKey "")
    then mkS3Configuration (S3Bucket cfg) (S3Endpoint cfg) (S3Region cfg)
                           (S3AccessKeyID cfg) secretKey
    else cfg in
  let region := getenv "S3_REGION" in
  if negb (String.eqb region "")
  then mkS3Configuration (S3Bucket cfg) (S3Endpoint cfg) region
                         (S3AccessKeyID cfg) (S3SecretKey cfg)
  else mkS3Configuration (S3Bucket cfg) (S3Endpoint cfg) "us-east-1"
                         (S3AccessKeyID cfg) (S3SecretKey cfg).

(** [validateS3Config]. *)
Definition validateS3Config (cfg : S3Configuration) : option error :=
  if String.eqb (S3Bucket cfg) "" then
    Some (Errorf
      "S3 bucket not configured (set S3_BUCKET environment variable)" [])
  else if String.eqb (S3AccessKeyID cfg) "" then
    Some (Errorf
      "S3 access key ID not configured (set S3_ACCESS_KEY_ID environment variable)"
      [])
  else if String.eqb (S3SecretKey cfg) "" then
    Some (Errorf
      "S3 secret key not configured (set S3_SECRET_ACCESS_KEY environment variable)"
      [])
  else None.

(** An S3 client: the SDK configuration it was made from and the options
    that [createS3Client] sets. *)
Record Client : Type := mkClient {
  sdkConfig : string;
  BaseEndpoint : option string;
  UsePathStyle : bool
}.

(** The calls of the upload: the environment, the SDK, the backup file,
    and the log line that reports an error. *)
Inductive Call : Type :=
| Setenv (key value : string)
| LoadDefaultConfig (region accessKeyID secretKey sessionToken : string)
| Open (name : string)
| FileStat (name : string)
| FileClose (name : string)
| PutObject (client : Client) (bucket key body : string) (contentLength : Z)
            (contentType : string)
| Warnf (format : string) (args : list string) (reported : error).

(** What a call returns: the SDK configuration of [LoadDefaultConfig], the
    size of [FileStat], and the error. *)
Record Reply : Type := mkReply {
  loaded : string;
  size : Z;
  failure : option error
}.

Definition Event : Type := (Call * Reply)%type.

(** Runs of the upload, as [M] for the calls above. *)
Definition Run (A : Type) : Type := list Event -> A * list Event.

Definition ret {A} (a : A) : Run A := fun _ => (a, []).

Definition bind {A B} (m : Run A) (k : A -> Run B) : Run B :=
  fun h =>
    let (a, e1) := m h in
    let (b, e2) := k a (h ++ e1)%list in
    (b, (e1 ++ e2)%list).

(** The entries of [envVars] in [configureS3CompatibilityMode], in the
    order of the source. *)
Definition envVars : list (string * string) :=
  [("AWS_S3_DISABLE_CONTENT_MD5_VALIDATION", "true");
   ("AWS_S3_DISABLE_MULTIREGION_ACCESS_POINTS", "true");
   ("AWS_S3_US_EAST_1_REGIONAL_ENDPOINT", "regional");
   ("AWS_S3_USE_ARN_REGION", "true");
   ("AWS_REQUEST_CHECKSUM_CALCULATION", "when_required");
   ("AWS_RESPONSE_CHECKSUM_VALIDATION", "when_required")].

Section Upload.

Variable oracle : list Event -> Call -> Reply.

(** [iops.config]: the field [S3Upload] and the S3 fields. *)
Variable config : Configuration.
Variable s3 : S3Configuration.

(** The order in which the [range] statement of
    [configureS3CompatibilityMode] visits the entries of its map: Go leaves
    it open, the properties take it as any arrangement of [envVars]. *)
Variable visited : list (string * string).

Definition perform (c : Call) : Run Reply :=
  fun h => (oracle h c, [(c, oracle h c)]).

(** The loop of [configureS3CompatibilityMode] over the entries. *)
Fixpoint setenvAll (entries : list (string * string)) : Run unit :=
  match entries with
  | [] => ret tt
  | (key, value) :: rest =>
      bind (perform (Setenv key value)) (fun r =>
      bind (match failure r with
            | Some err =>
                bind (perform (Warnf "Failed to set %s: %v" [key] err))
                     (fun _ => ret tt)
            | None => ret tt
            end) (fun _ =>
      setenvAll rest))
  end.

Definition configureS3CompatibilityMode : Run unit := setenvAll visited.

Definition createS3Client : Run (error + Client) :=
  bind (if negb (String.eqb (S3Endpoint s3) "")
        then configureS3CompatibilityMode else ret tt) (fun _ =>
  bind (perform (LoadDefaultConfig (S3Region s3) (S3AccessKeyID s3)
                                   (S3SecretKey s3) "")) (fun cfg =>
  match failure cfg with
  | Some err => ret (inl err)
  | None =>
      if negb (String.eqb (S3Endpoint s3) "")
      then ret (inr (mkClient (loaded cfg) (Some (S3Endpoint s3)) true))
      else ret (inr (mkClient (loaded cfg) None false))
  end)).

(** [uploadBackupToS3]; the deferred [file.Close()] runs once the file is
    open, whatever follows. *)
Definition uploadBackupToS3 (backupPath : string) : Run (option error) :=
  if negb (S3Upload config) then ret None
  else
    match validateS3Config s3 with
    | Some err => ret (Some err)
    | None =>
        bind createS3Client (fun made =>
        match made with
        | inl err => ret (Some (wrap "failed to create S3 client: %w" err))
        | inr s3Client =>
            bind (perform (Open backupPath)) (fun file =>
            match failure file with
            | Some err => ret (Some (wrap "failed to open backup file: %w" err))
            | None =>
                bind
                  (bind (perform (FileStat backupPath)) (fun stat =>
                   match failure stat with
                   | Some err =>
                       ret (Some (wrap "failed to stat backup file: %w" err))
                   | None =>
                       let filename := filepath_Base backupPath in
                       let key := filename in
                       bind (perform (PutObject s3Client (S3Bucket s3) key
                                        backupPath (size stat)
                                        "application/gzip")) (fun put =>
                       match failure put with
                       | Some err =>
                           ret (Some (wrap "failed to upload to S3: %w" err))
                       | None => ret None
                       end)
                   end))
                  (fun result =>
                   bind (perform (FileClose backupPath))
                        (fun _ => ret result))
            end)
        end)
    end.

End Upload.

End S3.

(* ===================================================================== *)
(** * Example worlds                                                      *)
(* ===================================================================== *)

(** Values for the constants and the helpers that a world supplies, used
    by the examples below. *)
Definition exampleConfig : Configuration :=
  mkConfiguration "/backups" "" "neo4j" "neo4j" "secret" "prefect" "postgres"
                  "pgsecret" false.

Definition exampleMetadata (backupID : string) (includeTaskManager : bool)
    (version edition : string) : BackupMetadata :=
  mkBackupMetadata backupID "2026-01-01T00:00:00Z" "1.0.0" version edition
    (if includeTaskManager then ["task-manager-db"] else []) [].

(** A rendering of the checksums of a metadata record: [path=digest;] for
    each entry. *)
Definition renderChecksums (m : BackupMetadata) : string :=
  String.concat "" (map (fun kv => fst kv ++ "=" ++ snd kv ++ ";") (Checksums m)).

Definition exampleLines (output : string) : list string :=
  filter (fun l => negb (String.eqb l "")) (strings.Split output newline).

(** The lower-case mapping of the capitals of the Latin-1 Supplement, of
    Latin Extended-A, of Greek and of Cyrillic, as the table of the Go
    library has them; the other runes are left as they are.  The capital I
    with a dot above, [U+0130], maps to the ASCII letter i. *)
Definition exampleLowerCase (r : N) : N :=
  (if ((192 <=? r) && (r <=? 214)) || ((216 <=? r) && (r <=? 222))
   then r + 32
   else if r =? 304 then 105
   else if r =? 376 then 255
   else if ((256 <=? r) && (r <=? 303)) || ((306 <=? r) && (r <=? 311))
           || ((330 <=? r) && (r <=? 375))
   then (if N.even r then r + 1 else r)
   else if ((313 <=? r) && (r <=? 328)) || ((377 <=? r) && (r <=? 382))
   then (if N.odd r then r + 1 else r)
   else if ((913 <=? r) && (r <=? 929)) || ((931 <=? r) && (r <=? 939))
   then r + 32
   else if (1024 <=? r) && (r <=? 1039) then r + 80
   else if (1040 <=? r) && (r <=? 1071) then r + 32
   else r)%N.

(** The capital I with a dot above, in UTF-8. *)
Definition dottedI : string :=
  String (ascii_of_nat 196) (String (ascii_of_nat 176) EmptyString).

Definition exampleWorld (oracle : list Event -> Call -> Reply)
    (unmarshal : string -> error + BackupMetadata) : World :=
  mkWorld oracle exampleConfig
    "/var/lib/neo4j/run/neo4j.pid"
    "/tmp/infrahubops-work"
    "/tmp/infrahubops-work/watchdog"
    "/tmp/infrahubops-work/watchdog.ready"
    "/tmp/infrahubops-work/watchdog.log"
    "community" "enterprise" "prefect.dump"
    (fun detected detectionErr =>
       mkNeo4jEditionInfo (strings.ToLower exampleLowerCase detected)
                          (strings.EqualFold detected "community"))
    exampleMetadata
    (fun m => inr (renderChecksums m))
    unmarshal
    (fun _ service => ["app=" ++ service])
    exampleLines
    exampleLowerCase.

Definition noMetadata (data : string) : error + BackupMetadata :=
  inl (ErrExternal "unexpected end of JSON input").

(** The first word of the command of an [Exec]. *)
Definition argv0 (c : Call) : string :=
  match c with
  | Exec _ (x :: _) _ => x
  | _ => ""
  end.

(** A database container where every command succeeds, whose PID file holds
    [4242] and a newline. *)
Definition healthyOracle (h : list Event) (c : Call) : Reply :=
  match c with
  | Exec _ _ _ =>
      if String.eqb (argv0 c) "cat" then ok_out ("4242" ++ newline)
      else if String.eqb (argv0 c) "uname" then ok_out ("x86_64" ++ newline)
      else ok
  | writeEmbeddedWatchdog _ => ok_out "/tmp/watchdog-1"
  | detectNeo4jEdition => ok_out "community"
  | _ => ok
  end.

(** The same, but the readiness marker of the watchdog never shows up. *)
Definition watchdogTimeoutOracle (h : list Event) (c : Call) : Reply :=
  match c with
  | waitForRemoteFile _ _ => failed (ErrExternal "timed out waiting for file")
  | _ => healthyOracle h c
  end.

Definition watchdogTimeoutWorld : World :=
  exampleWorld watchdogTimeoutOracle noMetadata.

(** The same as the healthy container, but the PID file holds [12a4]. *)
Definition badPidOracle (h : list Event) (c : Call) : Reply :=
  match c with
  | Exec _ _ _ =>
      if String.eqb (argv0 c) "cat" then ok_out ("12a4" ++ newline)
      else healthyOracle h c
  | _ => healthyOracle h c
  end.

Definition badPidWorld : World := exampleWorld badPidOracle noMetadata.

(** The same as the healthy container, but the dump of the database fails
    and so does the continue signal. *)
Definition failingDumpOracle (h : list Event) (c : Call) : Reply :=
  match c with
  | Exec _ (_ :: arg :: _) _ =>
      if String.eqb (argv0 c) "neo4j-admin"
      then mkReply "disk full" [] [] false []
                   (Some (ErrExternal "exit status 1"))
      else if String.eqb (argv0 c) "kill" && String.eqb arg "-CONT"
      then failed (ErrExternal "no such process")
      else healthyOracle h c
  | _ => healthyOracle h c
  end.

Definition failingDumpWorld : World := exampleWorld failingDumpOracle noMetadata.

(** ** Worlds for CreateBackup *)

Definition backupWorkDir : string := "/tmp/infrahub_backup_1".

(** What the walk over the database directory of the work directory
    visits: the directory and two files. *)
Definition databaseVisits : list WalkEntry :=
  [mkWalkEntry "/tmp/infrahub_backup_1/backup/database" true None;
   mkWalkEntry "/tmp/infrahub_backup_1/backup/database/neo4j.backup" false None;
   mkWalkEntry "/tmp/infrahub_backup_1/backup/database/system.backup" false None].

(** A deployment of the enterprise edition where every step of a backup
    succeeds, but: the digest of the file [unreadable] cannot be computed,
    and [Stat] on the workflow dump of the work directory answers
    [dumpStat]. *)
Definition backupOracle (unreadable : string) (dumpStat : Reply)
    (h : list Event) (c : Call) : Reply :=
  match c with
  | detectNeo4jEdition => ok_out "enterprise"
  | getInfrahubVersion => ok_out "1.5.0"
  | generateBackupFilename => ok_out "infrahub_backup_20260101_000000.tar.gz"
  | MkdirTemp _ _ => ok_out backupWorkDir
  | Walk _ => ok_walk databaseVisits
  | calculateSHA256 p =>
      if String.eqb p unreadable then failed (ErrExternal "permission denied")
      else ok_out ("sha256 of " ++ p)
  | Stat p =>
      if String.eqb p "/tmp/infrahub_backup_1/backup/prefect.dump" then dumpStat
      else ok
  | _ => ok
  end.

(** The digest of [system.backup] cannot be computed. *)
Definition unreadableFileWorld : World :=
  exampleWorld
    (backupOracle "/tmp/infrahub_backup_1/backup/database/system.backup" ok)
    noMetadata.

(** The workflow dump is not there when the checksums are computed. *)
Definition missingDumpWorld : World :=
  exampleWorld (backupOracle "" (failed ErrNotExist)) noMetadata.

(** ** Worlds for RestoreBackup *)

Definition restoreWorkDir : string := "/tmp/infrahub_restore_1".

(** The metadata of an archive with a database dump and a workflow dump. *)
Definition archiveMetadata (edition : string) : BackupMetadata :=
  mkBackupMetadata "infrahub_backup_20260101_000000" "2026-01-01T00:00:00Z"
    "1.0.0" "1.5.0" edition ["database"; "task-manager-db"]
    [("database/neo4j.dump", "abc123"); ("prefect.dump", "def456")].

(** A community deployment where every step of a restore succeeds, the
    digest of a file being [digest] of its path. *)
Definition restoreOracle (digest : string -> string)
    (h : list Event) (c : Call) : Reply :=
  match c with
  | MkdirTemp _ _ => ok_out restoreWorkDir
  | calculateSHA256 p => ok_out (digest p)
  | _ => healthyOracle h c
  end.

(** An archive of the enterprise edition, restored on a community
    deployment. *)
Definition enterpriseArchiveWorld : World :=
  exampleWorld (restoreOracle (fun _ => "abc123"))
               (fun _ => inr (archiveMetadata "Enterprise")).

(** An archive whose metadata spells the enterprise edition in capitals,
    the I with a dot above, restored on a community deployment. *)
Definition dottedArchiveWorld : World :=
  exampleWorld (restoreOracle (fun _ => "abc123"))
               (fun _ => inr (archiveMetadata ("ENTERPR" ++ dottedI ++ "SE"))).

(** An archive whose database dump does not have the recorded digest. *)
Definition tamperedArchiveWorld : World :=
  exampleWorld (restoreOracle (fun _ => "000000"))
               (fun _ => inr (archiveMetadata "community")).

(** An archive whose database dump has the recorded digest, and whose
    workflow dump does not. *)
Definition tamperedDumpWorld : World :=
  exampleWorld
    (restoreOracle (fun p =>
       if String.eqb p "/tmp/infrahub_restore_1/backup/prefect.dump"
       then "000000" else "abc123"))
    (fun _ => inr (archiveMetadata "community")).

(** The archive whose workflow dump does not have the recorded digest, the
    metadata holding that digest under the key [./prefect.dump]. *)
Definition aliasedDumpWorld : World :=
  exampleWorld
    (restoreOracle (fun p =>
       if String.eqb p "/tmp/infrahub_restore_1/backup/prefect.dump"
       then "000000" else "abc123"))
    (fun _ =>
       inr (mkBackupMetadata "infrahub_backup_20260101_000000"
              "2026-01-01T00:00:00Z" "1.0.0" "1.5.0" "community"
              ["database"; "task-manager-db"]
              [("database/neo4j.dump", "abc123"); ("./prefect.dump", "def456")])).

(** The same archive, for [backup.go]: [validateBackupChecksums] reports
    the database dump. *)
Definition rejectedArchiveWorld : World :=
  exampleWorld
    (fun h c =>
       match c with
       | validateBackupChecksums _ _ _ =>
           failed (ErrExternal "checksum mismatch for database/neo4j.dump")
       | ResolveRestoreEdition _ _ => ok_out "community"
       | _ => restoreOracle (fun _ => "000000") h c
       end)
    (fun _ => inr (archiveMetadata "community")).

(** ** Worlds for the Kubernetes backend *)

(** A cluster whose candidate namespaces are [namespaces], and where the
    pods of every service are in the phases [phases]. *)
Definition clusterOracle (namespaces phases : list string)
    (h : list Event) (c : Call) : Reply :=
  match c with
  | ListKubernetesNamespaces => ok_list namespaces
  | runCommand _ _ => ok_out (String.concat newline phases ++ newline)
  | _ => ok
  end.

Definition clusterWorld (namespaces phases : list string) : World :=
  exampleWorld (clusterOracle namespaces phases) noMetadata.

Definition exampleBackend : KubernetesBackend :=
  mkKubernetesBackend exampleConfig "" [].

(** ** Worlds for the pods of a cluster *)

(** A cluster where no pod carries the labels of the selectors, and where
    the pods of the namespace are [pods]. *)
Definition podsOracle (pods : list string) (h : list Event) (c : Call)
  : Reply :=
  match c with
  | runCommand _ args =>
      if existsb (String.eqb "-l") args then ok_out ""
      else ok_out (String.concat newline pods ++ newline)
  | _ => ok
  end.

Definition podsWorld (pods : list string) : World :=
  exampleWorld (podsOracle pods) noMetadata.

(** A cluster that cannot be reached: every query of [kubectl] fails. *)
Definition unreachableOracle (h : list Event) (c : Call) : Reply :=
  match c with
  | runCommand _ _ => failed (ErrExternal "connection refused")
  | _ => ok
  end.

Definition unreachableWorld : World :=
  exampleWorld unreachableOracle noMetadata.

(** A backend whose configuration names the namespace. *)
Definition namespacedBackend : KubernetesBackend :=
  mkKubernetesBackend (set_K8sNamespace exampleConfig "infrahub") "" [].

(** A [prepareCommand] that leaves the command as it is. *)
Definition plainCommand (k : KubernetesBackend) (command : list string)
    (opts : option ExecOptions) : list string :=
  command.

(** ** Worlds for the database procedures *)

(** The healthy container, but the database process does not stop in
    time. *)
Definition slowStopOracle (h : list Event) (c : Call) : Reply :=
  match c with
  | waitForProcessStopped _ _ =>
      failed (ErrExternal "timed out waiting for process to stop")
  | _ => healthyOracle h c
  end.

Definition slowStopWorld : World := exampleWorld slowStopOracle noMetadata.

Definition healthyWorld : World := exampleWorld healthyOracle noMetadata.

(** ** Worlds for the upload *)

(** An S3-compatible service at a custom endpoint, where every call
    succeeds and the backup file has 1024 bytes. *)
Definition minioConfiguration : S3.S3Configuration :=
  S3.mkS3Configuration "backups" "https://minio.example.org" "us-east-1"
                       "access" "secret".

Definition minioOracle (h : list S3.Event) (c : S3.Call) : S3.Reply :=
  match c with
  | S3.LoadDefaultConfig region _ _ _ => S3.mkReply region 0 None
  | S3.FileStat _ => S3.mkReply "" 1024 None
  | _ => S3.mkReply "" 0 None
  end.

(* ===================================================================== *)
(** * Vocabulary of the properties                                        *)
(* ===================================================================== *)

(** [wp m h Q]: run after the events [h], [m] returns a result and makes
    events that satisfy [Q]. *)
Definition wp {A} (m : M A) (h : list Event) (Q : A -> list Event -> Prop)
  : Prop :=
  Q (fst (m h)) (snd (m h)).

(** [answers w h c r]: after the events [h], the call [c] returns [r]. *)
Definition answers (w : World) (h : list Event) (c : Call) (r : Reply) : Prop :=
  r = oracle w h c.

(** No call of the events [t] satisfies [P]. *)
Definition avoids (P : Call -> bool) (t : list Event) : Prop :=
  Forall (fun c => P c = false) (calls t).

(** The stop signal and the continue signal for a PID. *)
Definition stop_signal (pid : string) : Call :=
  Exec "database" ["kill"; pid] None.
Definition cont_signal (pid : string) : Call :=
  Exec "database" ["kill"; "-CONT"; pid] None.

(** A call that runs [kill] in a service, whatever its operands. *)
Definition is_kill (c : Call) : bool :=
  match c with
  | Exec _ (x :: _) _ => String.eqb x "kill"
  | _ => false
  end.

Definition no_kill (t : list Event) : Prop := avoids is_kill t.

Definition pid_file_reply (w : World) (h : list Event) : Reply :=
  oracle w h (Exec "database" ["cat"; neo4jPIDFile w] None).

(** Every [kill] of a run satisfies [P]. *)
Definition kills_only (P : Call -> Prop) (t : list Event) : Prop :=
  forall c, In c (calls t) -> is_kill c = true -> P c.

(** [resumed pid bodyErr tail res]: the events [tail] send the continue
    signal to [pid]; no other signal is sent; the result [res] is the error
    of the body when there is one (first error wins), else the failure of
    the continue signal, wrapped, when it failed, else [nil]; and a failure
    of the continue signal is logged at error level. *)
Definition resumed (pid : string) (bodyErr : option error)
    (tail : list Event) (res : option error) : Prop :=
  exists mid rc post,
    tail = (mid ++ (cont_signal pid, rc) :: post)%list
    /\ no_kill mid
    /\ res = match bodyErr with
             | Some e => Some e
             | None => option_map (wrap "failed to resume neo4j process: %w")
                                  (r_err rc)
             end
    /\ calls post =
         match r_err rc with
         | Some e => [Log LError "Failed to send SIGCONT to neo4j (pid %s): %v"
                          [pid] (Some e)]
         | None => []
         end.

(** The calls that act on the deployment: wiping the transient data,
    stopping or starting containers and services, and every command or copy
    that goes through the backend. *)
Definition destructive (c : Call) : bool :=
  match c with
  | wipeTransientData | stopAppContainers | startAppContainers _
  | restartDependencies | StartServices _
  | Exec _ _ _ | CopyTo _ _ _ | CopyFrom _ _ _ => true
  | _ => false
  end.

(** A call that computes the digest of a file. *)
Definition is_digest (c : Call) : bool :=
  match c with
  | calculateSHA256 _ => true
  | _ => false
  end.

(** The calls that the procedures on the database and on the task manager
    make: commands and copies through the backend, the helpers of the
    watchdog, local directories and log lines. *)
Definition procedure_call (c : Call) : bool :=
  match c with
  | Exec _ _ _ | CopyTo _ _ _ | CopyFrom _ _ _ | StartServices _
  | getWritableTempDir _ | waitForRemoteFile _ _ | waitForProcessStopped _ _
  | selectWatchdogBinary _ | writeEmbeddedWatchdog _ | cleanup _
  | MkdirAll _ _ | Log _ _ _ _ => true
  | _ => false
  end.

(** The call of [backup.go] that computes the checksums of a backup. *)
Definition is_sums (c : Call) : bool :=
  match c with
  | calculateBackupChecksums _ _ => true
  | _ => false
  end.

(** The calls that write the metadata file, make the archive and upload
    it. *)
Definition archives (c : Call) : bool :=
  match c with
  | WriteFile _ _ _ | createTarball _ _ _ | uploadBackupToS3 _ => true
  | _ => false
  end.

(** The file at [path] is missing, whenever it is looked for. *)
Definition file_missing (w : World) (path : string) : Prop :=
  forall h, r_err (oracle w h (Stat path)) <> None.

(** The digest of the file at [path], whenever it can be computed, is not
    [expected]. *)
Definition digest_differs (w : World) (path expected : string) : Prop :=
  forall h,
    r_err (oracle w h (calculateSHA256 path)) = None ->
    r_out (oracle w h (calculateSHA256 path)) <> expected.

(** The events [t] hold the two checks of a checksum entry, both passed:
    the file is there and its digest is the recorded one. *)
Definition verified (t : list Event) (filePath expectedSum : string) : Prop :=
  exists st s,
    In (Stat filePath, st) t /\ r_err st = None
    /\ In (calculateSHA256 filePath, s) t /\ r_err s = None
    /\ r_out s = expectedSum.

(** [quiet P m]: whatever the events before it, the run [m] makes no call
    that satisfies [P]. *)
Definition quiet {A} (P : Call -> bool) (m : M A) : Prop :=
  forall h, avoids P (snd (m h)).
(* ===================================================================== *)
(** * Vocabulary of the properties of the backends                        *)
(* ===================================================================== *)

(** The query of [getPodForService] for the names of all the pods of the
    namespace, and the query of [getPodStatuses] for their names and
    phases. *)
Definition all_pod_names (k : KubernetesBackend) : Call :=
  runCommand "kubectl"
    ["get"; "pods"; "-n"; namespace k; "-o";
     "jsonpath={range .items[*]}{.metadata.name}{" ++ dquote ++ "\n"
       ++ dquote ++ "}{end}"].

Definition all_pod_phases (k : KubernetesBackend) : Call :=
  runCommand "kubectl"
    ["get"; "pods"; "-n"; namespace k; "-o";
     "jsonpath={range .items[*]}{.metadata.name}{" ++ dquote ++ ";"
       ++ dquote ++ "}{.status.phase}{" ++ dquote ++ "\n" ++ dquote
       ++ "}{end}"].

(** A [kubectl] query with a label selector. *)
Definition selector_query (c : Call) : bool :=
  match c with
  | runCommand _ (_ :: _ :: _ :: _ :: flag :: _) => String.eqb flag "-l"
  | _ => false
  end.

(** The calls of the upload on the backup file and on the bucket. *)
Definition file_call (c : S3.Call) : bool :=
  match c with
  | S3.Open _ | S3.FileStat _ | S3.FileClose _
  | S3.PutObject _ _ _ _ _ _ => true
  | _ => false
  end.

(** The calls that [configureS3CompatibilityMode] may make, for the
    entries [entries]. *)
Definition compatibility_call (entries : list (string * string))
    (c : S3.Call) : Prop :=
  match c with
  | S3.Setenv key value => In (key, value) entries
  | S3.Warnf _ _ _ => True
  | _ => False
  end.

(** The client that [createS3Client] makes from an SDK configuration. *)
Definition clientFor (s3 : S3.S3Configuration) (sdk : string) : S3.Client :=
  if String.eqb (S3.S3Endpoint s3) ""
  then S3.mkClient sdk None false
  else S3.mkClient sdk (Some (S3.S3Endpoint s3)) true.

(** A log line. *)
Definition is_log (c : Call) : bool :=
  match c with
  | Log _ _ _ _ => true
  | _ => false
  end.

(** The events [t] end with the call [c]: after it come only calls of
    the kind [ok]. *)
Definition ends_with (ok : Call -> bool) (c : Call) (t : list Event) : Prop :=
  exists body r post,
    t = (body ++ (c, r) :: post)%list
    /\ Forall (fun c' => ok c' = true) (calls post).

(** A call that addresses the service [service]: a command in it, a copy
    to or from it, the search of a temporary directory in it, or its
    start. *)
Definition on_service (service : string) (c : Call) : bool :=
  match c with
  | Exec s _ _ | CopyTo s _ _ | CopyFrom s _ _ | getWritableTempDir s =>
      String.eqb s service
  | StartServices services => existsb (String.eqb service) services
  | _ => false
  end.

(** The stop and the start of the application containers. *)
Definition lifecycle (c : Call) : bool :=
  match c with
  | stopAppContainers | startAppContainers _ => true
  | _ => false
  end.

(** A command of [neo4j-admin] that migrates the store format. *)
Definition is_migrate (c : Call) : bool :=
  match c with
  | Exec _ (tool :: _ :: verb :: _) _ =>
      String.eqb tool "neo4j-admin" && String.eqb verb "migrate"
  | _ => false
  end.

(** The commands of the enterprise restore that stop and start the
    database. *)
Definition stop_database (w : World) : Call :=
  Exec "database"
    ["cypher-shell"; "-u"; Neo4jUsername (config w);
     "-p" ++ Neo4jPassword (config w); "-d"; "system";
     "stop database " ++ Neo4jDatabase (config w)] None.

Definition start_database (w : World) : Call :=
  Exec "database"
    ["cypher-shell"; "-u"; Neo4jUsername (config w);
     "-p" ++ Neo4jPassword (config w); "-d"; "system";
     "start database " ++ Neo4jDatabase (config w)] None.

(** The removal of the temporary directory of the database container. *)
Definition remove_temp_dir : Call :=
  Exec "database" ["rm"; "-rf"; neo4jTempBackupDir] None.

(** The events [t] restart what they stop.  The application containers
    are stopped at most once; when the stop names services, those services
    are started again later, once, and after the start come log lines
    only; when it names none, nothing is started. *)
Definition restarted (t : list Event) : Prop :=
  avoids lifecycle t
  \/ exists pre st post,
       t = (pre ++ (stopAppContainers, st) :: post)%list
       /\ avoids lifecycle pre
       /\ match r_list st with
          | [] => avoids lifecycle post
          | _ :: _ =>
              exists mid r tail,
                post = (mid ++ (startAppContainers (r_list st), r) :: tail)%list
                /\ avoids lifecycle mid
                /\ Forall (fun c => is_log c = true) (calls tail)
          end.

(** The wait for the running tasks, the creation of a work directory, the
    upload, and the start of the Infrahub services that ends a restore. *)
Definition is_wait (c : Call) : bool :=
  match c with
  | waitForRunningTasks => true
  | _ => false
  end.

Definition makes_temp (c : Call) : bool :=
  match c with
  | MkdirTemp _ _ => true
  | _ => false
  end.

Definition is_upload (c : Call) : bool :=
  match c with
  | uploadBackupToS3 _ => true
  | _ => false
  end.

Definition start_infrahub : Call :=
  StartServices ["infrahub-server"; "task-worker"].

Definition is_start_infrahub (c : Call) : bool :=
  match c with
  | StartServices [a; b] =>
      String.eqb a "infrahub-server" && String.eqb b "task-worker"
  | _ => false
  end.

(** A call that brings back what a restore stopped: the start of the
    application containers, or the start of the Infrahub services. *)
Definition resumes_services (c : Call) : bool :=
  match c with
  | startAppContainers _ => true
  | _ => is_start_infrahub c
  end.

(** In the events [t], the event [a] comes before the event [b]. *)
Definition precedes (a b : Event) (t : list Event) : Prop :=
  exists t1 t2 t3, t = (t1 ++ a :: t2 ++ b :: t3)%list.

(* ===================================================================== *)
(** * Reasoning about runs                                                *)
(* ===================================================================== *)

Local Open Scope list_scope.

Lemma wp_ret {A} (a : A) h Q : Q a [] -> wp (ret a) h Q.
Proof. exact (fun H => H). Qed.

Lemma wp_bind {A B} (m : M A) (k : A -> M B) h Q :
  wp m h (fun a e1 => wp (k a) (h ++ e1)%list (fun b e2 => Q b (e1 ++ e2)%list)) ->
  wp (bind m k) h Q.
Proof.
  unfold wp, bind. destruct (m h) as [a e1]. simpl.
  destruct (k a (h ++ e1)%list) as [b e2]. exact (fun H => H).
Qed.

(** The reply of a call is named, so that the terms of a proof do not
    repeat the history inside every later reply. *)
Lemma wp_perform w c h Q :
  (forall r, answers w h c r -> Q r [(c, r)]) -> wp (perform w c) h Q.
Proof. intros H. apply (H _ eq_refl). Qed.

Lemma wp_weaken {A} (m : M A) h (Q Q' : A -> list Event -> Prop) :
  wp m h Q -> (forall a e, Q a e -> Q' a e) -> wp m h Q'.
Proof. unfold wp. auto. Qed.

Lemma wp_run {A} (m : M A) h Q : wp m h Q -> Q (fst (m h)) (snd (m h)).
Proof. exact (fun H => H). Qed.

Lemma wp_of_run {A} (m : M A) h a e (Q : A -> list Event -> Prop) :
  m h = (a, e) -> Q a e -> wp m h Q.
Proof. unfold wp. intros ->. exact (fun H => H). Qed.

(** A run that is not stepped into: its result and its events are named. *)
Lemma wp_sub {A} (m : M A) h (Q : A -> list Event -> Prop) :
  (forall a e, m h = (a, e) -> Q a e) -> wp m h Q.
Proof. unfold wp. intros H. apply H. destruct (m h); reflexivity. Qed.

(** One step of symbolic execution of a run. *)
Ltac wp_step :=
  lazymatch goal with
  | |- wp (ret _) _ _ => apply wp_ret
  | |- wp (bind _ _) _ _ => apply wp_bind
  | |- wp (perform _ _) _ _ =>
      let r := fresh "r" in
      let Hr := fresh "Hr" in
      apply wp_perform; intros r Hr
  | |- wp (orReturn _ _ _) _ _ => unfold orReturn at 1
  | |- wp (orReturn2 _ _ _) _ _ => unfold orReturn2 at 1
  | |- wp (orReturnS _ _ _) _ _ => unfold orReturnS at 1
  | |- wp (defer _ _) _ _ => unfold defer at 1
  | |- wp (after _ _) _ _ => unfold after at 1
  | |- wp (log _ _ _ _ _) _ _ => unfold log at 1
  | |- wp (logIfErr _ _ _ _ _) _ _ => unfold logIfErr at 1
  | |- wp (match ?x with Some _ => _ | None => _ end) _ _ =>
      let E := fresh "E" in destruct x eqn:E
  | |- wp (if ?b then _ else _) _ _ =>
      let E := fresh "E" in destruct b eqn:E
  | |- wp (match ?x with inl _ => _ | inr _ => _ end) _ _ =>
      let E := fresh "E" in destruct x eqn:E
  end; cbv beta iota delta [fst snd].

(** Turn a goal about [fst (m h)] and [snd (m h)] into a [wp] goal. *)
Ltac wp_start m h :=
  pattern (fst (m h)), (snd (m h));
  lazymatch goal with
  | |- ?Q (fst (m h)) (snd (m h)) => change (wp m h Q)
  end.

(** ** Runs that avoid a kind of call *)

Lemma avoids_nil P : avoids P [].
Proof. constructor. Qed.

Lemma avoids_app P t1 t2 : avoids P t1 -> avoids P t2 -> avoids P (t1 ++ t2).
Proof.
  unfold avoids, calls. rewrite map_app. intros. apply Forall_app. auto.
Qed.

Lemma avoids_app_inv P t1 t2 : avoids P (t1 ++ t2) -> avoids P t1 /\ avoids P t2.
Proof.
  unfold avoids, calls. rewrite map_app. apply Forall_app.
Qed.

Lemma avoids_not_In P t c : avoids P t -> P c = true -> ~ In c (calls t).
Proof.
  unfold avoids. rewrite Forall_forall. intros H Hc Hin.
  apply H in Hin. congruence.
Qed.

Lemma avoids_In P t c r : avoids P t -> In (c, r) t -> P c = false.
Proof.
  unfold avoids. rewrite Forall_forall. intros H Hin. apply H.
  unfold calls. change c with (fst (c, r)). apply in_map. exact Hin.
Qed.

(** [avoids] for a run whose calls are known. *)
Ltac avoids_tac :=
  unfold avoids, calls; cbn [app map fst]; repeat constructor.

(** Membership of an event in a run whose calls are known: the equations
    between different calls are refuted. *)
Ltac in_events H :=
  cbn [In] in H; decompose [or] H; clear H; try contradiction;
  try discriminate.

(** ** Quiet runs, by the structure of the run *)

Lemma quiet_ret {A} P (a : A) : quiet P (ret a).
Proof. intros h. constructor. Qed.

Lemma quiet_bind {A B} P (m : M A) (k : A -> M B) :
  quiet P m -> (forall a, quiet P (k a)) -> quiet P (bind m k).
Proof.
  intros Hm Hk h. unfold bind. specialize (Hm h).
  destruct (m h) as [a e1]. specialize (Hk a (h ++ e1)).
  destruct (k a (h ++ e1)) as [b e2]. apply avoids_app; assumption.
Qed.

Lemma quiet_perform P w c : P c = false -> quiet P (perform w c).
Proof. intros H h. repeat constructor. exact H. Qed.

Create HintDb quiet.

(** [quiet] for a run written with the combinators; the lemmas of the
    database [quiet] close the runs of the functions it calls. *)
Ltac quiet_step :=
  lazymatch goal with
  | |- quiet _ (ret _) => apply quiet_ret
  | |- quiet _ (bind _ _) => apply quiet_bind; [|intro]
  | |- quiet _ (perform _ _) =>
      first [apply quiet_perform; reflexivity | solve [auto with quiet]]
  | |- quiet _ (orReturn _ _ _) => unfold orReturn
  | |- quiet _ (orReturn2 _ _ _) => unfold orReturn2
  | |- quiet _ (orReturnS _ _ _) => unfold orReturnS
  | |- quiet _ (defer _ _) => unfold defer
  | |- quiet _ (after _ _) => unfold after
  | |- quiet _ (log _ _ _ _ _) => unfold log
  | |- quiet _ (logIfErr _ _ _ _ _) => unfold logIfErr
  | |- quiet _ (match ?x with _ => _ end) => destruct x
  | |- quiet _ (let _ := _ in _) => cbv zeta
  | |- quiet _ _ => solve [auto with quiet]
  end.

Ltac quiet_tac := repeat quiet_step.

(* ===================================================================== *)
(** * Properties of the pause sequence                                    *)
(* ===================================================================== *)


Lemma no_kill_not_In t c : no_kill t -> is_kill c = true -> ~ In c (calls t).
Proof. apply avoids_not_In. Qed.

Lemma no_kill_app t1 t2 : no_kill t1 -> no_kill t2 -> no_kill (t1 ++ t2).
Proof. apply avoids_app. Qed.

Ltac no_kill_tac := unfold no_kill; avoids_tac.

(** ** The watchdog gate of [stopNeo4jCommunity] *)

(** C4.  When [stopNeo4jCommunity] waits for the readiness marker of the
    watchdog, with the timeout of five seconds, and the wait fails, the
    function returns the error "watchdog failed to initialize" and its run
    contains no [kill] at all: the stop signal is not sent to the PID. *)
Theorem stopNeo4jCommunity_watchdog_timeout w pidStr h r :
  In (waitForRemoteFile (neo4jRemoteWatchdogReady w) 5000000000, r)
     (snd (stopNeo4jCommunity w pidStr h)) ->
  r_err r <> None ->
  fst (stopNeo4jCommunity w pidStr h)
    = option_map (wrap "watchdog failed to initialize: %w") (r_err r)
  /\ no_kill (snd (stopNeo4jCommunity w pidStr h))
  /\ ~ In (stop_signal pidStr) (calls (snd (stopNeo4jCommunity w pidStr h))).
Proof.
  intros Hin Hr.
  enough (fst (stopNeo4jCommunity w pidStr h)
            = option_map (wrap "watchdog failed to initialize: %w") (r_err r)
          /\ no_kill (snd (stopNeo4jCommunity w pidStr h))) as [H1 H2].
  { repeat split; trivial. apply no_kill_not_In; trivial. }
  revert Hin. wp_start (stopNeo4jCommunity w pidStr) h.
  unfold stopNeo4jCommunity, detectNeo4jArchitecture.
  repeat wp_step.
  all: cbn [app]; intros Hin.
  all: in_events Hin.
  all: match goal with
       | H : (_, _) = (_, _) |- _ =>
           apply (f_equal snd) in H; cbn [snd] in H; subst
       end.
  all: try congruence.
  all: split; [ | no_kill_tac].
  all: match goal with E : r_err _ = Some _ |- _ => rewrite E end; reflexivity.
Qed.

(** The stop signal is sent only after the wait for the marker returned
    without error. *)
Lemma stop_signal_after_ready w pidStr h :
  In (stop_signal pidStr) (calls (snd (stopNeo4jCommunity w pidStr h))) ->
  exists r,
    In (waitForRemoteFile (neo4jRemoteWatchdogReady w) neo4jWatchdogInitTimeout, r)
       (snd (stopNeo4jCommunity w pidStr h))
    /\ r_err r = None.
Proof.
  wp_start (stopNeo4jCommunity w pidStr) h.
  unfold stopNeo4jCommunity, detectNeo4jArchitecture.
  repeat wp_step.
  all: cbn [app calls map fst]; intros Hin.
  all: in_events Hin.
  all: match goal with
       | E : r_err ?x = None |- context [(waitForRemoteFile _ _, ?x)] =>
           exists x; split; [cbn [In]; tauto | exact E]
       end.
Qed.

(** ** The PID read from the PID file *)

(** What [readNeo4jPID] returns, by cases on the reply of [cat]. *)
Lemma readNeo4jPID_run w h :
  let r := pid_file_reply w h in
  let pid := strings.TrimSpace (r_out r) in
  snd (readNeo4jPID w h) = [(Exec "database" ["cat"; neo4jPIDFile w] None, r)]
  /\ fst (readNeo4jPID w h) =
       match r_err r with
       | Some e => ("", Some (wrap "failed to read neo4j pid file: %w" e))
       | None =>
           if String.eqb pid "" then ("", Some (Errorf "neo4j pid file is empty" []))
           else match strconv.Atoi pid with
                | inl ne => ("", Some (Wrapf "invalid pid %q: %w" [pid]
                                          (NumError "Atoi" pid ne)))
                | inr _ => (pid, None)
                end
       end.
Proof.
  unfold pid_file_reply, readNeo4jPID, bind, perform, ret. cbn [fst snd].
  destruct (r_err _); [split; reflexivity|].
  destruct (String.eqb _ ""); [split; reflexivity|].
  destruct (strconv.Atoi _); split; reflexivity.
Qed.

(** A PID that [readNeo4jPID] returns is not empty and parses. *)
Lemma readNeo4jPID_valid w h pid :
  fst (readNeo4jPID w h) = (pid, None) ->
  r_err (pid_file_reply w h) = None
  /\ pid = strings.TrimSpace (r_out (pid_file_reply w h))
  /\ pid <> ""
  /\ exists n, strconv.Atoi pid = inr n.
Proof.
  destruct (readNeo4jPID_run w h) as [_ ->]. cbv zeta.
  destruct (r_err _); [discriminate|].
  destruct (String.eqb _ "") eqn:E; [discriminate|].
  destruct (strconv.Atoi _) eqn:A; [discriminate|].
  intros H. injection H as <-. repeat split; eauto.
  apply String.eqb_neq. exact E.
Qed.

(** ** Which signals the steps of the pause send *)

Lemma kills_only_app P t1 t2 :
  kills_only P t1 -> kills_only P t2 -> kills_only P (t1 ++ t2).
Proof.
  unfold kills_only, calls. intros H1 H2 c. rewrite map_app, in_app_iff.
  intros [H | H]; auto.
Qed.

Lemma no_kill_kills_only P t : no_kill t -> kills_only P t.
Proof.
  intros H c Hin Hk. exfalso. revert Hin. apply no_kill_not_In; assumption.
Qed.

Lemma kills_only_weaken (P Q : Call -> Prop) t :
  (forall c, P c -> Q c) -> kills_only P t -> kills_only Q t.
Proof. unfold kills_only. auto. Qed.

Ltac kills_only_tac :=
  let c := fresh "c" in
  let Hin := fresh "Hin" in
  let Hk := fresh "Hk" in
  intros c Hin Hk; cbn [app calls map fst In] in Hin;
  decompose [or] Hin; clear Hin; try contradiction; subst c;
  first [ discriminate Hk | reflexivity ].

Lemma stopNeo4jCommunity_kills w pidStr h :
  kills_only (fun c => c = stop_signal pidStr)
             (snd (stopNeo4jCommunity w pidStr h)).
Proof.
  wp_start (stopNeo4jCommunity w pidStr) h.
  unfold stopNeo4jCommunity, detectNeo4jArchitecture.
  repeat wp_step.
  all: kills_only_tac.
Qed.

Lemma dumpNeo4jCommunity_no_kill w backupDir h :
  no_kill (snd (dumpNeo4jCommunity w backupDir h)).
Proof.
  wp_start (dumpNeo4jCommunity w backupDir) h.
  unfold dumpNeo4jCommunity. repeat wp_step.
  all: cbn [app]; no_kill_tac.
Qed.

Lemma loadNeo4jCommunity_no_kill w mig h :
  no_kill (snd (loadNeo4jCommunity w mig h)).
Proof.
  wp_start (loadNeo4jCommunity w mig) h.
  unfold loadNeo4jCommunity. repeat wp_step.
  all: cbn [app]; no_kill_tac.
Qed.

(** ** The deferred resume *)

Ltac resumed_split :=
  unfold resumed, cont_signal;
  lazymatch goal with
  | |- exists mid rc post,
        ?a :: (Exec _ ("kill" :: "-CONT" :: _) _, ?r) :: ?p = _ /\ _ =>
      exists [a], r, p
  | |- exists mid rc post,
        ?a :: ?b :: (Exec _ ("kill" :: "-CONT" :: _) _, ?r) :: ?p = _ /\ _ =>
      exists [a; b], r, p
  | |- exists mid rc post,
        ?a :: ?b :: ?c :: (Exec _ ("kill" :: "-CONT" :: _) _, ?r) :: ?p = _ /\ _ =>
      exists [a; b; c], r, p
  | |- exists mid rc post,
        ?a :: ?b :: ?c :: ?d :: (Exec _ ("kill" :: "-CONT" :: _) _, ?r) :: ?p = _ /\ _ =>
      exists [a; b; c; d], r, p
  end.

Ltac resumed_tac :=
  cbn [app]; resumed_split;
  repeat match goal with E : r_err _ = _ |- _ => rewrite E end;
  split; [reflexivity | split; [no_kill_tac | split; [ | reflexivity]]];
  first [ reflexivity
        | match goal with
          | |- ?x = match ?x with _ => _ end => destruct x; reflexivity
          end ].

Lemma resumeNeo4j_resumed w pidStr retErr h :
  resumed pidStr retErr (snd (resumeNeo4j w pidStr retErr h))
          (fst (resumeNeo4j w pidStr retErr h)).
Proof.
  wp_start (resumeNeo4j w pidStr retErr) h.
  unfold resumeNeo4j. repeat wp_step.
  all: resumed_tac.
Qed.

Lemma restoreDeferred_resumed w pidStr retErr h :
  resumed pidStr retErr (snd (restoreDeferred w pidStr retErr h))
          (fst (restoreDeferred w pidStr retErr h)).
Proof.
  wp_start (restoreDeferred w pidStr retErr) h.
  unfold restoreDeferred, resumeNeo4j. repeat wp_step.
  all: resumed_tac.
Qed.

(** ** The runs of the two community procedures *)

Lemma backupNeo4jCommunity_run w backupDir h :
  let p := readNeo4jPID w h in
  backupNeo4jCommunity w backupDir h =
    match snd (fst p) with
    | Some e => (Some e, snd p)
    | None =>
        let pid := fst (fst p) in
        let s := stopNeo4jCommunity w pid (h ++ snd p) in
        match fst s with
        | Some e => (Some e, snd p ++ snd s)
        | None =>
            let hb := (h ++ snd p) ++ snd s in
            let b := dumpNeo4jCommunity w backupDir hb in
            let d := resumeNeo4j w pid (fst b) (hb ++ snd b) in
            (fst d, snd p ++ snd s ++ snd b ++ snd d)
        end
    end.
Proof.
  cbv zeta. unfold backupNeo4jCommunity, orReturn2, defer, bind, ret.
  destruct (readNeo4jPID w h) as [[pid e] e1]. cbn [fst snd].
  destruct e as [e|]; [rewrite app_nil_r; reflexivity|].
  destruct (stopNeo4jCommunity w pid (h ++ e1)) as [s e2]. cbn [fst snd].
  destruct s as [e|]; [rewrite app_nil_r; reflexivity|].
  destruct (dumpNeo4jCommunity w backupDir ((h ++ e1) ++ e2)) as [b e3].
  cbn [fst snd].
  destruct (resumeNeo4j w pid b (((h ++ e1) ++ e2) ++ e3)) as [d e4].
  reflexivity.
Qed.

Lemma restoreNeo4jCommunity_run w mig h :
  let p := readNeo4jPID w h in
  restoreNeo4jCommunity w mig h =
    match snd (fst p) with
    | Some e => (Some e, snd p)
    | None =>
        let pid := fst (fst p) in
        let s := stopNeo4jCommunity w pid (h ++ snd p) in
        match fst s with
        | Some e => (Some e, snd p ++ snd s)
        | None =>
            let hb := (h ++ snd p) ++ snd s in
            let b := loadNeo4jCommunity w mig hb in
            let d := restoreDeferred w pid (fst b) (hb ++ snd b) in
            (fst d, snd p ++ snd s ++ snd b ++ snd d)
        end
    end.
Proof.
  cbv zeta. unfold restoreNeo4jCommunity, orReturn2, defer, bind, ret.
  destruct (readNeo4jPID w h) as [[pid e] e1]. cbn [fst snd].
  destruct e as [e|]; [rewrite app_nil_r; reflexivity|].
  destruct (stopNeo4jCommunity w pid (h ++ e1)) as [s e2]. cbn [fst snd].
  destruct s as [e|]; [rewrite app_nil_r; reflexivity|].
  destruct (loadNeo4jCommunity w mig ((h ++ e1) ++ e2)) as [b e3].
  cbn [fst snd].
  destruct (restoreDeferred w pid b (((h ++ e1) ++ e2) ++ e3)) as [d e4].
  reflexivity.
Qed.

Lemma resumed_kills pid bodyErr tail res :
  resumed pid bodyErr tail res ->
  kills_only (fun c => c = cont_signal pid) tail.
Proof.
  intros (mid & rc & post & -> & Hmid & _ & Hpost).
  apply kills_only_app; [apply no_kill_kills_only; exact Hmid|].
  intros c Hin Hk. cbn [calls map fst In] in Hin. destruct Hin as [<- | Hin].
  - reflexivity.
  - exfalso. fold (calls post) in Hin. rewrite Hpost in Hin.
    destruct (r_err rc); cbn [In] in Hin; [|contradiction].
    destruct Hin as [<- | []]. discriminate Hk.
Qed.

Lemma readNeo4jPID_no_kill w h : no_kill (snd (readNeo4jPID w h)).
Proof.
  destruct (readNeo4jPID_run w h) as [-> _]. no_kill_tac.
Qed.

(** The signals of a whole community backup or restore. *)
Lemma community_kills w h :
  let p := readNeo4jPID w h in
  let P := fun c =>
    snd (fst p) = None
    /\ (c = stop_signal (fst (fst p)) \/ c = cont_signal (fst (fst p))) in
  (forall backupDir, kills_only P (snd (backupNeo4jCommunity w backupDir h)))
  /\ (forall mig, kills_only P (snd (restoreNeo4jCommunity w mig h))).
Proof.
  cbv zeta. split; intros x.
  - rewrite backupNeo4jCommunity_run. cbv zeta.
    pose proof (readNeo4jPID_no_kill w h) as Hp.
    destruct (snd (fst (readNeo4jPID w h))) as [e|];
      [apply no_kill_kills_only; exact Hp|].
    set (pid := fst (fst (readNeo4jPID w h))).
    pose proof (stopNeo4jCommunity_kills w pid (h ++ snd (readNeo4jPID w h))) as Hs.
    assert (Hs' : kills_only
              (fun c => None = None (A:=error)
                        /\ (c = stop_signal pid \/ c = cont_signal pid))
              (snd (stopNeo4jCommunity w pid (h ++ snd (readNeo4jPID w h))))).
    { revert Hs. apply kills_only_weaken. auto. }
    destruct (fst (stopNeo4jCommunity w pid (h ++ snd (readNeo4jPID w h)))).
    + cbn [snd]. apply kills_only_app; [apply no_kill_kills_only; exact Hp|exact Hs'].
    + cbn [snd].
      apply kills_only_app; [apply no_kill_kills_only; exact Hp|].
      apply kills_only_app; [exact Hs'|].
      apply kills_only_app;
        [apply no_kill_kills_only; apply dumpNeo4jCommunity_no_kill|].
      eapply kills_only_weaken;
        [|eapply resumed_kills; apply resumeNeo4j_resumed].
      cbv beta. auto.
  - rewrite restoreNeo4jCommunity_run. cbv zeta.
    pose proof (readNeo4jPID_no_kill w h) as Hp.
    destruct (snd (fst (readNeo4jPID w h))) as [e|];
      [apply no_kill_kills_only; exact Hp|].
    set (pid := fst (fst (readNeo4jPID w h))).
    pose proof (stopNeo4jCommunity_kills w pid (h ++ snd (readNeo4jPID w h))) as Hs.
    assert (Hs' : kills_only
              (fun c => None = None (A:=error)
                        /\ (c = stop_signal pid \/ c = cont_signal pid))
              (snd (stopNeo4jCommunity w pid (h ++ snd (readNeo4jPID w h))))).
    { revert Hs. apply kills_only_weaken. auto. }
    destruct (fst (stopNeo4jCommunity w pid (h ++ snd (readNeo4jPID w h)))).
    + cbn [snd]. apply kills_only_app; [apply no_kill_kills_only; exact Hp|exact Hs'].
    + cbn [snd].
      apply kills_only_app; [apply no_kill_kills_only; exact Hp|].
      apply kills_only_app; [exact Hs'|].
      apply kills_only_app;
        [apply no_kill_kills_only; apply loadNeo4jCommunity_no_kill|].
      eapply kills_only_weaken;
        [|eapply resumed_kills; apply restoreDeferred_resumed].
      cbv beta. auto.
Qed.

(** C8.  The PID that the community procedures signal comes from the PID
    file and is checked first.  (1) When the content of the PID file, once
    trimmed, is empty or does not parse as an integer, [readNeo4jPID]
    returns an error.  (2) When [readNeo4jPID] returns an error, the backup
    and the restore return that error after the [cat] alone: no signal is
    sent.  (3) Every [kill] of a backup or restore run is the stop signal or
    the continue signal for the PID that [readNeo4jPID] returned, which is
    the trimmed content of the file, is not empty and parses as an
    integer. *)
Theorem readNeo4jPID_validates_before_signal w h :
  let r := pid_file_reply w h in
  let pid := strings.TrimSpace (r_out r) in
  let cat := (Exec "database" ["cat"; neo4jPIDFile w] None, r) in
  (r_err r = None ->
   pid = "" \/ (exists ne, strconv.Atoi pid = inl ne) ->
   exists e, fst (readNeo4jPID w h) = ("", Some e))
  /\ (forall e, snd (fst (readNeo4jPID w h)) = Some e ->
      forall backupDir mig,
        backupNeo4jCommunity w backupDir h = (Some e, [cat])
        /\ restoreNeo4jCommunity w mig h = (Some e, [cat])
        /\ no_kill [cat])
  /\ (forall backupDir mig c,
        is_kill c = true ->
        In c (calls (snd (backupNeo4jCommunity w backupDir h)))
        \/ In c (calls (snd (restoreNeo4jCommunity w mig h))) ->
        fst (readNeo4jPID w h) = (pid, None)
        /\ r_err r = None
        /\ pid <> ""
        /\ (exists n, strconv.Atoi pid = inr n)
        /\ (c = stop_signal pid \/ c = cont_signal pid)).
Proof.
  cbv zeta. split; [|split].
  - intros Hr Hbad. destruct (readNeo4jPID_run w h) as [_ ->]. cbv zeta.
    rewrite Hr. destruct Hbad as [-> | [ne Hne]].
    + eexists. reflexivity.
    + destruct (String.eqb _ ""); [eexists; reflexivity|].
      rewrite Hne. eexists. reflexivity.
  - intros e He backupDir mig.
    rewrite backupNeo4jCommunity_run, restoreNeo4jCommunity_run. cbv zeta.
    rewrite He. destruct (readNeo4jPID_run w h) as [-> _].
    repeat split. no_kill_tac.
  - intros backupDir mig c Hk Hin.
    destruct (community_kills w h) as [Hb Hr].
    assert (H : snd (fst (readNeo4jPID w h)) = None
                /\ (c = stop_signal (fst (fst (readNeo4jPID w h)))
                    \/ c = cont_signal (fst (fst (readNeo4jPID w h))))).
    { destruct Hin as [Hin | Hin];
        [apply (Hb backupDir c Hin Hk) | apply (Hr mig c Hin Hk)]. }
    destruct H as [Hnone Hc].
    assert (Hfst : fst (readNeo4jPID w h)
                   = (fst (fst (readNeo4jPID w h)), None)).
    { destruct (fst (readNeo4jPID w h)) as [p e]. cbn in *. congruence. }
    destruct (@readNeo4jPID_valid _ _ _ Hfst) as (H1 & H2 & H3 & H4).
    rewrite <- H2. repeat split; assumption.
Qed.

(** The paths on which the continue signal is sent.  Once the PID was read
    and [stopNeo4jCommunity] returned without error, the backup and the
    restore run their body (the dump, the load) and then, whatever the body
    returned, the deferred function, which sends the continue signal to
    that PID.  The result is the error of the body when it has one; else
    the failure of the continue signal when it failed; else [nil].  A
    failure of the continue signal is logged at error level in every
    case. *)
Theorem community_pause_always_resumed w h pid :
  fst (readNeo4jPID w h) = (pid, None) ->
  fst (stopNeo4jCommunity w pid (h ++ snd (readNeo4jPID w h))) = None ->
  let e1 := snd (readNeo4jPID w h) in
  let e2 := snd (stopNeo4jCommunity w pid (h ++ e1)) in
  let hb := (h ++ e1) ++ e2 in
  (forall backupDir,
     let body := dumpNeo4jCommunity w backupDir hb in
     exists tail,
       snd (backupNeo4jCommunity w backupDir h) = e1 ++ e2 ++ snd body ++ tail
       /\ resumed pid (fst body) tail (fst (backupNeo4jCommunity w backupDir h)))
  /\ (forall restoreMigrateFormat,
        let body := loadNeo4jCommunity w restoreMigrateFormat hb in
        exists tail,
          snd (restoreNeo4jCommunity w restoreMigrateFormat h)
            = e1 ++ e2 ++ snd body ++ tail
          /\ resumed pid (fst body) tail
                     (fst (restoreNeo4jCommunity w restoreMigrateFormat h))).
Proof.
  intros Hread Hstop. cbv zeta. split; intros x.
  - rewrite backupNeo4jCommunity_run. cbv zeta. rewrite Hread. cbn [fst snd].
    rewrite Hstop. cbn [fst snd]. eexists. split; [reflexivity|].
    apply resumeNeo4j_resumed.
  - rewrite restoreNeo4jCommunity_run. cbv zeta. rewrite Hread. cbn [fst snd].
    rewrite Hstop. cbn [fst snd]. eexists. split; [reflexivity|].
    apply restoreDeferred_resumed.
Qed.

(** X1.  When [stopNeo4jCommunity] returns an error, the backup and the restore
    return it at once: the deferred function is not registered yet, and no
    continue signal is sent.  This holds on the paths where the stop signal
    was sent as well: an error of [kill] itself, and a wait for the process
    to stop that fails. *)
Lemma community_stop_error_not_resumed w h pid e :
  fst (readNeo4jPID w h) = (pid, None) ->
  let e1 := snd (readNeo4jPID w h) in
  let stop := stopNeo4jCommunity w pid (h ++ e1) in
  fst stop = Some e ->
  forall backupDir restoreMigrateFormat,
    backupNeo4jCommunity w backupDir h = (Some e, e1 ++ snd stop)
    /\ restoreNeo4jCommunity w restoreMigrateFormat h = (Some e, e1 ++ snd stop)
    /\ ~ In (cont_signal pid) (calls (e1 ++ snd stop)).
Proof.
  intros Hp e1 stop Hs backupDir mig.
  rewrite backupNeo4jCommunity_run, restoreNeo4jCommunity_run. cbv zeta.
  rewrite Hp. cbn [fst snd]. fold e1. fold stop. rewrite Hs.
  split; [reflexivity|]. split; [reflexivity|].
  unfold calls. rewrite map_app, in_app_iff. intros [Hin|Hin].
  - revert Hin. apply no_kill_not_In; [|reflexivity].
    apply readNeo4jPID_no_kill.
  - pose proof (@stopNeo4jCommunity_kills w pid (h ++ e1) _ Hin eq_refl) as Hc.
    discriminate Hc.
Qed.

(* ===================================================================== *)
(** * Properties of the Kubernetes backend                                *)
(* ===================================================================== *)

(** ** Substrings *)

Lemma prefix_app p s t :
  String.prefix p s = true -> String.prefix p (s ++ t)%string = true.
Proof.
  revert s. induction p as [|c p IH]; intros s H;
    [destruct (s ++ t)%string; reflexivity|].
  destruct s as [|d s]; [discriminate|]. cbn in *.
  destruct (ascii_dec c d); [auto|discriminate].
Qed.

Lemma prefix_refl p : String.prefix p p = true.
Proof.
  induction p as [|c p IH]; [reflexivity|]. cbn.
  destruct (ascii_dec c c); [exact IH|congruence].
Qed.

Lemma Contains_refl s : strings.Contains s s = true.
Proof.
  destruct s; cbn; [reflexivity|]. 
  destruct (ascii_dec a a); [|congruence]. rewrite prefix_refl. reflexivity.
Qed.

Lemma Contains_cons c s n :
  strings.Contains s n = true -> strings.Contains (String c s) n = true.
Proof.
  intros H. cbn [strings.Contains]. rewrite H. apply orb_true_r.
Qed.

Lemma Contains_app_r s t n :
  strings.Contains t n = true -> strings.Contains (s ++ t)%string n = true.
Proof.
  intros H. induction s as [|c s IH]; [exact H|].
  cbn [append]. apply Contains_cons. exact IH.
Qed.

Lemma Contains_app_l s t n :
  strings.Contains s n = true -> strings.Contains (s ++ t)%string n = true.
Proof.
  induction s as [|c s IH]; intros H.
  - cbn in H. rewrite orb_false_r in H.
    destruct n; [|discriminate]. destruct t; reflexivity.
  - cbn [strings.Contains] in H. apply orb_true_iff in H.
    destruct H as [H | H].
    + change (String c s ++ t)%string with (String c (s ++ t)).
      cbn [strings.Contains].
      change (String c (s ++ t)) with (String c s ++ t)%string.
      rewrite (prefix_app _ _ t H). reflexivity.
    + cbn [append]. apply Contains_cons. auto.
Qed.

Lemma Contains_Join elems sep n :
  In n elems -> strings.Contains (strings.Join elems sep) n = true.
Proof.
  unfold strings.Join. induction elems as [|x l IH]; [contradiction|].
  intros [-> | H].
  - destruct l; cbn [concat]; [apply Contains_refl|].
    apply Contains_app_l, Contains_refl.
  - destruct l as [|y l]; [contradiction|]. cbn [concat].
    apply Contains_app_r, Contains_app_r. apply IH. exact H.
Qed.

(** ** Detect *)

(** C7.  [Detect] with no namespace configured, once [kubectl] answered
    and the candidate namespaces were listed: no candidate gives the error
    [ErrEnvironmentNotFound]; one candidate is accepted, and recorded in the
    backend and in the configuration; more than one gives an error whose
    text contains every candidate. *)
Theorem Detect_without_namespace w k h :
  K8sNamespace (k_config k) = "" ->
  let version := oracle w h (runCommandQuiet "kubectl" ["version"; "--client"]) in
  let listed :=
    oracle w (h ++ [(runCommandQuiet "kubectl" ["version"; "--client"], version)])
           ListKubernetesNamespaces in
  r_err version = None ->
  r_err listed = None ->
  match r_list listed with
  | [] => fst (Detect w k h) = (k, Some ErrEnvironmentNotFound)
  | [n] =>
      exists k',
        fst (Detect w k h) = (k', None)
        /\ namespace k' = n
        /\ K8sNamespace (k_config k') = n
  | namespaces =>
      exists e msg,
        fst (Detect w k h) = (k, Some e)
        /\ ErrorString e = Some msg
        /\ forall n, In n namespaces -> strings.Contains msg n = true
  end.
Proof.
  intros Hns version listed Hv Hl.
  assert (Hrun : fst (Detect w k h) =
            match r_list listed with
            | [] => (k, Some ErrEnvironmentNotFound)
            | [n] => (mkKubernetesBackend (set_K8sNamespace (k_config k) n) n
                        (podCache k), None)
            | _ => (k, Some (Errorf
                      "multiple kubernetes namespaces found: %s (set INFRAHUB_K8S_NAMESPACE)"
                      [strings.Join (r_list listed) ", "]))
            end).
  { unfold Detect, orReturn, bind, perform, ret. cbn [fst snd].
    fold version. rewrite Hv. cbn [fst snd]. fold listed. rewrite Hl.
    rewrite Hns. cbn [String.eqb negb fst snd].
    destruct (r_list listed) as [|n [|n' l]]; reflexivity. }
  rewrite Hrun. clear Hrun.
  destruct (r_list listed) as [|n [|n' l]] eqn:E.
  - reflexivity.
  - eexists. repeat split.
  - eexists. eexists. split; [reflexivity|]. split; [reflexivity|].
    intros x Hx.
    change (fmt.Sprintf
              "multiple kubernetes namespaces found: %s (set INFRAHUB_K8S_NAMESPACE)"
              [strings.Join (n :: n' :: l) ", "])
      with ("multiple kubernetes namespaces found: "
            ++ (strings.Join (n :: n' :: l) ", "
                ++ " (set INFRAHUB_K8S_NAMESPACE)"))%string.
    apply Contains_app_r, Contains_app_l, Contains_Join. exact Hx.
Qed.

(** ** IsRunning *)

Lemma IsRunning_statuses_true statuses :
  IsRunning_statuses statuses = true <->
  exists status, In status statuses /\ strings.EqualFold status "Running" = true.
Proof.
  induction statuses as [|s l IH]; cbn [IsRunning_statuses].
  - split; [discriminate|]. intros (x & [] & _).
  - destruct (strings.EqualFold s "Running") eqn:E.
    + split; [|reflexivity]. intros _. exists s. split; [left; reflexivity|exact E].
    + rewrite IH. split.
      * intros (x & Hin & Hx). exists x. split; [right; exact Hin|exact Hx].
      * intros (x & [<- | Hin] & Hx); [congruence|]. exists x. auto.
Qed.

Lemma IsRunning_run w k service h :
  IsRunning w k service h =
    (match snd (fst (getPodStatuses w k service h)) with
     | Some e => (false, Some e)
     | None => (IsRunning_statuses (fst (fst (getPodStatuses w k service h))), None)
     end,
     snd (getPodStatuses w k service h)).
Proof.
  unfold IsRunning, orReturn2, bind, ret.
  destruct (getPodStatuses w k service h) as [[statuses e] t]. cbn [fst snd].
  destruct e; rewrite app_nil_r; reflexivity.
Qed.

(** C10.  When the query of the pod statuses succeeds, [IsRunning] makes
    no call of its own, returns no error, and returns [true] exactly when
    one of the statuses equals "Running" up to case; with no status at all
    it returns [(false, nil)]. *)
Theorem IsRunning_iff_some_pod_running w k service h statuses :
  fst (getPodStatuses w k service h) = (statuses, None) ->
  exists running,
    IsRunning w k service h
      = ((running, None), snd (getPodStatuses w k service h))
    /\ (running = true <->
        exists status,
          In status statuses /\ strings.EqualFold status "Running" = true)
    /\ (statuses = [] -> running = false).
Proof.
  intros H. exists (IsRunning_statuses statuses).
  rewrite IsRunning_run, H. cbn [fst snd].
  split; [reflexivity|]. split; [apply IsRunning_statuses_true|].
  intros ->. reflexivity.
Qed.

(** An error of the query is the error of [IsRunning]. *)
Lemma IsRunning_query_error w k service h statuses e :
  fst (getPodStatuses w k service h) = (statuses, Some e) ->
  fst (IsRunning w k service h) = (false, Some e).
Proof.
  intros H. rewrite IsRunning_run, H. reflexivity.
Qed.
(* ===================================================================== *)
(** * The calls of the database and task manager procedures              *)
(* ===================================================================== *)

(** A kind of call [P] that none of [procedure_call] is: no procedure on
    the database or on the task manager makes a call of that kind. *)
Section Procedures.

Variable P : Call -> bool.
Hypothesis P_foreign : forall c, procedure_call c = true -> P c = false.

Lemma quiet_procedure_call w c :
  procedure_call c = true -> quiet P (perform w c).
Proof. intros H. apply quiet_perform, P_foreign, H. Qed.

Hint Resolve quiet_procedure_call : quiet.
Hint Extern 1 (procedure_call _ = true) => reflexivity : quiet.

Lemma detectNeo4jArchitecture_quiet w : quiet P (detectNeo4jArchitecture w).
Proof. unfold detectNeo4jArchitecture. quiet_tac. Qed.
Hint Resolve detectNeo4jArchitecture_quiet : quiet.

Lemma readNeo4jPID_quiet w : quiet P (readNeo4jPID w).
Proof. unfold readNeo4jPID. quiet_tac. Qed.
Hint Resolve readNeo4jPID_quiet : quiet.

Lemma stopNeo4jCommunity_quiet w pidStr : quiet P (stopNeo4jCommunity w pidStr).
Proof. unfold stopNeo4jCommunity. quiet_tac. Qed.
Hint Resolve stopNeo4jCommunity_quiet : quiet.

Lemma resumeNeo4j_quiet w pidStr retErr : quiet P (resumeNeo4j w pidStr retErr).
Proof. unfold resumeNeo4j. quiet_tac. Qed.
Hint Resolve resumeNeo4j_quiet : quiet.

Lemma backupDatabase_quiet w backupDir backupMetadata neo4jEdition :
  quiet P (backupDatabase w backupDir backupMetadata neo4jEdition).
Proof.
  unfold backupDatabase, backupNeo4jCommunity, dumpNeo4jCommunity,
    backupNeo4jEnterprise.
  quiet_tac.
Qed.

Lemma backupTaskManagerDB_quiet w backupDir :
  quiet P (backupTaskManagerDB w backupDir).
Proof. unfold backupTaskManagerDB. quiet_tac. Qed.

Lemma restoreNeo4j_quiet w workDir neo4jEdition mig :
  quiet P (restoreNeo4j w workDir neo4jEdition mig).
Proof.
  unfold restoreNeo4j, restoreNeo4jCommunity, restoreDeferred,
    loadNeo4jCommunity, restoreNeo4jEnterprise.
  quiet_tac.
Qed.

Lemma restorePostgreSQL_quiet w workDir : quiet P (restorePostgreSQL w workDir).
Proof. unfold restorePostgreSQL. quiet_tac. Qed.

Hint Resolve backupDatabase_quiet backupTaskManagerDB_quiet : quiet.

Lemma dumpDatabases_quiet w backupDir neo4jMetadata excl edition :
  quiet P (dumpDatabases w backupDir neo4jMetadata excl edition).
Proof. unfold dumpDatabases. quiet_tac. Qed.

End Procedures.

Lemma procedure_not_digest c : procedure_call c = true -> is_digest c = false.
Proof. destruct c; (reflexivity || discriminate). Qed.

Lemma procedure_not_archive c : procedure_call c = true -> archives c = false.
Proof. destruct c; (reflexivity || discriminate). Qed.

(* ===================================================================== *)
(** * Properties of RestoreBackup                                         *)
(* ===================================================================== *)

Import Inlined.

(** ** The statements before the destructive steps *)

Lemma createRestoreWorkDir_quiet P w backupFile h :
  P = destructive \/ P = is_digest ->
  avoids P (snd (createRestoreWorkDir w backupFile h)).
Proof.
  intros [-> | ->];
    (wp_start (createRestoreWorkDir w backupFile) h;
     unfold createRestoreWorkDir; repeat wp_step; avoids_tac).
Qed.

Lemma readBackupMetadata_quiet P w backupFile workDir h :
  P = destructive \/ P = is_digest ->
  avoids P (snd (readBackupMetadata w backupFile workDir h)).
Proof.
  intros [-> | ->];
    (wp_start (readBackupMetadata w backupFile workDir) h;
     unfold readBackupMetadata; repeat wp_step; avoids_tac).
Qed.

Lemma resolveEdition_quiet P w metadata h :
  P = destructive \/ P = is_digest ->
  avoids P (snd (resolveEdition w metadata h)).
Proof.
  intros [-> | ->];
    (wp_start (resolveEdition w metadata) h;
     unfold resolveEdition; repeat wp_step; avoids_tac).
Qed.

Lemma validateChecksums_quiet w workDir checksums h :
  avoids destructive (snd (validateChecksums w workDir checksums h)).
Proof.
  revert h. induction checksums as [|[relPath expectedSum] rest IH]; intros h.
  - constructor.
  - wp_start (validateChecksums w workDir ((relPath, expectedSum) :: rest)) h.
    cbn [validateChecksums]. repeat wp_step.
    all: try (avoids_tac; fail).
    + apply IH.
    + unfold wp. repeat apply avoids_app; try apply IH; avoids_tac.
Qed.

Lemma validatePrefectDump_quiet w workDir metadata excl h :
  avoids destructive (snd (validatePrefectDump w workDir metadata excl h)).
Proof.
  wp_start (validatePrefectDump w workDir metadata excl) h.
  unfold validatePrefectDump. repeat wp_step. all: avoids_tac.
Qed.

Lemma validateRestore_run w workDir metadata excl h :
  let a := resolveEdition w metadata h in
  validateRestore w workDir metadata excl h =
    match fst a with
    | inl e => (inl e, snd a)
    | inr neo4jEdition =>
        let b := validateChecksums w workDir (Checksums metadata) (h ++ snd a) in
        match fst b with
        | Some e => (inl e, snd a ++ snd b)
        | None =>
            let c := validatePrefectDump w workDir metadata excl
                       ((h ++ snd a) ++ snd b) in
            (match fst c with
             | inl e => inl e
             | inr validatePrefect => inr (neo4jEdition, validatePrefect)
             end, snd a ++ snd b ++ snd c)
        end
    end.
Proof.
  cbv zeta. unfold validateRestore, orReturnS, bind, ret.
  destruct (resolveEdition w metadata h) as [[e|ed] t1]; cbn [fst snd];
    [rewrite app_nil_r; reflexivity|].
  destruct (validateChecksums w workDir (Checksums metadata) (h ++ t1))
    as [[e|] t2]; cbn [fst snd]; [rewrite app_nil_r; reflexivity|].
  destruct (validatePrefectDump w workDir metadata excl ((h ++ t1) ++ t2))
    as [[e|vp] t3]; cbn [fst snd]; rewrite app_nil_r; reflexivity.
Qed.

Lemma validateRestore_quiet w workDir metadata excl h :
  avoids destructive (snd (validateRestore w workDir metadata excl h)).
Proof.
  rewrite validateRestore_run. cbv zeta.
  pose proof (resolveEdition_quiet (P:=destructive) w metadata h (or_introl eq_refl)).
  destruct (fst (resolveEdition w metadata h)); [assumption|].
  pose proof (validateChecksums_quiet w workDir (Checksums metadata)
                (h ++ snd (resolveEdition w metadata h))).
  destruct (fst (validateChecksums _ _ _ _)); cbn [snd].
  - apply avoids_app; assumption.
  - repeat apply avoids_app; try assumption. apply validatePrefectDump_quiet.
Qed.

Lemma RestoreBackup_run w backupFile excl mig h :
  let a := createRestoreWorkDir w backupFile h in
  RestoreBackup w backupFile excl mig h =
    match fst a with
    | inl e => (Some e, snd a)
    | inr workDir =>
        let h1 := h ++ snd a in
        let b := readBackupMetadata w backupFile workDir h1 in
        let inner :=
          match fst b with
          | inl e => (Some e, snd b)
          | inr metadata =>
              let v := validateRestore w workDir metadata excl (h1 ++ snd b) in
              match fst v with
              | inl e => (Some e, snd b ++ snd v)
              | inr checked =>
                  let ap := applyRestore w workDir (fst checked) (snd checked) mig
                              ((h1 ++ snd b) ++ snd v) in
                  (fst ap, snd b ++ snd v ++ snd ap)
              end
          end in
        (fst inner,
         snd a ++ snd inner
           ++ [(RemoveAll workDir, oracle w (h1 ++ snd inner) (RemoveAll workDir))])
    end.
Proof.
  cbv zeta. unfold RestoreBackup, orReturnS, defer, after, bind, perform, ret.
  destruct (createRestoreWorkDir w backupFile h) as [[e|workDir] t1];
    cbn [fst snd]; [rewrite app_nil_r; reflexivity|].
  destruct (readBackupMetadata w backupFile workDir (h ++ t1)) as [[e|md] t2];
    cbn [fst snd]; [rewrite !app_nil_r; reflexivity|].
  destruct (validateRestore w workDir md excl ((h ++ t1) ++ t2)) as [[e|chk] t3];
    cbn [fst snd]; [rewrite !app_nil_r; reflexivity|].
  destruct (applyRestore w workDir (fst chk) (snd chk) mig (((h ++ t1) ++ t2) ++ t3))
    as [r t4]; cbn [fst snd]. rewrite !app_nil_r. reflexivity.
Qed.

(** When the validation fails, [RestoreBackup] returns its error and makes
    no destructive call. *)
Lemma RestoreBackup_gate w backupFile excl mig h workDir metadata e :
  fst (createRestoreWorkDir w backupFile h) = inr workDir ->
  fst (readBackupMetadata w backupFile workDir
         (h ++ snd (createRestoreWorkDir w backupFile h))) = inr metadata ->
  fst (validateRestore w workDir metadata excl
         ((h ++ snd (createRestoreWorkDir w backupFile h))
            ++ snd (readBackupMetadata w backupFile workDir
                      (h ++ snd (createRestoreWorkDir w backupFile h))))) = inl e ->
  fst (RestoreBackup w backupFile excl mig h) = Some e
  /\ avoids destructive (snd (RestoreBackup w backupFile excl mig h)).
Proof.
  intros Ha Hb Hv. rewrite RestoreBackup_run. cbv zeta.
  rewrite Ha, Hb, Hv. cbn [fst snd]. split; [reflexivity|].
  repeat apply avoids_app.
  - apply createRestoreWorkDir_quiet. auto.
  - apply readBackupMetadata_quiet. auto.
  - apply validateRestore_quiet.
  - avoids_tac.
Qed.

(** ** The loop over the checksums *)

(** One turn of the loop. *)
Lemma validateChecksums_cons w workDir relPath expectedSum rest h :
  validateChecksums w workDir ((relPath, expectedSum) :: rest) h =
    if String.eqb relPath "prefect.dump" then validateChecksums w workDir rest h
    else
      let filePath := filepath.Join [workDir; "backup"; relPath] in
      let st := oracle w h (Stat filePath) in
      match r_err st with
      | Some _ =>
          (Some (Errorf "missing backup file: %s" [relPath]), [(Stat filePath, st)])
      | None =>
          let h1 := h ++ [(Stat filePath, st)] in
          let s := oracle w h1 (calculateSHA256 filePath) in
          match r_err s with
          | Some e =>
              (Some (Wrapf "failed to calculate checksum for %s: %w" [relPath] e),
               [(Stat filePath, st); (calculateSHA256 filePath, s)])
          | None =>
              if negb (String.eqb (r_out s) expectedSum)
              then (Some (Errorf "checksum mismatch for %s: expected %s, got %s"
                            [relPath; expectedSum; r_out s]),
                    [(Stat filePath, st); (calculateSHA256 filePath, s)])
              else
                let r := validateChecksums w workDir rest
                           (h1 ++ [(calculateSHA256 filePath, s)]) in
                (fst r, (Stat filePath, st) :: (calculateSHA256 filePath, s) :: snd r)
          end
      end.
Proof.
  cbn [validateChecksums]. destruct (String.eqb relPath "prefect.dump");
    [reflexivity|].
  cbv zeta. unfold bind, perform, ret. cbn [fst snd].
  destruct (r_err (oracle w h (Stat _))); [reflexivity|].
  cbn [fst snd].
  destruct (r_err (oracle w _ (calculateSHA256 _))); [reflexivity|].
  destruct (negb _); [reflexivity|].
  destruct (validateChecksums w workDir rest _). reflexivity.
Qed.

(** An entry whose file is missing, or has another digest, stops the loop
    with an error, at that entry or before. *)
Lemma validateChecksums_rejects w workDir checksums h relPath expectedSum :
  In (relPath, expectedSum) checksums ->
  relPath <> "prefect.dump" ->
  file_missing w (filepath.Join [workDir; "backup"; relPath])
  \/ digest_differs w (filepath.Join [workDir; "backup"; relPath]) expectedSum ->
  fst (validateChecksums w workDir checksums h) <> None.
Proof.
  intros Hin Hk Hbad. revert h.
  induction checksums as [|[k v] rest IH]; intros h; [contradiction|].
  rewrite validateChecksums_cons.
  destruct (String.eqb k "prefect.dump") eqn:Ek.
  - apply IH. destruct Hin as [Heq | Hin]; [|exact Hin].
    injection Heq as -> ->. apply String.eqb_eq in Ek. contradiction.
  - cbv zeta.
    destruct (r_err (oracle w h (Stat _))) eqn:Est; [discriminate|].
    destruct (r_err (oracle w _ (calculateSHA256 _))) eqn:Es; [discriminate|].
    destruct (negb _) eqn:Eneq; [discriminate|]. cbn [fst].
    destruct Hin as [Heq | Hin]; [|apply IH; exact Hin].
    injection Heq as -> ->. exfalso. destruct Hbad as [Hm | Hd].
    + apply (Hm h). exact Est.
    + apply negb_false_iff, String.eqb_eq in Eneq.
      apply (Hd _ Es). exact Eneq.
Qed.

(** When the loop ends without error, every entry but the one of the
    workflow dump was checked and passed. *)
Lemma validateChecksums_verified w workDir checksums h :
  fst (validateChecksums w workDir checksums h) = None ->
  forall relPath expectedSum,
    In (relPath, expectedSum) checksums ->
    relPath <> "prefect.dump" ->
    verified (snd (validateChecksums w workDir checksums h))
             (filepath.Join [workDir; "backup"; relPath]) expectedSum.
Proof.
  revert h. induction checksums as [|[k v] rest IH]; intros h Hok relPath
    expectedSum Hin Hk; [contradiction|].
  rewrite validateChecksums_cons in Hok |- *.
  destruct (String.eqb k "prefect.dump") eqn:Ek.
  - apply IH; trivial. destruct Hin as [Heq | Hin]; [|exact Hin].
    injection Heq as -> ->. apply String.eqb_eq in Ek. contradiction.
  - cbv zeta in Hok |- *.
    destruct (r_err (oracle w h (Stat _))) eqn:Est; [discriminate|].
    destruct (r_err (oracle w _ (calculateSHA256 _))) eqn:Es; [discriminate|].
    destruct (negb _) eqn:Eneq; [discriminate|]. cbn [fst snd] in Hok |- *.
    destruct Hin as [Heq | Hin].
    + injection Heq as -> ->.
      apply negb_false_iff, String.eqb_eq in Eneq.
      eexists. eexists. split; [left; reflexivity|]. split; [exact Est|].
      split; [right; left; reflexivity|]. split; [exact Es|exact Eneq].
    + destruct (IH _ Hok _ _ Hin Hk) as (st & s & H1 & H2 & H3 & H4 & H5).
      exists st, s. repeat split; trivial; right; right; assumption.
Qed.

(** The loop computes the digest of the files of its entries only, the
    entry of the workflow dump left out. *)
Lemma validateChecksums_digests w workDir checksums h p :
  In (calculateSHA256 p) (calls (snd (validateChecksums w workDir checksums h))) ->
  exists relPath expectedSum,
    In (relPath, expectedSum) checksums
    /\ relPath <> "prefect.dump"
    /\ p = filepath.Join [workDir; "backup"; relPath].
Proof.
  revert h. induction checksums as [|[k v] rest IH]; intros h Hin;
    [contradiction|].
  rewrite validateChecksums_cons in Hin.
  destruct (String.eqb k "prefect.dump") eqn:Ek.
  - destruct (IH _ Hin) as (k' & v' & H1 & H2 & H3).
    exists k', v'. repeat split; trivial. right. exact H1.
  - apply String.eqb_neq in Ek. cbv zeta in Hin.
    assert (Hhere : exists relPath expectedSum,
               In (relPath, expectedSum) ((k, v) :: rest)
               /\ relPath <> "prefect.dump"
               /\ filepath.Join [workDir; "backup"; k]
                  = filepath.Join [workDir; "backup"; relPath]).
    { exists k, v. repeat split; trivial. left. reflexivity. }
    destruct (r_err (oracle w h (Stat _))).
    { cbn in Hin. destruct Hin as [H | []]. discriminate. }
    destruct (r_err (oracle w _ (calculateSHA256 _))).
    { cbn in Hin. destruct Hin as [H | [H | []]]; [discriminate|].
      injection H as <-. exact Hhere. }
    destruct (negb _).
    { cbn in Hin. destruct Hin as [H | [H | []]]; [discriminate|].
      injection H as <-. exact Hhere. }
    cbn [snd calls map fst In] in Hin.
    destruct Hin as [H | [H | Hin]]; [discriminate| |].
    + injection H as <-. exact Hhere.
    + destruct (IH _ Hin) as (k' & v' & H1 & H2 & H3).
      exists k', v'. repeat split; trivial. right. exact H1.
Qed.

(** ** The digests that a restore computes *)

Lemma restoreNeo4j_no_digest w workDir neo4jEdition mig :
  quiet is_digest (restoreNeo4j w workDir neo4jEdition mig).
Proof. apply restoreNeo4j_quiet, procedure_not_digest. Qed.
#[local] Hint Resolve restoreNeo4j_no_digest : quiet.

Lemma restorePostgreSQL_no_digest w workDir :
  quiet is_digest (restorePostgreSQL w workDir).
Proof. apply restorePostgreSQL_quiet, procedure_not_digest. Qed.
#[local] Hint Resolve restorePostgreSQL_no_digest : quiet.

Lemma applyRestore_no_digest w workDir neo4jEdition validatePrefect mig :
  quiet is_digest (applyRestore w workDir neo4jEdition validatePrefect mig).
Proof. unfold applyRestore. quiet_tac. Qed.

Lemma validatePrefectDump_excluded_no_digest w workDir metadata :
  quiet is_digest (validatePrefectDump w workDir metadata true).
Proof.
  unfold validatePrefectDump. cbn [negb].
  repeat (rewrite ?andb_false_r; cbn [andb]; quiet_step).
Qed.

Lemma avoids_digest_In t p :
  avoids is_digest t -> ~ In (calculateSHA256 p) (calls t).
Proof. intros H. apply (@avoids_not_In _ _ _ H). reflexivity. Qed.

(** With the task manager excluded, the validation computes the digest of
    the files of the checksum entries only, the entry of the workflow dump
    left out. *)
Lemma validateRestore_excluded_digests w workDir metadata h p :
  In (calculateSHA256 p) (calls (snd (validateRestore w workDir metadata true h))) ->
  exists relPath expectedSum,
    In (relPath, expectedSum) (Checksums metadata)
    /\ relPath <> "prefect.dump"
    /\ p = filepath.Join [workDir; "backup"; relPath].
Proof.
  rewrite validateRestore_run. cbv zeta.
  pose proof (resolveEdition_quiet (P:=is_digest) w metadata h (or_intror eq_refl))
    as Ha.
  destruct (fst (resolveEdition w metadata h)).
  { intros Hin. exfalso. revert Hin. apply avoids_digest_In. exact Ha. }
  destruct (fst (validateChecksums _ _ _ _)); cbn [snd];
    unfold calls; rewrite ?map_app, ?in_app_iff; fold calls.
  - intros [Hin | Hin].
    + exfalso. revert Hin. apply avoids_digest_In. exact Ha.
    + eapply validateChecksums_digests. exact Hin.
  - intros [Hin | [Hin | Hin]].
    + exfalso. revert Hin. apply avoids_digest_In. exact Ha.
    + eapply validateChecksums_digests. exact Hin.
    + exfalso. revert Hin. apply avoids_digest_In.
      apply validatePrefectDump_excluded_no_digest.
Qed.

(** ** The claims on RestoreBackup *)

(** C1.  The names of the two editions being different, and once the
    archive is extracted and its metadata parsed: when the metadata records
    the enterprise edition and the detection of the live edition succeeds
    with the community edition, [RestoreBackup] returns the error "cannot
    restore Enterprise backup on Community edition Neo4j" and its run has
    no destructive call. *)
Theorem enterprise_backup_on_community_rejected
    w backupFile excludeTaskManager restoreMigrateFormat h workDir metadata :
  neo4jEditionCommunity w <> neo4jEditionEnterprise w ->
  fst (createRestoreWorkDir w backupFile h) = inr workDir ->
  let h1 := h ++ snd (createRestoreWorkDir w backupFile h) in
  fst (readBackupMetadata w backupFile workDir h1) = inr metadata ->
  let h2 := h1 ++ snd (readBackupMetadata w backupFile workDir h1) in
  let detected := oracle w h2 detectNeo4jEdition in
  strings.ToLower (lowerCase w) (Neo4jEdition metadata)
    = neo4jEditionEnterprise w ->
  r_err detected = None ->
  strings.ToLower (lowerCase w) (r_out detected) = neo4jEditionCommunity w ->
  fst (RestoreBackup w backupFile excludeTaskManager restoreMigrateFormat h)
    = Some (Errorf "cannot restore Enterprise backup on Community edition Neo4j" [])
  /\ avoids destructive
       (snd (RestoreBackup w backupFile excludeTaskManager restoreMigrateFormat h)).
Proof.
  intros Hne Ha h1 Hb h2 detected Hm Hd Hc.
  apply RestoreBackup_gate with (workDir := workDir) (metadata := metadata);
    trivial.
  fold h1. fold h2. rewrite validateRestore_run. cbv zeta.
  assert (Hr : fst (resolveEdition w metadata h2)
               = inl (Errorf
                   "cannot restore Enterprise backup on Community edition Neo4j" [])).
  { unfold resolveEdition, bind, perform, ret. cbn [fst snd].
    fold detected. rewrite Hd, Hm, Hc.
    destruct (String.eqb_spec (neo4jEditionEnterprise w) (neo4jEditionCommunity w))
      as [E|_]; [symmetry in E; contradiction|].
    rewrite !String.eqb_refl. reflexivity. }
  rewrite Hr. reflexivity.
Qed.

(** C2.  Once the archive is extracted and its metadata parsed.  (1) For
    every checksum entry other than the one of the workflow dump: when the
    file of the entry is missing, or when its digest is not the recorded
    one, [RestoreBackup] returns an error and its run has no destructive
    call.  (2) When the run has a destructive call, the events before the
    first such call hold, for every such entry, the check that the file is
    there and the check that its digest is the recorded one, both passed. *)
Theorem checksums_gate_destructive_steps
    w backupFile excludeTaskManager restoreMigrateFormat h workDir metadata :
  fst (createRestoreWorkDir w backupFile h) = inr workDir ->
  let h1 := h ++ snd (createRestoreWorkDir w backupFile h) in
  fst (readBackupMetadata w backupFile workDir h1) = inr metadata ->
  let run := RestoreBackup w backupFile excludeTaskManager restoreMigrateFormat h in
  (forall relPath expectedSum,
      In (relPath, expectedSum) (Checksums metadata) ->
      relPath <> "prefect.dump" ->
      let filePath := filepath.Join [workDir; "backup"; relPath] in
      file_missing w filePath \/ digest_differs w filePath expectedSum ->
      fst run <> None /\ avoids destructive (snd run))
  /\ ((exists c, In c (calls (snd run)) /\ destructive c = true) ->
      exists pre post,
        snd run = pre ++ post
        /\ avoids destructive pre
        /\ forall relPath expectedSum,
             In (relPath, expectedSum) (Checksums metadata) ->
             relPath <> "prefect.dump" ->
             verified pre (filepath.Join [workDir; "backup"; relPath]) expectedSum).
Proof.
  intros Ha h1 Hb run.
  set (h2 := h1 ++ snd (readBackupMetadata w backupFile workDir h1)).
  pose proof (validateRestore_run w workDir metadata excludeTaskManager h2) as Hv.
  cbv zeta in Hv.
  pose proof (resolveEdition_quiet (P:=destructive) w metadata h2
                (or_introl eq_refl)) as Hq1.
  pose proof (validateChecksums_quiet w workDir (Checksums metadata)
                (h2 ++ snd (resolveEdition w metadata h2))) as Hq2.
  split.
  - intros relPath expectedSum Hin Hk filePath Hbad.
    destruct (fst (validateRestore w workDir metadata excludeTaskManager h2))
      as [e|chk] eqn:Ev.
    { destruct (@RestoreBackup_gate w backupFile excludeTaskManager
                  restoreMigrateFormat h workDir metadata e Ha Hb Ev) as [H1 H2].
      fold run in H1, H2. split; [congruence|exact H2]. }
    exfalso. rewrite Hv in Ev.
    destruct (fst (resolveEdition w metadata h2)); [discriminate|].
    pose proof (@validateChecksums_rejects w workDir (Checksums metadata)
                  (h2 ++ snd (resolveEdition w metadata h2))
                  relPath expectedSum Hin Hk Hbad) as Hrej.
    destruct (fst (validateChecksums _ _ _ _)); [discriminate|].
    apply Hrej. reflexivity.
  - intros (c & Hc & Hd).
    destruct (fst (validateRestore w workDir metadata excludeTaskManager h2))
      as [e|chk] eqn:Ev.
    { exfalso.
      destruct (@RestoreBackup_gate w backupFile excludeTaskManager
                  restoreMigrateFormat h workDir metadata e Ha Hb Ev) as [_ H2].
      fold run in H2. revert Hc. apply (@avoids_not_In _ _ _ H2). exact Hd. }
    unfold run. rewrite RestoreBackup_run. cbv zeta. rewrite Ha.
    cbv beta iota. fold h1. rewrite Hb. cbv beta iota. fold h2. rewrite Ev.
    cbn [fst snd].
    exists (snd (createRestoreWorkDir w backupFile h)
            ++ snd (readBackupMetadata w backupFile workDir h1)
            ++ snd (validateRestore w workDir metadata excludeTaskManager h2)).
    eexists. split; [rewrite <- !app_assoc; reflexivity|]. split.
    + repeat apply avoids_app.
      * apply createRestoreWorkDir_quiet. auto.
      * apply readBackupMetadata_quiet. auto.
      * apply validateRestore_quiet.
    + intros relPath expectedSum Hin Hk.
      rewrite Hv in Ev |- *.
      destruct (fst (resolveEdition w metadata h2)); [discriminate|].
      destruct (fst (validateChecksums _ _ _ _)) eqn:Ec; [discriminate|].
      destruct (@validateChecksums_verified _ _ _ _ Ec _ _ Hin Hk)
        as (st & sm & H1 & H2 & H3 & H4 & H5).
      exists st, sm. cbn [snd]. rewrite !in_app_iff. repeat split; auto.
Qed.

(** C9.  With [excludeTaskManager] set, the only digests that
    [RestoreBackup] computes are those of the files of the checksum
    entries other than ["prefect.dump"]: the dedicated validation of the
    workflow dump is not run, the dump may exist and the metadata may
    record a digest for it.  Hence the digest of the dump file itself is
    not computed, unless another entry of the metadata designates the same
    file. *)
Theorem excluded_workflow_dump_not_validated w backupFile restoreMigrateFormat h :
  let run := RestoreBackup w backupFile true restoreMigrateFormat h in
  let h1 := h ++ snd (createRestoreWorkDir w backupFile h) in
  (forall p,
      In (calculateSHA256 p) (calls (snd run)) ->
      exists workDir metadata relPath expectedSum,
        fst (createRestoreWorkDir w backupFile h) = inr workDir
        /\ fst (readBackupMetadata w backupFile workDir h1) = inr metadata
        /\ In (relPath, expectedSum) (Checksums metadata)
        /\ relPath <> "prefect.dump"
        /\ p = filepath.Join [workDir; "backup"; relPath])
  /\ (forall workDir metadata,
        fst (createRestoreWorkDir w backupFile h) = inr workDir ->
        fst (readBackupMetadata w backupFile workDir h1) = inr metadata ->
        (forall relPath expectedSum,
            In (relPath, expectedSum) (Checksums metadata) ->
            relPath <> "prefect.dump" ->
            filepath.Join [workDir; "backup"; relPath]
              <> filepath.Join [workDir; "backup"; "prefect.dump"]) ->
        ~ In (calculateSHA256 (filepath.Join [workDir; "backup"; "prefect.dump"]))
             (calls (snd run))).
Proof.
  intros run h1.
  assert (Hmain : forall p,
      In (calculateSHA256 p) (calls (snd run)) ->
      exists workDir metadata relPath expectedSum,
        fst (createRestoreWorkDir w backupFile h) = inr workDir
        /\ fst (readBackupMetadata w backupFile workDir h1) = inr metadata
        /\ In (relPath, expectedSum) (Checksums metadata)
        /\ relPath <> "prefect.dump"
        /\ p = filepath.Join [workDir; "backup"; relPath]).
  { intros p. unfold run. rewrite RestoreBackup_run. cbv zeta. fold h1.
    pose proof (createRestoreWorkDir_quiet (P:=is_digest) w backupFile h
                  (or_intror eq_refl)) as Ha.
    destruct (fst (createRestoreWorkDir w backupFile h)) as [e|workDir] eqn:Ea.
    { intros Hin. exfalso. revert Hin. apply avoids_digest_In. exact Ha. }
    pose proof (readBackupMetadata_quiet (P:=is_digest) w backupFile workDir h1
                  (or_intror eq_refl)) as Hb.
    cbn [fst snd]. unfold calls. rewrite !map_app, !in_app_iff. fold calls.
    intros [Hin | [Hin | Hin]].
    - exfalso. revert Hin. apply avoids_digest_In. exact Ha.
    - destruct (fst (readBackupMetadata w backupFile workDir h1))
        as [e|metadata] eqn:Eb.
      { exfalso. revert Hin. apply avoids_digest_In. exact Hb. }
      destruct (fst (validateRestore w workDir metadata true _)) eqn:Ev;
        cbn [snd] in Hin; unfold calls in Hin;
        rewrite ?map_app, ?in_app_iff in Hin; fold calls in Hin.
      + destruct Hin as [Hin | Hin].
        * exfalso. revert Hin. apply avoids_digest_In. exact Hb.
        * destruct (@validateRestore_excluded_digests _ _ _ _ _ Hin)
            as (k & v & H1 & H2 & H3).
          exists workDir, metadata, k, v. auto.
      + destruct Hin as [Hin | [Hin | Hin]].
        * exfalso. revert Hin. apply avoids_digest_In. exact Hb.
        * destruct (@validateRestore_excluded_digests _ _ _ _ _ Hin)
            as (k & v & H1 & H2 & H3).
          exists workDir, metadata, k, v. auto.
        * exfalso. revert Hin. apply avoids_digest_In.
          apply applyRestore_no_digest.
    - cbn in Hin. destruct Hin as [Hin | []]. discriminate. }
  split; [exact Hmain|].
  intros workDir metadata Ha Hb Hnoalias Hin.
  destruct (Hmain _ Hin) as (wd & md & k & v & Ha' & Hb' & H1 & H2 & H3).
  rewrite Ha in Ha'. injection Ha' as <-.
  rewrite Hb in Hb'. injection Hb' as <-.
  apply (Hnoalias _ _ H1 H2). symmetry. exact H3.
Qed.

(** A destructive call of [RestoreBackup] comes after the metadata was
    parsed. *)
Lemma RestoreBackup_destructive_after_metadata w backupFile excl mig h c :
  In c (calls (snd (RestoreBackup w backupFile excl mig h))) ->
  destructive c = true ->
  exists workDir metadata,
    fst (createRestoreWorkDir w backupFile h) = inr workDir
    /\ fst (readBackupMetadata w backupFile workDir
              (h ++ snd (createRestoreWorkDir w backupFile h))) = inr metadata.
Proof.
  intros Hin Hd. rewrite RestoreBackup_run in Hin. cbv zeta in Hin.
  pose proof (createRestoreWorkDir_quiet (P:=destructive) w backupFile h
                (or_introl eq_refl)) as Ha.
  destruct (fst (createRestoreWorkDir w backupFile h)) as [e|workDir] eqn:Ea.
  { exfalso. revert Hin. apply (@avoids_not_In _ _ _ Ha). exact Hd. }
  exists workDir.
  pose proof (readBackupMetadata_quiet (P:=destructive) w backupFile workDir
                (h ++ snd (createRestoreWorkDir w backupFile h))
                (or_introl eq_refl)) as Hb.
  destruct (fst (readBackupMetadata w backupFile workDir _)) as [e|md] eqn:Eb.
  { exfalso. revert Hin. cbn [fst snd]. apply avoids_not_In with (P:=destructive);
      [|exact Hd].
    repeat apply avoids_app; trivial. avoids_tac. }
  exists md. split; reflexivity.
Qed.

(* ===================================================================== *)
(** * Properties of CreateBackup                                          *)
(* ===================================================================== *)


(** ** The walk over the database directory *)

(** One visit of the walk. *)
Lemma walkChecksums_cons w backupDir v rest checksums h :
  walkChecksums w backupDir (v :: rest) checksums h =
    match we_err v with
    | Some e => ((checksums, Some e), [])
    | None =>
        if we_isDir v then walkChecksums w backupDir rest checksums h
        else
          let rel := match filepath.Rel backupDir (we_path v) with
                     | Some rel => rel
                     | None => ""
                     end in
          let s := oracle w h (calculateSHA256 (we_path v)) in
          let r := walkChecksums w backupDir rest
                     (match r_err s with
                      | None => map_set checksums rel (r_out s)
                      | Some _ => checksums
                      end)
                     (h ++ [(calculateSHA256 (we_path v), s)]) in
          (fst r, (calculateSHA256 (we_path v), s) :: snd r)
    end.
Proof.
  cbn [walkChecksums]. destruct (we_err v); [reflexivity|].
  destruct (we_isDir v); [reflexivity|].
  cbv zeta. unfold bind, perform. cbn [fst snd].
  destruct (r_err (oracle w h (calculateSHA256 (we_path v))));
    destruct (walkChecksums w backupDir rest _ _); reflexivity.
Qed.

(** The walk ends with an error only when a visit carries one: a file whose
    digest cannot be computed is passed over, and the walk goes on as if the
    file were not there. *)
Lemma walkChecksums_error w backupDir visits checksums h e :
  snd (fst (walkChecksums w backupDir visits checksums h)) = Some e ->
  exists v, In v visits /\ we_err v = Some e.
Proof.
  revert checksums h. induction visits as [|v rest IH]; intros checksums h.
  - discriminate.
  - rewrite walkChecksums_cons. destruct (we_err v) eqn:Ev.
    + cbn. intros H. injection H as <-. exists v. split; [left; reflexivity|exact Ev].
    + destruct (we_isDir v).
      * intros H. destruct (IH _ _ H) as (x & Hx & Hex). exists x. auto with datatypes.
      * cbv zeta. cbn [fst snd]. intros H.
        destruct (IH _ _ H) as (x & Hx & Hex). exists x. auto with datatypes.
Qed.

Lemma walkChecksums_unreadable_skipped w backupDir v rest checksums h e :
  we_err v = None ->
  we_isDir v = false ->
  r_err (oracle w h (calculateSHA256 (we_path v))) = Some e ->
  fst (walkChecksums w backupDir (v :: rest) checksums h)
    = fst (walkChecksums w backupDir rest checksums
             (h ++ [(calculateSHA256 (we_path v),
                     oracle w h (calculateSHA256 (we_path v)))])).
Proof.
  intros Hv Hd He. rewrite walkChecksums_cons, Hv, Hd. cbv zeta.
  rewrite He. reflexivity.
Qed.

(** ** The checksum of the workflow dump *)

Lemma calculateChecksums_run w backupDir excludeTaskManager h :
  let neo4jDir := filepath.Join [backupDir; "database"] in
  let prefectPath := filepath.Join [backupDir; "prefect.dump"] in
  let visits := oracle w h (Walk neo4jDir) in
  let h1 := h ++ [(Walk neo4jDir, visits)] in
  let walked := walkChecksums w backupDir (r_walk visits) [] h1 in
  let h2 := h1 ++ snd walked in
  let st := oracle w h2 (Stat prefectPath) in
  let s := oracle w (h2 ++ [(Stat prefectPath, st)]) (calculateSHA256 prefectPath) in
  calculateChecksums w backupDir excludeTaskManager h =
    match snd (fst walked) with
    | Some e =>
        (inl (wrap "failed to calculate Neo4j backup checksums: %w" e),
         (Walk neo4jDir, visits) :: snd walked)
    | None =>
        let checksums := fst (fst walked) in
        if excludeTaskManager
        then (inr checksums, (Walk neo4jDir, visits) :: snd walked)
        else
          match r_err st with
          | None =>
              (match r_err s with
               | None => inr (map_set checksums "prefect.dump" (r_out s))
               | Some e => inl (wrap "failed to calculate Prefect DB checksum: %w" e)
               end,
               (Walk neo4jDir, visits) :: snd walked
                 ++ [(Stat prefectPath, st); (calculateSHA256 prefectPath, s)])
          | Some e =>
              (if errors.IsErrNotExist e then inr checksums
               else inl (wrap "could not access Prefect DB dump: %w" e),
               (Walk neo4jDir, visits) :: snd walked ++ [(Stat prefectPath, st)])
          end
    end.
Proof.
  cbv zeta. unfold calculateChecksums, bind, perform, ret. cbn [fst snd].
  destruct (walkChecksums w backupDir _ [] _) as [[checksums e] t].
  cbn [fst snd]. destruct e as [e|]; [rewrite app_nil_r; reflexivity|].
  destruct excludeTaskManager; cbn [negb]; [rewrite app_nil_r; reflexivity|].
  cbn [fst snd].
  destruct (r_err (oracle w _ (Stat _))) as [e|].
  - destruct (errors.IsErrNotExist e); cbn [negb fst snd]; rewrite app_nil_r;
      reflexivity.
  - cbn [fst snd].
    destruct (r_err (oracle w _ (calculateSHA256 _))); cbn [fst snd app];
      rewrite ?app_nil_r; reflexivity.
Qed.

(** C6, as the code has it.  After a walk of the database directory that
    ended without error, with the checksums [checksums]: when the task
    manager is not excluded, a workflow dump that does not exist causes no
    error and leaves the checksums as they are; a dump whose [Stat] fails
    for another reason, or whose digest cannot be computed, is an error;
    when the task manager is excluded the result is the checksums of the
    walk and the dump is not looked at. *)
Theorem workflow_dump_checksum w backupDir h checksums :
  let neo4jDir := filepath.Join [backupDir; "database"] in
  let prefectPath := filepath.Join [backupDir; "prefect.dump"] in
  let visits := oracle w h (Walk neo4jDir) in
  let h1 := h ++ [(Walk neo4jDir, visits)] in
  let walked := walkChecksums w backupDir (r_walk visits) [] h1 in
  let st := oracle w (h1 ++ snd walked) (Stat prefectPath) in
  let s := oracle w ((h1 ++ snd walked) ++ [(Stat prefectPath, st)])
                  (calculateSHA256 prefectPath) in
  fst walked = (checksums, None) ->
  (forall e, r_err st = Some e -> errors.IsErrNotExist e = true ->
     fst (calculateChecksums w backupDir false h) = inr checksums)
  /\ (forall e, r_err st = Some e -> errors.IsErrNotExist e = false ->
        fst (calculateChecksums w backupDir false h)
          = inl (wrap "could not access Prefect DB dump: %w" e))
  /\ (forall e, r_err st = None -> r_err s = Some e ->
        fst (calculateChecksums w backupDir false h)
          = inl (wrap "failed to calculate Prefect DB checksum: %w" e))
  /\ (r_err st = None -> r_err s = None ->
        fst (calculateChecksums w backupDir false h)
          = inr (map_set checksums "prefect.dump" (r_out s)))
  /\ calculateChecksums w backupDir true h
       = (inr checksums, (Walk neo4jDir, visits) :: snd walked).
Proof.
  cbv zeta. intros Hw.
  rewrite !calculateChecksums_run. cbv zeta. rewrite Hw. cbn [fst snd].
  repeat split.
  - intros e -> ->. reflexivity.
  - intros e -> ->. reflexivity.
  - intros e -> ->. reflexivity.
  - intros -> ->. reflexivity.
Qed.

(** ** From the checksums to the result of CreateBackup *)

Lemma writeBackup_run w neo4jMetadata excl version edition h :
  let name := oracle w h generateBackupFilename in
  let h1 := h ++ [(generateBackupFilename, name)] in
  let tmp := oracle w h1 (MkdirTemp "" "infrahub_backup_*") in
  let h2 := h1 ++ [(MkdirTemp "" "infrahub_backup_*", tmp)] in
  let workDir := r_out tmp in
  let backupDir := filepath.Join [workDir; "backup"] in
  let backupPath := filepath.Join [BackupDir (config w); r_out name] in
  let metadata :=
    createBackupMetadata w (strings.TrimSuffix (r_out name) ".tar.gz")
                         (negb excl) version edition in
  writeBackup w neo4jMetadata excl version edition h =
    match r_err tmp with
    | Some e =>
        (Some (wrap "failed to create temp directory: %w" e),
         [(generateBackupFilename, name); (MkdirTemp "" "infrahub_backup_*", tmp)])
    | None =>
        let d := dumpDatabases w backupDir neo4jMetadata excl edition h2 in
        let inner :=
          match fst d with
          | Some e => (Some e, snd d)
          | None =>
              let c := calculateChecksums w backupDir excl (h2 ++ snd d) in
              match fst c with
              | inl e => (Some e, snd d ++ snd c)
              | inr checksums =>
                  let p := packageBackup w workDir backupDir backupPath metadata
                             checksums ((h2 ++ snd d) ++ snd c) in
                  (fst p, snd d ++ snd c ++ snd p)
              end
          end in
        (fst inner,
         [(generateBackupFilename, name); (MkdirTemp "" "infrahub_backup_*", tmp)]
           ++ snd inner
           ++ [(RemoveAll workDir, oracle w (h2 ++ snd inner) (RemoveAll workDir))])
    end.
Proof.
  cbv zeta. unfold writeBackup, orReturn, orReturnS, defer, after, bind, perform, ret.
  cbn [fst snd].
  destruct (r_err (oracle w _ (MkdirTemp _ _))); [reflexivity|].
  cbn [fst snd].
  destruct (dumpDatabases w _ _ _ _ _) as [[e|] t1]; cbn [fst snd app];
    [rewrite ?app_nil_r; reflexivity|].
  destruct (calculateChecksums w _ _ _) as [[e|cs] t2]; cbn [fst snd app];
    [rewrite ?app_nil_r; reflexivity|].
  destruct (packageBackup w _ _ _ _ _ _) as [r t3]; cbn [fst snd app].
  rewrite ?app_nil_r. reflexivity.
Qed.

(** ** From the checksums to the result of CreateBackup *)

(** The function deferred by [CreateBackup] keeps an error of the body, and
    turns a success into an error only when the restart fails. *)
Lemma restartDeferred_result w services retErr h :
  let run := restartDeferred w services retErr h in
  (forall e, retErr = Some e -> fst run = Some e)
  /\ (retErr = None ->
      fst run = None
      \/ exists r e,
           In (startAppContainers services, r) (snd run)
           /\ r_err r = Some e
           /\ fst run
              = Some (wrap "failed to restart services after backup: %w" e))
  /\ avoids is_digest (snd run).
Proof.
  cbv zeta. wp_start (restartDeferred w services retErr) h.
  unfold restartDeferred. destruct services as [|s l].
  - wp_step. split; [auto|]. split; [auto|constructor].
  - repeat wp_step.
    all: (split; [congruence|]); (split; [|avoids_tac]).
    all: intros Hn; try congruence; try (left; first [reflexivity|assumption]).
    right. exists r, e. split; [left; reflexivity|]. split; [exact E|reflexivity].
Qed.

(** [CreateBackup] either returns an error before it chooses the name of
    the archive, or runs the statements from there on ([writeBackup]) and,
    on a community deployment, the deferred restart of the services. *)
Lemma CreateBackup_embeds_writeBackup w force neo4jMetadata excl h :
  let run := CreateBackup w force neo4jMetadata excl h in
  (exists e, fst run = Some e /\ avoids is_digest (snd run))
  \/ exists pre version edition tail,
       let wb := writeBackup w neo4jMetadata excl version edition (h ++ pre) in
       snd run = pre ++ snd wb ++ tail
       /\ avoids is_digest pre /\ avoids is_digest tail
       /\ (forall e, fst wb = Some e -> fst run = Some e)
       /\ (fst wb = None ->
           fst run = None
           \/ exists services r e,
                In (startAppContainers services, r) tail
                /\ r_err r = Some e
                /\ fst run
                   = Some (wrap "failed to restart services after backup: %w" e)).
Proof.
  cbv zeta. wp_start (CreateBackup w force neo4jMetadata excl) h.
  unfold CreateBackup. repeat wp_step.
  all: try (left; eexists; split; [reflexivity|avoids_tac]; fail).
  all: unfold wp; rewrite <- ?app_assoc, ?app_nil_r; cbn [app].
  all: right.
  all: match goal with
       | |- context [writeBackup _ _ _ ?v ?e (_ ++ ?p)] => exists p, v, e
       end.
  all: cbv zeta.
  all: first
    [ exists []; split; [cbn [app]; rewrite app_nil_r; reflexivity|];
      (split; [avoids_tac|]); (split; [constructor|]);
      split; [intros e' He'; exact He' | intros Hn; left; exact Hn]
    | eexists; split; [cbn [app]; reflexivity|];
      (split; [avoids_tac|]);
      match goal with
      | |- context [restartDeferred ?w ?l ?a ?hh] =>
          destruct (restartDeferred_result w l a hh) as (Hk & Hn & Hq)
      end;
      split; [exact Hq|]; split; [exact Hk|];
      intros Hwb; destruct (Hn Hwb) as [Hnone|(r' & e' & Hin & Hre & Hres)];
      [left; exact Hnone
      |right; eexists; exists r', e'; repeat split; eassumption] ].
Qed.

(** ** Where CreateBackup computes its checksums *)

Lemma dumpDatabases_no_digest w backupDir neo4jMetadata excl edition :
  quiet is_digest (dumpDatabases w backupDir neo4jMetadata excl edition).
Proof. apply dumpDatabases_quiet, procedure_not_digest. Qed.

Lemma packageBackup_no_digest w workDir backupDir backupPath metadata checksums :
  quiet is_digest
        (packageBackup w workDir backupDir backupPath metadata checksums).
Proof. unfold packageBackup. quiet_tac. Qed.

(** The statements of [CreateBackup] from the choice of the file name on:
    either they end with an error before any digest is computed, or they
    reach the checksum statements; an error of those is the result, and
    their checksums are the ones written with the metadata. *)
Lemma writeBackup_checksums w neo4jMetadata excl version edition h :
  let wb := writeBackup w neo4jMetadata excl version edition h in
  (exists e, fst wb = Some e /\ avoids is_digest (snd wb))
  \/ exists pre workDir backupPath metadata tail,
       let backupDir := filepath.Join [workDir; "backup"] in
       let cc := calculateChecksums w backupDir excl (h ++ pre) in
       avoids is_digest pre
       /\ avoids is_digest tail
       /\ match fst cc with
          | inl e => fst wb = Some e /\ snd wb = pre ++ snd cc ++ tail
          | inr checksums =>
              let pk := packageBackup w workDir backupDir backupPath metadata
                          checksums ((h ++ pre) ++ snd cc) in
              fst wb = fst pk /\ snd wb = pre ++ snd cc ++ snd pk ++ tail
          end.
Proof.
  cbv zeta. rewrite writeBackup_run. cbv zeta.
  destruct (r_err (oracle w _ (MkdirTemp _ _))) as [e|] eqn:Etmp.
  { left. eexists. split; [reflexivity|avoids_tac]. }
  set (name := oracle w h generateBackupFilename).
  set (tmp := oracle w _ (MkdirTemp _ _)).
  set (h2 := (h ++ [(generateBackupFilename, name)]) ++ [(MkdirTemp _ _, tmp)]).
  pose proof (dumpDatabases_no_digest w (filepath.Join [r_out tmp; "backup"])
                neo4jMetadata excl edition h2) as Hd.
  destruct (fst (dumpDatabases w _ neo4jMetadata excl edition h2)) as [e|] eqn:Ed.
  { left. exists e. cbn [fst snd]. split; [reflexivity|].
    apply (avoids_app (t1 := [_; _])); [avoids_tac|].
    apply avoids_app; [exact Hd|avoids_tac]. }
  right.
  exists ([(generateBackupFilename, name); (MkdirTemp "" "infrahub_backup_*", tmp)]
            ++ snd (dumpDatabases w (filepath.Join [r_out tmp; "backup"])
                      neo4jMetadata excl edition h2)),
    (r_out tmp), (filepath.Join [BackupDir (config w); r_out name]),
    (createBackupMetadata w (strings.TrimSuffix (r_out name) ".tar.gz")
                          (negb excl) version edition).
  assert (Hh : h ++ [(generateBackupFilename, name);
                     (MkdirTemp "" "infrahub_backup_*", tmp)]
                 ++ snd (dumpDatabases w (filepath.Join [r_out tmp; "backup"])
                           neo4jMetadata excl edition h2)
               = h2 ++ snd (dumpDatabases w (filepath.Join [r_out tmp; "backup"])
                              neo4jMetadata excl edition h2)).
  { unfold h2. rewrite <- !app_assoc. reflexivity. }
  rewrite Hh.
  destruct (fst (calculateChecksums w _ excl _)) as [e|checksums] eqn:Ec;
    cbn [fst snd]; eexists.
  - split; [apply (avoids_app (t1 := [_; _])); [avoids_tac|exact Hd]|].
    split; [|split; [reflexivity|]].
    2:{ rewrite <- !app_assoc. cbn [app]. reflexivity. }
    avoids_tac.
  - split; [apply (avoids_app (t1 := [_; _])); [avoids_tac|exact Hd]|].
    split; [|split; [reflexivity|]].
    2:{ rewrite <- !app_assoc. cbn [app]. reflexivity. }
    avoids_tac.
Qed.

(** [CreateBackup] either returns an error before any digest is computed,
    or reaches its checksum statements, once: an error of those statements
    is the result of [CreateBackup], and the checksums they return are the
    ones that go into the metadata file; from there the result is the error
    of the packaging when there is one, else [nil] unless the restart of the
    services of a community deployment fails. *)
Lemma CreateBackup_checksums w force neo4jMetadata excl h :
  let run := CreateBackup w force neo4jMetadata excl h in
  (exists e, fst run = Some e /\ avoids is_digest (snd run))
  \/ exists pre workDir backupPath metadata tail,
       let backupDir := filepath.Join [workDir; "backup"] in
       let cc := calculateChecksums w backupDir excl (h ++ pre) in
       avoids is_digest pre
       /\ avoids is_digest tail
       /\ match fst cc with
          | inl e => fst run = Some e /\ snd run = pre ++ snd cc ++ tail
          | inr checksums =>
              let pk := packageBackup w workDir backupDir backupPath metadata
                          checksums ((h ++ pre) ++ snd cc) in
              snd run = pre ++ snd cc ++ snd pk ++ tail
              /\ (forall e, fst pk = Some e -> fst run = Some e)
              /\ (fst pk = None ->
                  fst run = None
                  \/ exists services r e,
                       In (startAppContainers services, r) tail
                       /\ r_err r = Some e
                       /\ fst run
                          = Some (wrap "failed to restart services after backup: %w"
                                       e))
          end.
Proof.
  cbv zeta.
  destruct (CreateBackup_embeds_writeBackup w force neo4jMetadata excl h)
    as [Hearly|(pre1 & version & edition & tail1 & Hrun & Hp1 & Ht1 & Hk & Hn)];
    [left; exact Hearly|].
  cbv zeta in Hrun, Hk, Hn.
  destruct (writeBackup_checksums w neo4jMetadata excl version edition (h ++ pre1))
    as [(e & Hwb & Hq)
       |(pre2 & workDir & backupPath & metadata & tail2 & Hp2 & Ht2 & Hm)].
  { left. exists e. split; [apply Hk; exact Hwb|].
    rewrite Hrun. apply avoids_app; [exact Hp1|].
    apply avoids_app; [exact Hq|exact Ht1]. }
  right. exists (pre1 ++ pre2), workDir, backupPath, metadata, (tail2 ++ tail1).
  rewrite (app_assoc h pre1 pre2).
  split; [apply avoids_app; assumption|].
  split; [apply avoids_app; assumption|].
  destruct (fst (calculateChecksums w _ excl _)) as [e|checksums].
  - destruct Hm as [Hwb Hs]. split; [apply Hk; exact Hwb|].
    rewrite Hrun, Hs. rewrite <- !app_assoc. reflexivity.
  - cbv zeta in Hm. destruct Hm as [Hwb Hs].
    split; [rewrite Hrun, Hs; rewrite <- !app_assoc; reflexivity|].
    rewrite <- Hwb. split; [exact Hk|].
    intros Hnone. destruct (Hn Hnone) as [H0|(sv & r & e & Hin & Hre & Hres)];
      [left; exact H0|].
    right. exists sv, r, e. split; [apply in_or_app; right; exact Hin|].
    split; assumption.
Qed.
(* ===================================================================== *)
(** * Properties of CreateBackup and RestoreBackup in backup.go           *)
(* ===================================================================== *)

(** What [backup.go] itself settles, whatever the functions it calls for
    the checksums and for the editions do: their error is the result, and
    nothing is written or restored after it. *)

(** ** RestoreBackup *)

Lemma Delegated_validateRestore_run w workDir metadata excl h :
  let det := oracle w h detectNeo4jEdition in
  let editionInfo := NewNeo4jEditionInfo w (r_out det) (r_err det) in
  let h1 := h ++ [(detectNeo4jEdition, det)] in
  let resolve := ResolveRestoreEdition editionInfo (Neo4jEdition metadata) in
  let res := oracle w h1 resolve in
  let h2 := h1 ++ [(resolve, res)] in
  let logged := oracle w h2 (LogDetection editionInfo "restore") in
  let h3 := h2 ++ [(LogDetection editionInfo "restore", logged)] in
  let validate := validateBackupChecksums workDir metadata excl in
  let val := oracle w h3 validate in
  let h4 := h3 ++ [(validate, val)] in
  let prefectPath := filepath.Join [workDir; "backup"; prefectDumpFilename w] in
  let ex := oracle w h4 (fileExists prefectPath) in
  Delegated.validateRestore w workDir metadata excl h =
    match r_err res with
    | Some e => (inl e, [(detectNeo4jEdition, det); (resolve, res)])
    | None =>
        match r_err val with
        | Some e =>
            (inl e, [(detectNeo4jEdition, det); (resolve, res);
                     (LogDetection editionInfo "restore", logged);
                     (validate, val)])
        | None =>
            (if taskManagerIncluded metadata && negb (r_flag ex) && negb excl
             then inl (Errorf
                    "backup metadata includes task manager database but %s is missing"
                    [prefectDumpFilename w])
             else inr (r_out res,
                       taskManagerIncluded metadata && negb excl && r_flag ex),
             [(detectNeo4jEdition, det); (resolve, res);
              (LogDetection editionInfo "restore", logged);
              (validate, val); (fileExists prefectPath, ex)])
        end
    end.
Proof.
  cbv zeta. unfold Delegated.validateRestore, orReturn, bind, perform, ret.
  cbn [fst snd].
  destruct (r_err (oracle w _ (ResolveRestoreEdition _ _))); [reflexivity|].
  cbn [fst snd app].
  destruct (r_err (oracle w _ (validateBackupChecksums _ _ _))); [reflexivity|].
  cbn [fst snd app].
  destruct (taskManagerIncluded metadata && negb (r_flag _) && negb excl);
    reflexivity.
Qed.

Lemma Delegated_validateRestore_quiet w workDir metadata excl h :
  avoids destructive (snd (Delegated.validateRestore w workDir metadata excl h)).
Proof.
  rewrite Delegated_validateRestore_run. cbv zeta.
  destruct (r_err (oracle w _ (ResolveRestoreEdition _ _))); [avoids_tac|].
  destruct (r_err (oracle w _ (validateBackupChecksums _ _ _))); avoids_tac.
Qed.

Lemma Delegated_RestoreBackup_run w backupFile excl mig h :
  let a := createRestoreWorkDir w backupFile h in
  Delegated.RestoreBackup w backupFile excl mig h =
    match fst a with
    | inl e => (Some e, snd a)
    | inr workDir =>
        let h1 := h ++ snd a in
        let b := readBackupMetadata w backupFile workDir h1 in
        let inner :=
          match fst b with
          | inl e => (Some e, snd b)
          | inr metadata =>
              let v := Delegated.validateRestore w workDir metadata excl
                         (h1 ++ snd b) in
              match fst v with
              | inl e => (Some e, snd b ++ snd v)
              | inr checked =>
                  let ap := applyRestore w workDir (fst checked) (snd checked) mig
                              ((h1 ++ snd b) ++ snd v) in
                  (fst ap, snd b ++ snd v ++ snd ap)
              end
          end in
        (fst inner,
         snd a ++ snd inner
           ++ [(RemoveAll workDir, oracle w (h1 ++ snd inner) (RemoveAll workDir))])
    end.
Proof.
  cbv zeta.
  unfold Delegated.RestoreBackup, orReturnS, defer, after, bind, perform, ret.
  destruct (createRestoreWorkDir w backupFile h) as [[e|workDir] t1];
    cbn [fst snd]; [rewrite app_nil_r; reflexivity|].
  destruct (readBackupMetadata w backupFile workDir (h ++ t1)) as [[e|md] t2];
    cbn [fst snd]; [rewrite !app_nil_r; reflexivity|].
  destruct (Delegated.validateRestore w workDir md excl ((h ++ t1) ++ t2))
    as [[e|chk] t3];
    cbn [fst snd]; [rewrite !app_nil_r; reflexivity|].
  destruct (applyRestore w workDir (fst chk) (snd chk) mig (((h ++ t1) ++ t2) ++ t3))
    as [r t4]; cbn [fst snd]. rewrite !app_nil_r. reflexivity.
Qed.

(** X2.  Once the archive is extracted and its metadata parsed: an error of
    [ResolveRestoreEdition], and after it an error of
    [validateBackupChecksums], is the result of [RestoreBackup], whose run
    then has no destructive call; a run with a destructive call is one
    where both returned [nil]. *)
Lemma Delegated_RestoreBackup_gate w backupFile excl mig h workDir metadata :
  fst (createRestoreWorkDir w backupFile h) = inr workDir ->
  let h1 := h ++ snd (createRestoreWorkDir w backupFile h) in
  fst (readBackupMetadata w backupFile workDir h1) = inr metadata ->
  let h2 := h1 ++ snd (readBackupMetadata w backupFile workDir h1) in
  let det := oracle w h2 detectNeo4jEdition in
  let editionInfo := NewNeo4jEditionInfo w (r_out det) (r_err det) in
  let h3 := h2 ++ [(detectNeo4jEdition, det)] in
  let resolve := ResolveRestoreEdition editionInfo (Neo4jEdition metadata) in
  let res := oracle w h3 resolve in
  let h4 := h3 ++ [(resolve, res)] in
  let logged := oracle w h4 (LogDetection editionInfo "restore") in
  let h5 := h4 ++ [(LogDetection editionInfo "restore", logged)] in
  let val := oracle w h5 (validateBackupChecksums workDir metadata excl) in
  let run := Delegated.RestoreBackup w backupFile excl mig h in
  (forall e, r_err res = Some e ->
     fst run = Some e /\ avoids destructive (snd run))
  /\ (forall e, r_err res = None -> r_err val = Some e ->
        fst run = Some e /\ avoids destructive (snd run))
  /\ ((exists c, In c (calls (snd run)) /\ destructive c = true) ->
      r_err res = None /\ r_err val = None).
Proof.
  intros Ha h1 Hb h2 det editionInfo h3 resolve res h4 logged h5 val run.
  assert (Hgate : forall e,
            fst (Delegated.validateRestore w workDir metadata excl h2) = inl e ->
            fst run = Some e /\ avoids destructive (snd run)).
  { intros e Hv. unfold run. rewrite Delegated_RestoreBackup_run. cbv zeta.
    rewrite Ha. fold h1. rewrite Hb. fold h2. rewrite Hv. cbn [fst snd].
    split; [reflexivity|].
    repeat apply avoids_app.
    - apply createRestoreWorkDir_quiet. auto.
    - apply readBackupMetadata_quiet. auto.
    - apply Delegated_validateRestore_quiet.
    - avoids_tac. }
  assert (H1 : forall e, r_err res = Some e ->
                 fst run = Some e /\ avoids destructive (snd run)).
  { intros e He. apply Hgate. rewrite Delegated_validateRestore_run. cbv zeta.
    fold det editionInfo h3 resolve res. rewrite He. reflexivity. }
  assert (H2 : forall e, r_err res = None -> r_err val = Some e ->
                 fst run = Some e /\ avoids destructive (snd run)).
  { intros e Hn He. apply Hgate. rewrite Delegated_validateRestore_run. cbv zeta.
    fold det editionInfo h3 resolve res. rewrite Hn.
    fold h4 logged h5 val. rewrite He. reflexivity. }
  split; [exact H1|]. split; [exact H2|].
  intros (c & Hin & Hc).
  destruct (r_err res) as [e|] eqn:Eres.
  { destruct (H1 e eq_refl) as [_ Hq]. exfalso.
    exact (@avoids_not_In _ _ _ Hq Hc Hin). }
  split; [reflexivity|].
  destruct (r_err val) as [e|] eqn:Eval; [|reflexivity].
  destruct (H2 e eq_refl eq_refl) as [_ Hq]. exfalso.
  exact (@avoids_not_In _ _ _ Hq Hc Hin).
Qed.

(** ** CreateBackup *)

(** The statements of [CreateBackup] from the choice of the file name on:
    either they end with an error without asking for the checksums, or
    they call [calculateBackupChecksums], once; its error is the result and
    nothing is written after it; its checksums are the ones that go into
    the metadata file. *)
Lemma Delegated_writeBackup_checksums w neo4jMetadata excl version info h :
  let wb := Delegated.writeBackup w neo4jMetadata excl version info h in
  (exists e, fst wb = Some e /\ avoids archives (snd wb) /\ avoids is_sums (snd wb))
  \/ exists pre workDir backupPath metadata sums tail,
       let backupDir := filepath.Join [workDir; "backup"] in
       let call := calculateBackupChecksums backupDir excl in
       answers w (h ++ pre) call sums
       /\ avoids archives pre
       /\ avoids archives tail
       /\ match r_err sums with
          | Some e => fst wb = Some e /\ snd wb = pre ++ (call, sums) :: tail
          | None =>
              let pk := Delegated.packageBackup w workDir backupDir backupPath
                          metadata (r_map sums) ((h ++ pre) ++ [(call, sums)]) in
              fst wb = fst pk /\ snd wb = pre ++ (call, sums) :: snd pk ++ tail
          end.
Proof.
  cbv zeta.
  wp_start (Delegated.writeBackup w neo4jMetadata excl version info) h.
  unfold Delegated.writeBackup. repeat wp_step.
  { left. eexists. split; [reflexivity|split; avoids_tac]. }
  apply wp_sub. intros d t Ed.
  assert (Ht : avoids archives t).
  { change t with (snd (d, t)). rewrite <- Ed.
    apply dumpDatabases_quiet, procedure_not_archive. }
  assert (Ht' : avoids is_sums t).
  { change t with (snd (d, t)). rewrite <- Ed.
    apply dumpDatabases_quiet. intros []; (reflexivity || discriminate). }
  repeat wp_step.
  - left. eexists. split; [reflexivity|].
    split; rewrite ?app_nil_r; apply (avoids_app (t1 := [_; _]));
      try apply avoids_app; try assumption; avoids_tac.
  - right.
    exists ([(generateBackupFilename, r); (MkdirTemp "" "infrahub_backup_*", r0)]
              ++ t), (r_out r0),
      (filepath.Join [BackupDir (config w); r_out r]),
      (createBackupMetadata w (strings.TrimSuffix (r_out r) ".tar.gz")
                            (negb excl) version (Edition info)),
      r1, [(RemoveAll (r_out r0), r2)].
    split; [|split; [|split]].
    + revert Hr1. rewrite ?app_nil_r, <- !app_assoc. exact (fun H => H).
    + apply (avoids_app (t1 := [_; _])); [avoids_tac|assumption].
    + avoids_tac.
    + rewrite E1. split; [reflexivity|].
      rewrite ?app_nil_r, <- !app_assoc. cbn [app]. reflexivity.
  - apply wp_sub. intros p tp Ep. repeat wp_step.
    right.
    exists ([(generateBackupFilename, r); (MkdirTemp "" "infrahub_backup_*", r0)]
              ++ t), (r_out r0),
      (filepath.Join [BackupDir (config w); r_out r]),
      (createBackupMetadata w (strings.TrimSuffix (r_out r) ".tar.gz")
                            (negb excl) version (Edition info)),
      r1, [(RemoveAll (r_out r0), r2)].
    split; [|split; [|split]].
    + revert Hr1. rewrite ?app_nil_r, <- !app_assoc. exact (fun H => H).
    + apply (avoids_app (t1 := [_; _])); [avoids_tac|assumption].
    + avoids_tac.
    + rewrite E1. cbv zeta.
      match goal with
      | |- context [Delegated.packageBackup ?a ?b ?c ?d ?e ?f ?g] =>
          assert (Hpk : Delegated.packageBackup a b c d e f g = (p, tp))
            by (rewrite <- Ep; f_equal; rewrite ?app_nil_r, <- ?app_assoc;
                reflexivity);
          rewrite Hpk
      end.
      cbn [fst snd]. split; [reflexivity|].
      rewrite ?app_nil_r, <- !app_assoc. reflexivity.
Qed.

Lemma restartDeferred_quiet P w services retErr :
  (forall s, P (startAppContainers s) = false) ->
  (forall level format args reported,
      P (Log level format args reported) = false) ->
  quiet P (restartDeferred w services retErr).
Proof.
  intros Hs Hl. unfold restartDeferred.
  repeat first [apply quiet_perform; first [apply Hs | apply Hl] | quiet_step].
Qed.

(** [CreateBackup] either returns an error before it chooses the name of
    the archive, or runs the statements from there on and, on a community
    deployment, the deferred restart of the services. *)
Lemma Delegated_CreateBackup_embeds_writeBackup w force neo4jMetadata excl h :
  let run := Delegated.CreateBackup w force neo4jMetadata excl h in
  (exists e, fst run = Some e
             /\ avoids archives (snd run) /\ avoids is_sums (snd run))
  \/ exists pre version info tail,
       let wb := Delegated.writeBackup w neo4jMetadata excl version info
                   (h ++ pre) in
       snd run = pre ++ snd wb ++ tail
       /\ avoids archives pre /\ avoids is_sums pre
       /\ avoids archives tail /\ avoids is_sums tail
       /\ (forall e, fst wb = Some e -> fst run = Some e).
Proof.
  cbv zeta. wp_start (Delegated.CreateBackup w force neo4jMetadata excl) h.
  unfold Delegated.CreateBackup. repeat wp_step.
  all: try (left; eexists; split; [reflexivity|split; avoids_tac]; fail).
  all: unfold wp; rewrite <- ?app_assoc, ?app_nil_r; cbn [app].
  all: right.
  all: match goal with
       | |- context [Delegated.writeBackup _ _ _ ?v ?e (_ ++ ?p)] =>
           exists p, v, e
       end.
  all: cbv zeta.
  all: first
    [ exists []; split; [cbn [app]; rewrite app_nil_r; reflexivity|];
      (split; [avoids_tac|]); (split; [avoids_tac|]);
      (split; [constructor|]); (split; [constructor|]);
      intros e' He'; exact He'
    | eexists; split; [cbn [app]; reflexivity|];
      (split; [avoids_tac|]); (split; [avoids_tac|]);
      match goal with
      | |- context [restartDeferred ?w ?l ?a ?hh] =>
          destruct (restartDeferred_result w l a hh) as (Hk & _ & _);
          pose proof (@restartDeferred_quiet archives w l a
                        (fun _ => eq_refl) (fun _ _ _ _ => eq_refl) hh) as Hq1;
          pose proof (@restartDeferred_quiet is_sums w l a
                        (fun _ => eq_refl) (fun _ _ _ _ => eq_refl) hh) as Hq2
      end;
      split; [exact Hq1|]; split; [exact Hq2|]; exact Hk ].
Qed.

(** X3.  [CreateBackup] either returns an error without asking for the
    checksums and without writing anything, or calls
    [calculateBackupChecksums], once: the error of that call is the result
    of [CreateBackup], and then no metadata file, no archive and no upload
    is made; the checksums of that call are the ones that go into the
    metadata file. *)
Lemma Delegated_CreateBackup_checksums w force neo4jMetadata excl h :
  let run := Delegated.CreateBackup w force neo4jMetadata excl h in
  (exists e, fst run = Some e
             /\ avoids archives (snd run) /\ avoids is_sums (snd run))
  \/ exists pre workDir backupPath metadata sums tail,
       let backupDir := filepath.Join [workDir; "backup"] in
       let call := calculateBackupChecksums backupDir excl in
       answers w (h ++ pre) call sums
       /\ avoids archives pre
       /\ avoids archives tail
       /\ match r_err sums with
          | Some e => fst run = Some e /\ snd run = pre ++ (call, sums) :: tail
          | None =>
              let pk := Delegated.packageBackup w workDir backupDir backupPath
                          metadata (r_map sums) ((h ++ pre) ++ [(call, sums)]) in
              snd run = pre ++ (call, sums) :: snd pk ++ tail
              /\ (forall e, fst pk = Some e -> fst run = Some e)
          end.
Proof.
  cbv zeta.
  destruct (Delegated_CreateBackup_embeds_writeBackup w force neo4jMetadata excl h)
    as [Hearly
       |(pre1 & version & info & tail1 & Hrun & Hp1 & Hs1 & Ht1 & Hs2 & Hk)];
    [left; exact Hearly|].
  cbv zeta in Hrun, Hk.
  destruct (Delegated_writeBackup_checksums w neo4jMetadata excl version info
              (h ++ pre1))
    as [(e & Hwb & Hq & Hq')
       |(pre2 & workDir & backupPath & metadata & sums & tail2
           & Hans & Hp2 & Ht2 & Hm)].
  { left. exists e. split; [apply Hk; exact Hwb|].
    rewrite Hrun. split; repeat apply avoids_app; assumption. }
  right.
  exists (pre1 ++ pre2), workDir, backupPath, metadata, sums, (tail2 ++ tail1).
  rewrite (app_assoc h pre1 pre2).
  split; [exact Hans|].
  split; [apply avoids_app; assumption|].
  split; [apply avoids_app; assumption|].
  cbv zeta in Hm. destruct (r_err sums) as [e|].
  - destruct Hm as [Hwb Hs]. split; [apply Hk; exact Hwb|].
    rewrite Hrun, Hs. repeat (rewrite <- ?app_assoc; cbn [app]). reflexivity.
  - destruct Hm as [Hwb Hs].
    split; [|rewrite <- Hwb; exact Hk].
    rewrite Hrun, Hs. repeat (rewrite <- ?app_assoc; cbn [app]). reflexivity.
Qed.
(* ===================================================================== *)
(** * The properties on the example worlds                                *)
(* ===================================================================== *)

(** Membership in a run that was computed. *)
Ltac in_run := cbn [In]; repeat (first [left; reflexivity | right]).

(** ** CreateBackup *)

(** C5.  The code does not have this property.  In [unreadableFileWorld]
    the walk over the database directory visits two files, and the digest
    of the second, [system.backup], cannot be computed.  [CreateBackup]
    computes both digests, gets the failure for the second, and returns
    [nil] all the same: the metadata it writes holds the checksum of
    [neo4j.backup] only, and the archive is made. *)
Theorem unreadable_file_silently_omitted :
  let run := Inlined.CreateBackup unreadableFileWorld false "" true [] in
  In (Walk "/tmp/infrahub_backup_1/backup/database",
      ok_walk databaseVisits) (snd run)
  /\ In (calculateSHA256 "/tmp/infrahub_backup_1/backup/database/system.backup",
         failed (ErrExternal "permission denied")) (snd run)
  /\ fst run = None
  /\ In (WriteFile "/tmp/infrahub_backup_1/backup/backup_information.json"
           (renderChecksums
              (set_Checksums
                 (exampleMetadata "infrahub_backup_20260101_000000" false
                                  "1.5.0" "enterprise")
                 [("database/neo4j.backup",
                   "sha256 of /tmp/infrahub_backup_1/backup/database/neo4j.backup")]))
           420, ok) (snd run)
  /\ In (createTarball "/backups/infrahub_backup_20260101_000000.tar.gz"
           "/tmp/infrahub_backup_1" "backup/", ok) (snd run).
Proof.
  vm_compute. repeat split; in_run.
Qed.

(** Against C6 as stated: the run of [CreateBackup] in [missingDumpWorld],
    where the task manager is not excluded and [Stat] finds no workflow
    dump in the work directory when the checksums are computed.
    [CreateBackup] returns [nil], and the archive is made. *)
Lemma absent_workflow_dump_tolerated :
  let run := Inlined.CreateBackup missingDumpWorld false "" false [] in
  In (Stat "/tmp/infrahub_backup_1/backup/prefect.dump", failed ErrNotExist)
     (snd run)
  /\ fst run = None
  /\ In (createTarball "/backups/infrahub_backup_20260101_000000.tar.gz"
           "/tmp/infrahub_backup_1" "backup/", ok) (snd run).
Proof.
  vm_compute. repeat split; in_run.
Qed.

(** ** The workflow dump at backup time *)

(** C6 in [missingDumpWorld]: the dump is absent, and the checksums are
    those of the walk. *)
Lemma workflow_dump_checksum_witness :
  fst (calculateChecksums missingDumpWorld "/tmp/infrahub_backup_1/backup" false [])
    = inr [("database/neo4j.backup",
            "sha256 of /tmp/infrahub_backup_1/backup/database/neo4j.backup");
           ("database/system.backup",
            "sha256 of /tmp/infrahub_backup_1/backup/database/system.backup")].
Proof.
  destruct (@workflow_dump_checksum missingDumpWorld
              "/tmp/infrahub_backup_1/backup" []
              [("database/neo4j.backup",
                "sha256 of /tmp/infrahub_backup_1/backup/database/neo4j.backup");
               ("database/system.backup",
                "sha256 of /tmp/infrahub_backup_1/backup/database/system.backup")])
    as [H _].
  - vm_compute. reflexivity.
  - apply (H ErrNotExist); reflexivity.
Defined.

(** ** RestoreBackup *)

(** [RestoreBackup] of [backup.go] on an archive that
    [validateBackupChecksums] rejects: the error is the result and nothing
    was wiped, stopped or restored. *)
Lemma Delegated_RestoreBackup_rejected :
  let run := Delegated.RestoreBackup rejectedArchiveWorld "backup.tar.gz"
               false false [] in
  fst run = Some (ErrExternal "checksum mismatch for database/neo4j.dump")
  /\ avoids destructive (snd run).
Proof.
  assert (Ha : fst (createRestoreWorkDir rejectedArchiveWorld "backup.tar.gz" [])
               = inr restoreWorkDir) by (vm_compute; reflexivity).
  assert (Hb : fst (readBackupMetadata rejectedArchiveWorld "backup.tar.gz"
                      restoreWorkDir
                      ([] ++ snd (createRestoreWorkDir rejectedArchiveWorld
                                    "backup.tar.gz" [])))
               = inr (archiveMetadata "community")) by (vm_compute; reflexivity).
  destruct (@Delegated_RestoreBackup_gate rejectedArchiveWorld "backup.tar.gz"
              false false [] restoreWorkDir (archiveMetadata "community") Ha Hb)
    as (_ & H & _).
  apply H; reflexivity.
Defined.

(** C1 in [enterpriseArchiveWorld], and in [dottedArchiveWorld], where the
    edition of the metadata has a capital outside ASCII that
    [strings.ToLower] maps to an ASCII letter. *)
Lemma enterprise_backup_on_community_rejected_witness :
  (fst (RestoreBackup enterpriseArchiveWorld "backup.tar.gz" false false [])
     = Some (Errorf "cannot restore Enterprise backup on Community edition Neo4j" [])
   /\ avoids destructive
        (snd (RestoreBackup enterpriseArchiveWorld "backup.tar.gz" false false [])))
  /\ (fst (RestoreBackup dottedArchiveWorld "backup.tar.gz" false false [])
        = Some (Errorf "cannot restore Enterprise backup on Community edition Neo4j" [])
      /\ avoids destructive
           (snd (RestoreBackup dottedArchiveWorld "backup.tar.gz" false false []))).
Proof.
  split.
  - apply (@enterprise_backup_on_community_rejected enterpriseArchiveWorld
             "backup.tar.gz" false false [] restoreWorkDir
             (archiveMetadata "Enterprise"));
      [discriminate | vm_compute; reflexivity ..].
  - apply (@enterprise_backup_on_community_rejected dottedArchiveWorld
             "backup.tar.gz" false false [] restoreWorkDir
             (archiveMetadata ("ENTERPR" ++ dottedI ++ "SE")));
      [discriminate | vm_compute; reflexivity ..].
Defined.

(** C2: in [tamperedArchiveWorld] the restore is refused; in
    [tamperedDumpWorld], with the task manager excluded, it goes through
    and the database dump was verified first. *)
Lemma checksums_gate_destructive_steps_witness :
  (fst (RestoreBackup tamperedArchiveWorld "backup.tar.gz" false false []) <> None
   /\ avoids destructive
        (snd (RestoreBackup tamperedArchiveWorld "backup.tar.gz" false false [])))
  /\ exists pre post,
       snd (RestoreBackup tamperedDumpWorld "backup.tar.gz" true false [])
         = pre ++ post
       /\ avoids destructive pre
       /\ verified pre "/tmp/infrahub_restore_1/backup/database/neo4j.dump" "abc123".
Proof.
  split.
  - destruct (@checksums_gate_destructive_steps tamperedArchiveWorld
                "backup.tar.gz" false false [] restoreWorkDir
                (archiveMetadata "community")) as [H _];
      [vm_compute; reflexivity | vm_compute; reflexivity |].
    apply (H "database/neo4j.dump" "abc123").
    + left. reflexivity.
    + discriminate.
    + right. intros h _. vm_compute. discriminate.
  - destruct (@checksums_gate_destructive_steps tamperedDumpWorld
                "backup.tar.gz" true false [] restoreWorkDir
                (archiveMetadata "community")) as [_ H];
      [vm_compute; reflexivity | vm_compute; reflexivity |].
    destruct H as (pre & post & Hrun & Hpre & Hall).
    + exists wipeTransientData. split; [vm_compute; in_run | reflexivity].
    + exists pre, post. split; [exact Hrun|]. split; [exact Hpre|].
      apply (Hall "database/neo4j.dump" "abc123"); [left; reflexivity | discriminate].
Defined.

(** Against C9 as stated: in [aliasedDumpWorld] the metadata records the
    digest of the workflow dump under the key [./prefect.dump], which is
    not the key that the loop over the checksums passes over and which
    [filepath.Join] resolves to the dump file.  With the task manager
    excluded, [RestoreBackup] computes the digest of the dump, compares it
    with the recorded one and, as they differ, returns the error: nothing
    is restored. *)
Lemma aliased_workflow_dump_validated :
  let run := RestoreBackup aliasedDumpWorld "backup.tar.gz" true false [] in
  In (calculateSHA256 "/tmp/infrahub_restore_1/backup/prefect.dump",
      ok_out "000000") (snd run)
  /\ fst run
     = Some (Errorf "checksum mismatch for %s: expected %s, got %s"
                    ["./prefect.dump"; "def456"; "000000"])
  /\ avoids destructive (snd run).
Proof.
  vm_compute. split; [in_run|]. split; [reflexivity|repeat constructor].
Qed.

(** C9 in [tamperedDumpWorld]: the metadata records a digest for the
    workflow dump, the file has another one, and the restore succeeds
    without computing it. *)
Lemma excluded_workflow_dump_not_validated_witness :
  fst (RestoreBackup tamperedDumpWorld "backup.tar.gz" true false []) = None
  /\ map_get (Checksums (archiveMetadata "community")) "prefect.dump" = Some "def456"
  /\ r_out (oracle tamperedDumpWorld []
              (calculateSHA256 "/tmp/infrahub_restore_1/backup/prefect.dump"))
       = "000000"
  /\ ~ In (calculateSHA256 "/tmp/infrahub_restore_1/backup/prefect.dump")
          (calls (snd (RestoreBackup tamperedDumpWorld "backup.tar.gz" true false []))).
Proof.
  split; [vm_compute; reflexivity|].
  split; [reflexivity|]. split; [reflexivity|].
  apply (proj2 (@excluded_workflow_dump_not_validated tamperedDumpWorld
                  "backup.tar.gz" false [])
           restoreWorkDir (archiveMetadata "community"));
    [vm_compute; reflexivity | vm_compute; reflexivity |].
  intros relPath expectedSum [H|[H|[]]] Hne;
    apply (f_equal fst) in H; cbn [fst] in H; subst relPath;
    [vm_compute; discriminate | contradiction Hne; reflexivity].
Defined.

(** ** The community procedures *)

(** C4 in [watchdogTimeoutWorld]. *)
Lemma stopNeo4jCommunity_watchdog_timeout_witness :
  fst (stopNeo4jCommunity watchdogTimeoutWorld "4242" [])
    = Some (wrap "watchdog failed to initialize: %w"
                 (ErrExternal "timed out waiting for file"))
  /\ no_kill (snd (stopNeo4jCommunity watchdogTimeoutWorld "4242" []))
  /\ ~ In (stop_signal "4242")
          (calls (snd (stopNeo4jCommunity watchdogTimeoutWorld "4242" []))).
Proof.
  apply (@stopNeo4jCommunity_watchdog_timeout watchdogTimeoutWorld "4242" []
           (failed (ErrExternal "timed out waiting for file"))).
  - vm_compute. in_run.
  - discriminate.
Defined.

(** C8: the PID file of [badPidWorld] does not parse; the signals of a
    backup in [failingDumpWorld] go to the PID of its file. *)
Lemma readNeo4jPID_validates_before_signal_witness :
  (exists e, fst (readNeo4jPID badPidWorld []) = ("", Some e))
  /\ forall c,
       is_kill c = true ->
       In c (calls (snd (backupNeo4jCommunity failingDumpWorld
                           "/tmp/infrahub_backup_1/backup" []))) ->
       c = stop_signal "4242" \/ c = cont_signal "4242".
Proof.
  split.
  - apply (proj1 (@readNeo4jPID_validates_before_signal badPidWorld [])).
    + reflexivity.
    + right. exists strconv.ErrSyntax. vm_compute. reflexivity.
  - intros c Hk Hin.
    apply (proj2 (proj2 (@readNeo4jPID_validates_before_signal
                           failingDumpWorld []))
             "/tmp/infrahub_backup_1/backup" false c Hk).
    left. exact Hin.
Defined.

(** The continue signal in [failingDumpWorld], where the dump fails and
    the continue signal fails too. *)
Lemma community_pause_always_resumed_witness :
  let w := failingDumpWorld in
  let backupDir := "/tmp/infrahub_backup_1/backup" in
  let e1 := snd (readNeo4jPID w []) in
  let e2 := snd (stopNeo4jCommunity w "4242" ([] ++ e1)) in
  let body := dumpNeo4jCommunity w backupDir (([] ++ e1) ++ e2) in
  exists tail,
    snd (backupNeo4jCommunity w backupDir []) = e1 ++ e2 ++ snd body ++ tail
    /\ resumed "4242" (fst body) tail (fst (backupNeo4jCommunity w backupDir [])).
Proof.
  exact (proj1 (@community_pause_always_resumed failingDumpWorld [] "4242"
                  eq_refl eq_refl)
           "/tmp/infrahub_backup_1/backup").
Defined.

(** C3.  The code does not have this property.  In [slowStopWorld] the
    PID file holds [4242], the watchdog gets ready and the stop signal is
    sent to the process without error, but the wait for the process to stop
    fails.  The backup and the restore return that error at once: the
    deferred function that sends the continue signal is registered only
    after [stopNeo4jCommunity] returned [nil], so that these exits send no
    [kill -CONT], and the only [kill] of the run is the stop signal. *)
Theorem stop_signal_sent_not_resumed :
  let stopped :=
    Some (ErrExternal "timed out waiting for process to stop") in
  let backup :=
    backupNeo4jCommunity slowStopWorld "/tmp/infrahub_backup_1/backup" [] in
  let restore := restoreNeo4jCommunity slowStopWorld false [] in
  (In (stop_signal "4242", ok) (snd backup)
   /\ In (waitForProcessStopped "4242" neo4jProcessStopTimeout,
          mkReply "" [] [] false [] stopped) (snd backup)
   /\ fst backup = stopped
   /\ ~ In (cont_signal "4242") (calls (snd backup)))
  /\ (In (stop_signal "4242", ok) (snd restore)
      /\ In (waitForProcessStopped "4242" neo4jProcessStopTimeout,
             mkReply "" [] [] false [] stopped) (snd restore)
      /\ fst restore = stopped
      /\ ~ In (cont_signal "4242") (calls (snd restore))).
Proof.
  vm_compute.
  split; (split; [in_run|]; split; [in_run|]; split; [reflexivity|]);
    intros H; repeat (destruct H as [H|H]; [discriminate H|]); exact H.
Qed.

(** ** The Kubernetes backend *)

(** C7 with no candidate, one candidate and two candidates. *)
Lemma Detect_without_namespace_witness :
  fst (Detect (clusterWorld [] []) exampleBackend [])
    = (exampleBackend, Some ErrEnvironmentNotFound)
  /\ (exists k',
        fst (Detect (clusterWorld ["infrahub"] []) exampleBackend []) = (k', None)
        /\ namespace k' = "infrahub"
        /\ K8sNamespace (k_config k') = "infrahub")
  /\ (exists e msg,
        fst (Detect (clusterWorld ["infrahub-dev"; "infrahub-prod"] [])
                    exampleBackend [])
          = (exampleBackend, Some e)
        /\ ErrorString e = Some msg
        /\ forall n, In n ["infrahub-dev"; "infrahub-prod"] ->
                     strings.Contains msg n = true).
Proof.
  split; [|split].
  - exact (@Detect_without_namespace (clusterWorld [] []) exampleBackend []
             eq_refl eq_refl eq_refl).
  - exact (@Detect_without_namespace (clusterWorld ["infrahub"] [])
             exampleBackend [] eq_refl eq_refl eq_refl).
  - exact (@Detect_without_namespace
             (clusterWorld ["infrahub-dev"; "infrahub-prod"] [])
             exampleBackend [] eq_refl eq_refl eq_refl).
Defined.

(** C10 with a pending pod and a running one. *)
Lemma IsRunning_iff_some_pod_running_witness :
  exists running,
    IsRunning (clusterWorld [] ["Pending"; "RUNNING"]) exampleBackend "database" []
      = ((running, None),
         snd (getPodStatuses (clusterWorld [] ["Pending"; "RUNNING"])
                exampleBackend "database" []))
    /\ (running = true <->
        exists status,
          In status ["Pending"; "RUNNING"]
          /\ strings.EqualFold status "Running" = true)
    /\ (["Pending"; "RUNNING"] = [] -> running = false).
Proof.
  apply (@IsRunning_iff_some_pod_running (clusterWorld [] ["Pending"; "RUNNING"])
           exampleBackend "database" [] ["Pending"; "RUNNING"]).
  vm_compute. reflexivity.
Defined.
(* ===================================================================== *)
(** * Pods, commands and copies of the Kubernetes backend                 *)
(* ===================================================================== *)

(** ** The pod cache *)

Lemma map_get_map_set m k v : map_get (map_set m k v) k = Some v.
Proof.
  induction m as [|[k' v'] m IH]; cbn [map_set map_get].
  - rewrite String.eqb_refl. reflexivity.
  - destruct (String.eqb k k') eqn:E; cbn [map_get].
    + rewrite String.eqb_refl. reflexivity.
    + rewrite E. exact IH.
Qed.

Lemma map_get_map_set_other m k v k' :
  k' <> k -> map_get (map_set m k v) k' = map_get m k'.
Proof.
  intros Hne. induction m as [|[k0 v0] m IH]; cbn [map_set map_get].
  - apply String.eqb_neq in Hne. rewrite Hne. reflexivity.
  - destruct (String.eqb k k0) eqn:E; cbn [map_get].
    + apply String.eqb_eq in E. subst k0.
      apply String.eqb_neq in Hne. rewrite Hne. reflexivity.
    + rewrite IH. reflexivity.
Qed.

(** A service whose pod is in the cache: the lookup answers from the cache
    and runs nothing. *)
Lemma getPodForService_cached w k service pod h :
  map_get (podCache k) service = Some pod ->
  pod <> "" ->
  Kubernetes.getPodForService w k service h = ((k, (pod, None)), []).
Proof.
  intros Hc Hp. unfold Kubernetes.getPodForService. rewrite Hc.
  apply String.eqb_neq in Hp. rewrite Hp. reflexivity.
Qed.

(** What a lookup that goes past the cache returns. *)
Lemma findPodForService_run w k service h :
  let selectors := podSelectors w k service in
  let sel := Kubernetes.getPodForService_selectors w k selectors h in
  let all := all_pod_names k in
  let r := oracle w (h ++ snd sel) all in
  Kubernetes.findPodForService w k service h =
    match fst sel with
    | Some pod =>
        ((Kubernetes.set_podCache k service pod, (pod, None)), snd sel)
    | None =>
        (match r_err r with
         | Some err => (k, ("", Some err))
         | None =>
             match Kubernetes.getPodForService_names service
                     (nonEmptyLines w (r_out r)) with
             | Some name =>
                 (Kubernetes.set_podCache k service name, (name, None))
             | None =>
                 (k, ("", Some (Errorf
                        "no pods found for service %s in namespace %s"
                        [service; namespace k])))
             end
         end, snd sel ++ [(all, r)])
    end.
Proof.
  cbv zeta. unfold Kubernetes.findPodForService, orReturn, bind, perform, ret.
  destruct (Kubernetes.getPodForService_selectors w k _ h) as [[pod|] t];
    cbn [fst snd]; [rewrite app_nil_r; reflexivity|].
  destruct (r_err (oracle w (h ++ t) _)); cbn [fst snd];
    [rewrite ?app_nil_r; reflexivity|].
  destruct (Kubernetes.getPodForService_names _ _); cbn [fst snd];
    rewrite ?app_nil_r; reflexivity.
Qed.

(** A pod that a lookup past the cache returns is in the cache that the
    lookup leaves. *)
Lemma findPodForService_caches w k service h k' pod :
  fst (Kubernetes.findPodForService w k service h) = (k', (pod, None)) ->
  map_get (podCache k') service = Some pod.
Proof.
  rewrite findPodForService_run. cbv zeta.
  destruct (fst (Kubernetes.getPodForService_selectors w k _ h)); cbn [fst].
  - intros H. injection H as <- <-. apply map_get_map_set.
  - destruct (r_err _); [discriminate|].
    destruct (Kubernetes.getPodForService_names _ _); [|discriminate].
    intros H. injection H as <- <-. apply map_get_map_set.
Qed.


(** A lookup that fails leaves the backend as it is. *)
Lemma getPodForService_error_backend w k service h e :
  snd (snd (fst (Kubernetes.getPodForService w k service h))) = Some e ->
  fst (fst (Kubernetes.getPodForService w k service h)) = k.
Proof.
  unfold Kubernetes.getPodForService.
  assert (Hfind :
    snd (snd (fst (Kubernetes.findPodForService w k service h))) = Some e ->
    fst (fst (Kubernetes.findPodForService w k service h)) = k).
  { rewrite findPodForService_run. cbv zeta.
    destruct (fst (Kubernetes.getPodForService_selectors w k _ h));
      cbn [fst snd]; [discriminate|].
    destruct (r_err _); [reflexivity|].
    destruct (Kubernetes.getPodForService_names _ _);
      [discriminate | reflexivity]. }
  destruct (map_get (podCache k) service) as [pod|]; [|exact Hfind].
  destruct (negb (String.eqb pod "")); [discriminate | exact Hfind].
Qed.

(** X5.  When the lookup of the pod fails, [Exec], [CopyTo] and [CopyFrom]
    return the error of the lookup; they run nothing after the queries of
    the lookup, so no [kubectl exec] and no [kubectl cp], and they leave the
    backend as it was. *)
Theorem failed_lookup_runs_no_command w prepareCommand k service h e :
  snd (snd (fst (Kubernetes.getPodForService w k service h))) = Some e ->
  let lookup := snd (Kubernetes.getPodForService w k service h) in
  (forall command opts,
     Kubernetes.Exec w prepareCommand k service command opts h
       = ((k, ("", Some e)), lookup))
  /\ (forall src dest,
        Kubernetes.CopyTo w k service src dest h = ((k, Some e), lookup)
        /\ Kubernetes.CopyFrom w k service src dest h = ((k, Some e), lookup)).
Proof.
  intros He lookup. pose proof (getPodForService_error_backend _ _ _ _ He) as Hk.
  subst lookup. unfold Kubernetes.Exec, Kubernetes.CopyTo, Kubernetes.CopyFrom,
    bind, ret.
  destruct (Kubernetes.getPodForService w k service h) as [[k1 [pod err]] t].
  cbn [fst snd] in *. subst k1 err. cbn [fst snd]. rewrite app_nil_r.
  repeat split.
Qed.

(** X6.  Once the pod of a service is known, a command or a copy for that
    service is one call of [kubectl] and nothing else: [exec] in the
    namespace and the pod, followed by the prepared command; [cp] with the
    pod side written namespace/pod:path.  The pod is not looked up
    again. *)
Theorem command_after_lookup w prepareCommand k service h k' pod :
  fst (Kubernetes.getPodForService w k service h) = (k', (pod, None)) ->
  pod <> "" ->
  forall h',
    (forall command opts,
       let exec :=
         runCommand "kubectl"
           (["exec"; "-n"; namespace k'; pod; "--"]
              ++ prepareCommand k' command opts) in
       let r := oracle w h' exec in
       Kubernetes.Exec w prepareCommand k' service command opts h'
         = ((k', (r_out r, r_err r)), [(exec, r)]))
    /\ (forall src dest,
          let cp :=
            runCommand "kubectl"
              ["cp"; src; fmt.Sprintf "%s/%s:%s" [namespace k'; pod; dest]] in
          Kubernetes.CopyTo w k' service src dest h'
            = ((k', r_err (oracle w h' cp)), [(cp, oracle w h' cp)]))
    /\ (forall src dest,
          let cp :=
            runCommand "kubectl"
              ["cp"; fmt.Sprintf "%s/%s:%s" [namespace k'; pod; src]; dest] in
          Kubernetes.CopyFrom w k' service src dest h'
            = ((k', r_err (oracle w h' cp)), [(cp, oracle w h' cp)])).
Proof.
  intros Hrun Hp h'.
  assert (Hc : map_get (podCache k') service = Some pod).
  { revert Hrun. unfold Kubernetes.getPodForService.
    destruct (map_get (podCache k) service) as [pod0|] eqn:Hc;
      [|apply findPodForService_caches].
    destruct (negb (String.eqb pod0 "")); [|apply findPodForService_caches].
    cbn [fst ret]. intros H. injection H as <- <-. exact Hc. }
  pose proof (fun h => getPodForService_cached w k' service h Hc Hp) as Hhit.
  unfold Kubernetes.Exec, Kubernetes.CopyTo, Kubernetes.CopyFrom, bind, perform,
    ret.
  repeat split; intros; cbv zeta; rewrite Hhit; cbn [fst snd app];
    rewrite ?app_nil_r; reflexivity.
Qed.

(** X7.  The error of a lookup is the error of the query for all the pods
    of the namespace, or the error that names the service and the
    namespace for which no pod was found.  A query with a selector that
    fails is passed over: its error is never the result. *)
Theorem getPodForService_error_source w k service h e :
  snd (snd (fst (Kubernetes.getPodForService w k service h))) = Some e ->
  (exists r,
      In (all_pod_names k, r) (snd (Kubernetes.getPodForService w k service h))
      /\ r_err r = Some e)
  \/ (e = Errorf "no pods found for service %s in namespace %s"
              [service; namespace k]
      /\ exists r,
           In (all_pod_names k, r)
              (snd (Kubernetes.getPodForService w k service h))
           /\ r_err r = None
           /\ forall name, In name (nonEmptyLines w (r_out r)) ->
                           strings.Contains name service = false).
Proof.
  unfold Kubernetes.getPodForService.
  assert (Hnames : forall names,
            Kubernetes.getPodForService_names service names = None ->
            forall name, In name names -> strings.Contains name service = false).
  { induction names as [|n names IH]; cbn [Kubernetes.getPodForService_names];
      [intros _ name []|].
    destruct (strings.Contains n service) eqn:E; [discriminate|].
    intros H name [ <- | Hin ]; [exact E | exact (IH H name Hin)]. }
  assert (Hfind :
    snd (snd (fst (Kubernetes.findPodForService w k service h))) = Some e ->
    (exists r,
        In (all_pod_names k, r) (snd (Kubernetes.findPodForService w k service h))
        /\ r_err r = Some e)
    \/ (e = Errorf "no pods found for service %s in namespace %s"
                [service; namespace k]
        /\ exists r,
             In (all_pod_names k, r)
                (snd (Kubernetes.findPodForService w k service h))
             /\ r_err r = None
             /\ forall name, In name (nonEmptyLines w (r_out r)) ->
                             strings.Contains name service = false)).
  { rewrite findPodForService_run. cbv zeta.
    destruct (fst (Kubernetes.getPodForService_selectors w k _ h));
      cbn [fst snd]; [discriminate|].
    destruct (r_err _) as [err|] eqn:Er.
    - cbn [fst snd]. intros H. injection H as <-. left. eexists.
      split; [apply in_or_app; right; left; reflexivity | exact Er].
    - destruct (Kubernetes.getPodForService_names _ _) eqn:En; [discriminate|].
      cbn [fst snd]. intros H. injection H as <-. right.
      split; [reflexivity|]. eexists.
      split; [apply in_or_app; right; left; reflexivity|].
      split; [exact Er | exact (Hnames _ En)]. }
  destruct (map_get (podCache k) service) as [pod|]; [|exact Hfind].
  destruct (negb (String.eqb pod "")); [discriminate | exact Hfind].
Qed.

(** ** Detect with a namespace in the configuration *)

(** X8.  With a namespace in the configuration, [Detect] records that
    namespace and verifies it with a query for the pods of the application:
    the result is the error of that query, wrapped, or [nil].  The
    candidates that the listing found play no part, but an error of the
    listing ends [Detect] before the namespace is recorded or verified. *)
Theorem Detect_configured_namespace w k h :
  K8sNamespace (k_config k) <> "" ->
  let ns := K8sNamespace (k_config k) in
  let client := runCommandQuiet "kubectl" ["version"; "--client"] in
  let version := oracle w h client in
  let h1 := h ++ [(client, version)] in
  let listed := oracle w h1 ListKubernetesNamespaces in
  let h2 := h1 ++ [(ListKubernetesNamespaces, listed)] in
  let verify :=
    runCommand "kubectl"
      ["get"; "pods"; "-n"; ns; "-l"; "app.kubernetes.io/name=infrahub"] in
  let verified := oracle w h2 verify in
  r_err version = None ->
  (forall e, r_err listed = Some e ->
     Detect w k h
       = ((k, Some e), [(client, version); (ListKubernetesNamespaces, listed)]))
  /\ (r_err listed = None ->
      Detect w k h
        = ((mkKubernetesBackend (k_config k) ns (podCache k),
            option_map (Wrapf "failed to verify namespace %s: %w" [ns])
                       (r_err verified)),
           [(client, version); (ListKubernetesNamespaces, listed);
            (verify, verified)])).
Proof.
  intros Hns ns client version h1 listed h2 verify verified Hv.
  apply String.eqb_neq in Hns.
  unfold Detect, orReturn, bind, perform, ret. cbn [fst snd].
  fold client version. rewrite Hv. cbn [fst snd]. fold h1 listed.
  split.
  - intros e He. rewrite He. reflexivity.
  - intros Hl. rewrite Hl. rewrite Hns. cbn [negb fst snd namespace].
    fold ns h2 verify verified.
    destruct (r_err verified); reflexivity.
Qed.

(** ** Where the statuses of the pods come from *)

Lemma getPodStatuses_selectors_source w k selectors h statuses :
  fst (getPodStatuses_selectors w k selectors h) = Some statuses ->
  exists c r,
    In (c, r) (snd (getPodStatuses_selectors w k selectors h))
    /\ selector_query c = true
    /\ r_err r = None
    /\ statuses = nonEmptyLines w (r_out r)
    /\ statuses <> [].
Proof.
  revert h. induction selectors as [|selector rest IH]; intros h;
    cbn [getPodStatuses_selectors]; [discriminate|].
  unfold bind, perform. cbn [fst snd].
  set (c := runCommand _ _). set (r := oracle w h c).
  destruct (r_err r) eqn:Er.
  - destruct (getPodStatuses_selectors w k rest (h ++ [(c, r)])) as [o t] eqn:E.
    cbn [fst snd]. intros ->.
    specialize (IH (h ++ [(c, r)])). rewrite E in IH.
    destruct (IH eq_refl) as (c' & r' & Hin & Hrest).
    exists c', r'. split; [right; exact Hin | exact Hrest].
  - destruct (nonEmptyLines w (r_out r)) as [|s l] eqn:En.
    + destruct (getPodStatuses_selectors w k rest (h ++ [(c, r)])) as [o t] eqn:E.
      cbn [fst snd]. intros ->.
      specialize (IH (h ++ [(c, r)])). rewrite E in IH.
      destruct (IH eq_refl) as (c' & r' & Hin & Hrest).
      exists c', r'. split; [right; exact Hin | exact Hrest].
    + cbn [fst snd ret app]. intros H. injection H as <-.
      exists c, r. split; [left; reflexivity|].
      split; [reflexivity|]. split; [exact Er|]. split; [auto|discriminate].
Qed.

(** The statuses that the loop over the lines adds: the phases of the
    lines made of a name that contains the service and of a phase. *)
Lemma getPodStatuses_lines_In service lines acc status :
  In status (getPodStatuses_lines service lines acc)
  <-> In status acc
      \/ exists line name,
           In line lines
           /\ strings.Split line ";" = [name; status]
           /\ strings.Contains name service = true.
Proof.
  revert acc. induction lines as [|line rest IH]; intros acc;
    cbn [getPodStatuses_lines].
  - split; [auto|]. intros [H|(l & n & [] & _)]. exact H.
  - assert (Hskip :
      (forall name, strings.Split line ";" = [name; status] ->
                    strings.Contains name service = false) ->
      (In status acc
       \/ (exists l name, In l rest /\ strings.Split l ";" = [name; status]
                          /\ strings.Contains name service = true))
      <-> (In status acc
           \/ exists l name, In l (line :: rest)
                             /\ strings.Split l ";" = [name; status]
                             /\ strings.Contains name service = true)).
    { intros Hno. split.
      - intros [H|(l & n & Hin & Hs & Hc)]; [left; exact H|].
        right. exists l, n. split; [right; exact Hin|]. split; assumption.
      - intros [H|(l & n & [ <- | Hin ] & Hs & Hc)]; [left; exact H| |].
        + rewrite (Hno _ Hs) in Hc. discriminate.
        + right. exists l, n. split; [exact Hin|]. split; assumption. }
    destruct (String.eqb line "") eqn:El.
    { rewrite IH. apply Hskip. intros name Hs.
      apply String.eqb_eq in El. subst line. discriminate Hs. }
    destruct (strings.Split line ";") as [|name [|phase [|x l]]] eqn:Es;
      try (rewrite IH; apply Hskip; intros n Hn; discriminate Hn).
    destruct (strings.Contains name service) eqn:Ec.
    + rewrite IH. rewrite in_app_iff. cbn [In]. split.
      * intros [[H|[ <- | [] ]]|(l & n & Hin & Hs & Hc)].
        -- left. exact H.
        -- right. exists line, name. split; [left; reflexivity|].
           split; [exact Es | exact Ec].
        -- right. exists l, n. split; [right; exact Hin|]. split; assumption.
      * intros [H|(l & n & [ <- | Hin ] & Hs & Hc)].
        -- left. left. exact H.
        -- rewrite Es in Hs. injection Hs as <- <-. left. right. left. reflexivity.
        -- right. exists l, n. split; [exact Hin|]. split; assumption.
    + rewrite IH. apply Hskip. intros n Hn. rewrite ?Es in Hn.
      injection Hn as <- _. exact Ec.
Qed.

Lemma getPodStatuses_run w k service h :
  let sel := getPodStatuses_selectors w k (podSelectors w k service) h in
  let r := oracle w (h ++ snd sel) (all_pod_phases k) in
  getPodStatuses w k service h =
    match fst sel with
    | Some statuses => ((statuses, None), snd sel)
    | None =>
        (match r_err r with
         | Some e => ([], Some e)
         | None =>
             (getPodStatuses_lines service (strings.Split (r_out r) newline) [],
              None)
         end, snd sel ++ [(all_pod_phases k, r)])
    end.
Proof.
  cbv zeta. unfold getPodStatuses, orReturn, bind, perform, ret.
  destruct (getPodStatuses_selectors w k _ h) as [[statuses|] t];
    cbn [fst snd]; [rewrite app_nil_r; reflexivity|].
  fold (all_pod_phases k).
  destruct (r_err (oracle w (h ++ t) (all_pod_phases k))); cbn [fst snd];
    rewrite ?app_nil_r; reflexivity.
Qed.

(** X9.  The statuses that [getPodStatuses] returns come from one query
    that succeeded: either a query with a selector, whose lines they are
    and which has at least one; or the query for all the pods, and then
    they are the phases of the lines made of a name that contains the
    service, a semicolon and a phase. *)
Theorem getPodStatuses_source w k service h statuses :
  fst (getPodStatuses w k service h) = (statuses, None) ->
  (exists c r,
      In (c, r) (snd (getPodStatuses w k service h))
      /\ selector_query c = true
      /\ r_err r = None
      /\ statuses = nonEmptyLines w (r_out r)
      /\ statuses <> [])
  \/ (exists r,
        In (all_pod_phases k, r) (snd (getPodStatuses w k service h))
        /\ r_err r = None
        /\ forall status,
             In status statuses
             <-> exists line name,
                   In line (strings.Split (r_out r) newline)
                   /\ strings.Split line ";" = [name; status]
                   /\ strings.Contains name service = true).
Proof.
  rewrite getPodStatuses_run. cbv zeta.
  destruct (fst (getPodStatuses_selectors w k _ h)) as [found|] eqn:Es;
    cbn [fst snd].
  - intros H. injection H as <-. left.
    exact (getPodStatuses_selectors_source _ _ _ _ Es).
  - destruct (r_err (oracle w _ (all_pod_phases k))) eqn:Er; [discriminate|].
    intros H. injection H as <-. right. eexists.
    split; [apply in_or_app; right; left; reflexivity|].
    split; [exact Er|]. intros status.
    rewrite getPodStatuses_lines_In. cbn [In]. tauto.
Qed.

(** X10.  [IsRunning] fails only when the query for all the pods fails: its
    error is the error of that query, and the answer is then [false].  A
    query with a selector that fails is passed over. *)
Theorem IsRunning_error_source w k service h e :
  snd (fst (IsRunning w k service h)) = Some e ->
  fst (fst (IsRunning w k service h)) = false
  /\ exists r,
       In (all_pod_phases k, r) (snd (IsRunning w k service h))
       /\ r_err r = Some e.
Proof.
  unfold IsRunning, orReturn2, bind, ret. rewrite getPodStatuses_run. cbv zeta.
  destruct (fst (getPodStatuses_selectors w k _ h)); cbn [fst snd];
    [discriminate|].
  destruct (r_err (oracle w _ (all_pod_phases k))) eqn:Er; cbn [fst snd];
    [|discriminate].
  intros H. injection H as <-. split; [reflexivity|]. eexists.
  split; [|exact Er]. rewrite app_nil_r. apply in_or_app. right. left.
  reflexivity.
Qed.
(* ===================================================================== *)
(** * The upload of a backup to S3                                        *)
(* ===================================================================== *)

(** ** The configuration *)

(** [validateS3Config] accepts a configuration exactly when the bucket,
    the access key and the secret key are all set; the endpoint and the
    region are not looked at. *)
Lemma validateS3Config_complete cfg :
  S3.validateS3Config cfg = None
  <-> S3.S3Bucket cfg <> "" /\ S3.S3AccessKeyID cfg <> ""
      /\ S3.S3SecretKey cfg <> "".
Proof.
  unfold S3.validateS3Config.
  destruct (String.eqb_spec (S3.S3Bucket cfg) "") as [Eb|Eb];
    [split; [discriminate | intros (H & _); contradiction]|].
  destruct (String.eqb_spec (S3.S3AccessKeyID cfg) "") as [Ea|Ea];
    [split; [discriminate | intros (_ & H & _); contradiction]|].
  destruct (String.eqb_spec (S3.S3SecretKey cfg) "") as [Es|Es];
    [split; [discriminate | intros (_ & _ & H); contradiction]|].
  split; auto.
Qed.

(** [loadS3Config], field by field. *)
Lemma loadS3Config_eq getenv cfg :
  S3.loadS3Config getenv cfg
    = S3.mkS3Configuration
        (if String.eqb (getenv "S3_BUCKET") "" then S3.S3Bucket cfg
         else getenv "S3_BUCKET")
        (if String.eqb (getenv "S3_ENDPOINT") "" then S3.S3Endpoint cfg
         else getenv "S3_ENDPOINT")
        (if String.eqb (getenv "S3_REGION") "" then "us-east-1"
         else getenv "S3_REGION")
        (if String.eqb (getenv "S3_ACCESS_KEY_ID") "" then S3.S3AccessKeyID cfg
         else getenv "S3_ACCESS_KEY_ID")
        (if String.eqb (getenv "S3_SECRET_ACCESS_KEY") "" then S3.S3SecretKey cfg
         else getenv "S3_SECRET_ACCESS_KEY").
Proof.
  destruct cfg as [b0 e0 r0 a0 s0].
  cbv beta delta [S3.loadS3Config].
  generalize (getenv "S3_BUCKET") (getenv "S3_ENDPOINT")
    (getenv "S3_ACCESS_KEY_ID") (getenv "S3_SECRET_ACCESS_KEY")
    (getenv "S3_REGION").
  intros b e a s r.
  destruct b, e, a, s, r; reflexivity.
Qed.

(** X11.  [loadS3Config]: a variable of the environment that is set
    replaces the field; one that is not set leaves the bucket, the
    endpoint, the access key and the secret key as they were, and sets the
    region to [us-east-1], whatever the region was.  So the region is
    never empty afterwards, and loading twice is loading once. *)
Theorem loadS3Config_fields getenv cfg :
  let field (name : string) (old : string) :=
    if String.eqb (getenv name) "" then old else getenv name in
  let loaded := S3.loadS3Config getenv cfg in
  loaded
    = S3.mkS3Configuration
        (field "S3_BUCKET" (S3.S3Bucket cfg))
        (field "S3_ENDPOINT" (S3.S3Endpoint cfg))
        (field "S3_REGION" "us-east-1")
        (field "S3_ACCESS_KEY_ID" (S3.S3AccessKeyID cfg))
        (field "S3_SECRET_ACCESS_KEY" (S3.S3SecretKey cfg))
  /\ S3.S3Region loaded <> ""
  /\ S3.loadS3Config getenv loaded = loaded.
Proof.
  cbv zeta. rewrite !loadS3Config_eq.
  cbn [S3.S3Bucket S3.S3Endpoint S3.S3Region S3.S3AccessKeyID S3.S3SecretKey].
  generalize (getenv "S3_BUCKET") (getenv "S3_ENDPOINT")
    (getenv "S3_ACCESS_KEY_ID") (getenv "S3_SECRET_ACCESS_KEY")
    (getenv "S3_REGION").
  intros b e a s r.
  split; [reflexivity|]. split.
  - destruct (String.eqb_spec r ""); [discriminate | assumption].
  - destruct (String.eqb b ""), (String.eqb e ""), (String.eqb a ""),
      (String.eqb s ""); reflexivity.
Qed.

(** ** The client *)

Lemma setenvAll_cons oracle key value rest h :
  exists r warn h',
    S3.setenvAll oracle ((key, value) :: rest) h
      = (fst (S3.setenvAll oracle rest h'),
         (S3.Setenv key value, r) :: warn ++ snd (S3.setenvAll oracle rest h'))
    /\ Forall (fun ev : S3.Event => compatibility_call rest (fst ev)) warn.
Proof.
  cbn [S3.setenvAll]. unfold S3.bind, S3.perform, S3.ret. cbn [app].
  exists (oracle h (S3.Setenv key value)).
  destruct (S3.failure (oracle h (S3.Setenv key value))) as [err|].
  - match goal with
    | |- context [S3.setenvAll oracle rest ?hh] =>
        eexists [_], hh; cbn [app]; split;
        [generalize (S3.setenvAll oracle rest hh); intros [u t]; reflexivity|]
    end.
    repeat constructor.
  - match goal with
    | |- context [S3.setenvAll oracle rest ?hh] =>
        exists [], hh; cbn [app]; split;
        [generalize (S3.setenvAll oracle rest hh); intros [u t]; reflexivity|]
    end.
    constructor.
Qed.

(** The loop over the entries: every entry is set, whatever the earlier
    calls returned, and nothing else is. *)
Lemma setenvAll_events oracle entries : forall h,
  let t := snd (S3.setenvAll oracle entries h) in
  (forall key value, In (key, value) entries ->
     exists r, In (S3.Setenv key value, r) t)
  /\ Forall (fun ev : S3.Event => compatibility_call entries (fst ev)) t.
Proof.
  induction entries as [|[key value] rest IH]; intros h; cbv zeta.
  - split; [intros ? ? []|constructor].
  - destruct (setenvAll_cons oracle key value rest h)
      as (r & warn & h' & -> & Hwarn).
    destruct (IH h') as [Hall Honly]. cbn [snd].
    assert (Hweak : forall t : list S3.Event,
              Forall (fun ev => compatibility_call rest (fst ev)) t ->
              Forall (fun ev => compatibility_call ((key, value) :: rest)
                                                   (fst ev)) t).
    { intros t. apply Forall_impl. intros [c rc]. cbn [fst].
      destruct c; cbn; auto. }
    split.
    + intros k v [E|Hin].
      * injection E as <- <-. exists r. left. reflexivity.
      * destruct (Hall k v Hin) as [r' Hr']. exists r'. right.
        apply in_or_app. right. exact Hr'.
    + constructor; [cbn; left; reflexivity|].
      apply Forall_app. split; apply Hweak; assumption.
Qed.

(** [createS3Client], as a run: the events of the compatibility mode,
    then the loading of the SDK configuration, whose reply decides the
    result. *)
Lemma createS3Client_run oracle s3 visited h :
  exists pre cfg,
    S3.createS3Client oracle s3 visited h
      = (match S3.failure cfg with
         | Some err => inl err
         | None => inr (clientFor s3 (S3.loaded cfg))
         end,
         pre ++ [(S3.LoadDefaultConfig (S3.S3Region s3) (S3.S3AccessKeyID s3)
                    (S3.S3SecretKey s3) "", cfg)])
    /\ pre = (if String.eqb (S3.S3Endpoint s3) "" then []
              else snd (S3.setenvAll oracle visited h)).
Proof.
  unfold S3.createS3Client, S3.configureS3CompatibilityMode, clientFor.
  unfold S3.bind at 1.
  destruct (String.eqb (S3.S3Endpoint s3) ""); cbn [negb].
  - unfold S3.ret at 1. unfold S3.bind, S3.perform, S3.ret.
    exists [].
    match goal with
    | |- context [oracle ?hh (S3.LoadDefaultConfig ?a ?b ?c ?d)] =>
        exists (oracle hh (S3.LoadDefaultConfig a b c d));
        split; [|reflexivity];
        destruct (S3.failure (oracle hh (S3.LoadDefaultConfig a b c d)));
        reflexivity
    end.
  - destruct (S3.setenvAll oracle visited h) as [u t]. cbn [snd].
    unfold S3.bind, S3.perform, S3.ret.
    exists t.
    match goal with
    | |- context [oracle ?hh (S3.LoadDefaultConfig ?a ?b ?c ?d)] =>
        exists (oracle hh (S3.LoadDefaultConfig a b c d));
        split; [|reflexivity];
        destruct (S3.failure (oracle hh (S3.LoadDefaultConfig a b c d)));
        reflexivity
    end.
Qed.

(** The events of the compatibility mode are no calls on the file or on
    the bucket. *)
Lemma compatibility_not_file entries (t : list S3.Event) :
  Forall (fun ev => compatibility_call entries (fst ev)) t ->
  Forall (fun ev => file_call (fst ev) = false) t.
Proof.
  apply Forall_impl. intros [c r]. cbn [fst]. destruct c; cbn; tauto.
Qed.

(** [uploadBackupToS3] with the upload enabled and the configuration
    complete, as a run: the client, then the file, its size, the object
    and the closing of the file. *)
Lemma uploadBackupToS3_run oracle config s3 visited backupPath h :
  S3Upload config = true ->
  S3.validateS3Config s3 = None ->
  let run := S3.uploadBackupToS3 oracle config s3 visited backupPath h in
  exists pre cfg,
    let load := (S3.LoadDefaultConfig (S3.S3Region s3) (S3.S3AccessKeyID s3)
                   (S3.S3SecretKey s3) "", cfg) in
    Forall (fun ev => file_call (fst ev) = false) (pre ++ [load])
    /\ match S3.failure cfg with
       | Some err =>
           run = (Some (wrap "failed to create S3 client: %w" err),
                  pre ++ [load])
       | None =>
           exists op,
             match S3.failure op with
             | Some err =>
                 run = (Some (wrap "failed to open backup file: %w" err),
                        pre ++ [load; (S3.Open backupPath, op)])
             | None =>
                 exists stat cl,
                   match S3.failure stat with
                   | Some err =>
                       run = (Some (wrap "failed to stat backup file: %w" err),
                              pre ++ [load; (S3.Open backupPath, op);
                                      (S3.FileStat backupPath, stat);
                                      (S3.FileClose backupPath, cl)])
                   | None =>
                       exists put,
                         run = (option_map (wrap "failed to upload to S3: %w")
                                           (S3.failure put),
                                pre ++ [load; (S3.Open backupPath, op);
                                  (S3.FileStat backupPath, stat);
                                  (S3.PutObject (clientFor s3 (S3.loaded cfg))
                                     (S3.S3Bucket s3) (filepath_Base backupPath)
                                     backupPath (S3.size stat)
                                     "application/gzip", put);
                                  (S3.FileClose backupPath, cl)])
                   end
             end
       end.
Proof.
  intros Hup Hval run.
  destruct (createS3Client_run oracle s3 visited h) as (pre & cfg & Hc & Hpre).
  exists pre, cfg. split.
  { apply Forall_app. split; [|repeat constructor].
    rewrite Hpre. destruct (String.eqb (S3.S3Endpoint s3) ""); [constructor|].
    apply (compatibility_not_file visited).
    apply setenvAll_events. }
  clear Hpre.
  pose proof (eq_refl run) as Hrun. unfold run at 2 in Hrun. clearbody run.
  unfold S3.uploadBackupToS3 in Hrun. rewrite Hup, Hval in Hrun.
  cbn [negb] in Hrun. unfold S3.bind at 1 in Hrun. rewrite Hc in Hrun.
  clear Hc.
  destruct (S3.failure cfg) as [err|].
  { rewrite Hrun. unfold S3.ret. rewrite app_nil_r. reflexivity. }
  cbv beta iota in Hrun. unfold S3.bind at 1 in Hrun.
  unfold S3.perform at 1 in Hrun.
  match type of Hrun with
  | context [oracle ?hh (S3.Open backupPath)] =>
      exists (oracle hh (S3.Open backupPath));
      remember (oracle hh (S3.Open backupPath)) as op eqn:Eop; clear Eop
  end.
  destruct (S3.failure op) as [err|].
  { rewrite Hrun. unfold S3.ret. cbn [app]. rewrite <- app_assoc.
    reflexivity. }
  cbv beta iota in Hrun. unfold S3.bind at 1 in Hrun.
  unfold S3.bind at 1 in Hrun. unfold S3.perform at 1 in Hrun.
  match type of Hrun with
  | context [oracle ?hh (S3.FileStat backupPath)] =>
      exists (oracle hh (S3.FileStat backupPath));
      remember (oracle hh (S3.FileStat backupPath)) as stat eqn:Estat;
      clear Estat
  end.
  destruct (S3.failure stat) as [err|].
  { unfold S3.ret, S3.bind, S3.perform in Hrun. cbn [app] in Hrun.
    eexists. rewrite Hrun. rewrite <- app_assoc. cbn [app]. reflexivity. }
  cbv beta iota zeta in Hrun. unfold S3.bind at 1 in Hrun.
  unfold S3.perform at 1 in Hrun.
  match type of Hrun with
  | context [oracle ?hh (S3.PutObject ?a ?b ?c ?d ?e ?f)] =>
      remember (oracle hh (S3.PutObject a b c d e f)) as put eqn:Eput;
      clear Eput
  end.
  unfold S3.ret, S3.bind, S3.perform in Hrun. cbn [app] in Hrun.
  eexists. exists put. rewrite Hrun.
  destruct (S3.failure put); cbn [option_map app]; rewrite <- app_assoc;
    cbn [app]; reflexivity.
Qed.

(** The cases of [uploadBackupToS3_run], for a proof about the events of
    the upload: the events are named [t]. *)
Ltac upload_cases oracle config s3 visited backupPath h Hup Hval :=
  let pre := fresh "pre" in
  let cfg := fresh "cfg" in
  let Hpre := fresh "Hpre" in
  let Hrun := fresh "Hrun" in
  destruct (@uploadBackupToS3_run oracle config s3 visited backupPath h Hup Hval)
    as (pre & cfg & Hpre & Hrun);
  cbv zeta in Hpre, Hrun;
  destruct (S3.failure cfg) as [?err|] eqn:?Ecfg;
  [|destruct Hrun as (?op & Hrun);
    destruct (S3.failure op) as [?err|] eqn:?Eop;
    [|destruct Hrun as (?stat & ?cl & Hrun);
      destruct (S3.failure stat) as [?err|] eqn:?Estat;
      [|destruct Hrun as (?put & Hrun)]]];
  rewrite Hrun; clear Hrun; cbn [fst snd].

(** An event of the upload that is a call on the file or on the bucket
    is none of the events of the client. *)
Lemma file_call_in_tail (pre tail : list S3.Event) load c r :
  Forall (fun ev => file_call (fst ev) = false) (pre ++ [load]) ->
  file_call c = true ->
  In (c, r) (pre ++ load :: tail) -> In (c, r) tail.
Proof.
  intros Hpre Hc Hin.
  change (pre ++ load :: tail) with (pre ++ [load] ++ tail) in Hin.
  rewrite app_assoc in Hin.
  apply in_app_or in Hin. destruct Hin as [Hin|Hin]; [|exact Hin].
  rewrite Forall_forall in Hpre. apply Hpre in Hin. cbn [fst] in Hin.
  congruence.
Qed.

(** X12.  With a custom endpoint, [createS3Client] sets every variable of
    the compatibility mode before it loads the SDK configuration, in
    whatever order the map is visited and whether or not an earlier
    [Setenv] failed, and sets nothing else; the client has the endpoint
    and path-style addressing.  Without an endpoint no variable is set.
    The result is the error of the loading or the client: a failure to set
    a variable is logged and does not stop the upload. *)
Theorem createS3Client_compatibility oracle s3 visited h :
  (forall entry, In entry visited <-> In entry S3.envVars) ->
  exists pre cfg,
    S3.createS3Client oracle s3 visited h
      = (match S3.failure cfg with
         | Some err => inl err
         | None =>
             inr (if String.eqb (S3.S3Endpoint s3) ""
                  then S3.mkClient (S3.loaded cfg) None false
                  else S3.mkClient (S3.loaded cfg)
                                   (Some (S3.S3Endpoint s3)) true)
         end,
         pre ++ [(S3.LoadDefaultConfig (S3.S3Region s3) (S3.S3AccessKeyID s3)
                    (S3.S3SecretKey s3) "", cfg)])
    /\ (S3.S3Endpoint s3 = "" -> pre = [])
    /\ (S3.S3Endpoint s3 <> "" ->
        (forall key value, In (key, value) S3.envVars ->
           exists r, In (S3.Setenv key value, r) pre)
        /\ Forall (fun ev => compatibility_call S3.envVars (fst ev)) pre).
Proof.
  intros Hvisited.
  destruct (createS3Client_run oracle s3 visited h) as (pre & cfg & Hc & Hpre).
  exists pre, cfg. split; [exact Hc|].
  destruct (String.eqb_spec (S3.S3Endpoint s3) "") as [E|E].
  - split; [intros _; exact Hpre | intros Hn; contradiction].
  - split; [intros He; contradiction|]. intros _. subst pre.
    destruct (setenvAll_events oracle visited h) as [Hall Honly].
    split.
    + intros key value Hin. apply Hall, Hvisited, Hin.
    + revert Honly. apply Forall_impl. intros [c r]. cbn [fst].
      destruct c; cbn; auto. apply Hvisited.
Qed.

(** X13.  [uploadBackupToS3] touches nothing (no variable of the
    environment, no SDK call, no file) exactly when the upload is disabled
    or the bucket, the access key or the secret key is missing; its result
    is then [nil] when the upload is disabled and else the error of
    [validateS3Config]. *)
Theorem uploadBackupToS3_inactive oracle config s3 visited backupPath h :
  let run := S3.uploadBackupToS3 oracle config s3 visited backupPath h in
  (snd run = []
   <-> S3Upload config = false \/ S3.S3Bucket s3 = ""
       \/ S3.S3AccessKeyID s3 = "" \/ S3.S3SecretKey s3 = "")
  /\ (snd run = [] ->
      fst run = if S3Upload config then S3.validateS3Config s3 else None)
  /\ (S3Upload config = true ->
      S3.validateS3Config s3 <> None -> fst run = S3.validateS3Config s3).
Proof.
  cbv zeta.
  destruct (S3Upload config) eqn:Hup.
  2:{ unfold S3.uploadBackupToS3. rewrite Hup. cbn. intuition congruence. }
  destruct (S3.validateS3Config s3) as [e|] eqn:Hval.
  - assert (Hrun : S3.uploadBackupToS3 oracle config s3 visited backupPath h
                   = (Some e, [])).
    { unfold S3.uploadBackupToS3. rewrite Hup, Hval. reflexivity. }
    rewrite Hrun. cbn [fst snd].
    split; [|split; reflexivity].
    split; [intros _|reflexivity]. right.
    destruct (String.eqb_spec (S3.S3Bucket s3) ""); [tauto|].
    destruct (String.eqb_spec (S3.S3AccessKeyID s3) ""); [tauto|].
    destruct (String.eqb_spec (S3.S3SecretKey s3) ""); [tauto|].
    exfalso. assert (Hnone : S3.validateS3Config s3 = None)
      by (apply validateS3Config_complete; auto).
    congruence.
  - assert (Hne : snd (S3.uploadBackupToS3 oracle config s3 visited backupPath h)
                  <> []).
    { upload_cases oracle config s3 visited backupPath h Hup Hval.
      all: intros Hnil; apply app_eq_nil in Hnil; destruct Hnil as [_ Hnil];
        discriminate Hnil. }
    apply validateS3Config_complete in Hval. destruct Hval as (Hb & Ha & Hs).
    split; [|split; [intros Hnil; contradiction | intros _ Hc; congruence]].
    split; [intros Hnil; contradiction|].
    intros [H|[H|[H|H]]]; congruence.
Qed.

(** X14.  Once [uploadBackupToS3] has opened the backup file, closing it is
    the last thing it does, whether the size cannot be read, the upload
    fails or all goes well; and it closes no file that it did not open. *)
Theorem uploadBackupToS3_closes_file oracle config s3 visited backupPath h :
  let t := snd (S3.uploadBackupToS3 oracle config s3 visited backupPath h) in
  (forall name r,
     In (S3.Open name, r) t -> S3.failure r = None ->
     exists t' rc, t = t' ++ [(S3.FileClose name, rc)])
  /\ (forall name rc,
        In (S3.FileClose name, rc) t ->
        exists r, In (S3.Open name, r) t /\ S3.failure r = None).
Proof.
  cbv zeta.
  destruct (S3Upload config) eqn:Hup.
  2:{ unfold S3.uploadBackupToS3. rewrite Hup. cbn.
      split; [intros ? ? []|intros ? ? []]. }
  destruct (S3.validateS3Config s3) as [e|] eqn:Hval.
  { unfold S3.uploadBackupToS3. rewrite Hup, Hval. cbn.
    split; [intros ? ? []|intros ? ? []]. }
  upload_cases oracle config s3 visited backupPath h Hup Hval.
  all: split; intros name r Hin; try intros Hok.
  all: apply file_call_in_tail in Hin; [|exact Hpre|reflexivity].
  all: cbn [In] in Hin; try contradiction.
  all: decompose [or] Hin; clear Hin; try contradiction; try discriminate.
  all: match goal with
       | E : (_, _) = (_, _) |- _ => injection E as <- <-
       end.
  all: try congruence.
  - eexists (pre ++ [_; _; _]), cl. rewrite <- app_assoc. reflexivity.
  - exists op. split; [|exact Eop]. apply in_or_app. right. right. left.
    reflexivity.
  - eexists (pre ++ [_; _; _; _]), cl. rewrite <- app_assoc. reflexivity.
  - exists op. split; [|exact Eop]. apply in_or_app. right. right. left.
    reflexivity.
Qed.

(** X15.  [uploadBackupToS3] returns [nil] exactly when the upload is
    disabled or the object was put and the bucket accepted it.  Whatever it
    puts goes to the configured bucket under the file name of the backup,
    without its directory, with the size that [Stat] gave and the gzip
    content type, through a client that has the configured endpoint. *)
Theorem uploadBackupToS3_success oracle config s3 visited backupPath h :
  let run := S3.uploadBackupToS3 oracle config s3 visited backupPath h in
  (fst run = None
   <-> S3Upload config = false
       \/ exists client stat put,
            In (S3.FileStat backupPath, stat) (snd run)
            /\ In (S3.PutObject client (S3.S3Bucket s3)
                     (filepath_Base backupPath) backupPath (S3.size stat)
                     "application/gzip", put) (snd run)
            /\ S3.failure put = None)
  /\ (forall client bucket key body contentLength contentType put,
        In (S3.PutObject client bucket key body contentLength contentType,
            put) (snd run) ->
        bucket = S3.S3Bucket s3 /\ key = filepath_Base backupPath
        /\ body = backupPath /\ contentType = "application/gzip"
        /\ S3.BaseEndpoint client
           = (if String.eqb (S3.S3Endpoint s3) "" then None
              else Some (S3.S3Endpoint s3))
        /\ S3.UsePathStyle client = negb (String.eqb (S3.S3Endpoint s3) "")
        /\ exists stat,
             In (S3.FileStat backupPath, stat) (snd run)
             /\ S3.failure stat = None /\ contentLength = S3.size stat).
Proof.
  cbv zeta.
  destruct (S3Upload config) eqn:Hup.
  2:{ unfold S3.uploadBackupToS3. rewrite Hup. cbn.
      split; [split; auto|intros ? ? ? ? ? ? ? []]. }
  destruct (S3.validateS3Config s3) as [e|] eqn:Hval.
  { unfold S3.uploadBackupToS3. rewrite Hup, Hval. cbn.
    split; [|intros ? ? ? ? ? ? ? []].
    split; [discriminate|].
    intros [H|(? & ? & ? & [] & _)]. discriminate H. }
  upload_cases oracle config s3 visited backupPath h Hup Hval.
  all: split;
    [split;
     [|intros [H|(client & stat' & put' & _ & Hin & Hok)];
       [discriminate H|]]
    |intros client bucket key body contentLength contentType put' Hin].
  all: try (apply file_call_in_tail in Hin; [|exact Hpre|reflexivity];
            cbn [In] in Hin; try contradiction;
            decompose [or] Hin; clear Hin; try contradiction;
            try discriminate).
  all: try discriminate.
  - destruct (S3.failure put) as [e|] eqn:Eput; [discriminate|]. intros _.
    right. exists (clientFor s3 (S3.loaded cfg)), stat, put.
    split; [apply in_or_app; right; right; right; left; reflexivity|].
    split; [|exact Eput].
    apply in_or_app; right; right; right; right; left; reflexivity.
  - match goal with
    | E : (_, _) = (_, _) |- _ => injection E as _ _ <-
    end.
    rewrite Hok. reflexivity.
  - match goal with
    | E : (_, _) = (_, _) |- _ => injection E as <- <- <- <- <- <- <-
    end.
    repeat (split; [reflexivity|]).
    unfold clientFor.
    split; [destruct (String.eqb (S3.S3Endpoint s3) ""); reflexivity|].
    split; [destruct (String.eqb (S3.S3Endpoint s3) ""); reflexivity|].
    exists stat. split; [|split; [exact Estat|reflexivity]].
    apply in_or_app; right; right; right; left; reflexivity.
Qed.
(* ===================================================================== *)
(** * The procedures on the database and on the task manager              *)
(* ===================================================================== *)

(** ** Runs that end with a clean-up *)

Lemma ends_with_app ok c t1 t2 :
  ends_with ok c t2 -> ends_with ok c (t1 ++ t2).
Proof.
  intros (body & r & post & -> & Hpost).
  exists (t1 ++ body), r, post. split; [apply app_assoc|exact Hpost].
Qed.

(** [ends_with] for a run whose calls are known. *)
Ltac ends_with_split body :=
  exists body; do 2 eexists;
  split; [cbn [app]; reflexivity|];
  unfold calls; cbn [map fst]; solve [repeat constructor].

Ltac ends_with_tac :=
  unfold ends_with; cbn [app];
  first
    [ ends_with_split (@nil Event)
    | match goal with
      | |- exists _ _ _, ?a :: _ = _ /\ _ => ends_with_split [a]
      end
    | match goal with
      | |- exists _ _ _, ?a :: ?b :: _ = _ /\ _ => ends_with_split [a; b]
      end
    | match goal with
      | |- exists _ _ _, ?a :: ?b :: ?c :: _ = _ /\ _ =>
          ends_with_split [a; b; c]
      end
    | match goal with
      | |- exists _ _ _, ?a :: ?b :: ?c :: ?d :: _ = _ /\ _ =>
          ends_with_split [a; b; c; d]
      end
    | match goal with
      | |- exists _ _ _, ?a :: ?b :: ?c :: ?d :: ?e :: _ = _ /\ _ =>
          ends_with_split [a; b; c; d; e]
      end ].

(** ** The enterprise restore *)

(** X16.  [restoreNeo4jEnterprise] returns [nil] exactly when it has
    started the database again and the start succeeded.  The start is its
    last command and comes only when every command before it succeeded:
    when the restore, the migration or the metadata script fails, the
    database is left stopped.  The migration runs only on request. *)
Theorem restoreNeo4jEnterprise_starts_last w restoreMigrateFormat h :
  let run := restoreNeo4jEnterprise w restoreMigrateFormat h in
  (fst run = None
   <-> exists r, In (start_database w, r) (snd run) /\ r_err r = None)
  /\ (forall r,
        In (start_database w, r) (snd run) ->
        exists body,
          snd run = body ++ [(start_database w, r)]
          /\ In (stop_database w) (calls body)
          /\ forall c r', In (c, r') body -> r_err r' = None)
  /\ (restoreMigrateFormat = false -> avoids is_migrate (snd run)).
Proof.
  cbv zeta. wp_start (restoreNeo4jEnterprise w restoreMigrateFormat) h.
  unfold restoreNeo4jEnterprise. repeat wp_step.
  all: repeat match goal with H : answers _ _ _ _ |- _ => clear H end.
  all: cbn [app].
  all: split; [split; [try discriminate; intros _
                      |intros (r' & Hin & Hok); try reflexivity; exfalso]
              |split; [intros r' Hin|intros Hmig; try discriminate Hmig]].
  all: try (in_events Hin).
  all: try solve [avoids_tac].
  all: try congruence.
  all: try match goal with
           | H : (_, _) = (start_database _, _) |- _ => injection H as <-
           end.
  all: try (match goal with
            | |- exists body, ?l = _ /\ _ => exists (removelast l)
            end;
            cbn [removelast]; split; [reflexivity|]; split;
            [left; reflexivity
            |let Hin := fresh "Hin" in
             intros c r'' Hin; cbn [In] in Hin; decompose [or] Hin;
             clear Hin; try contradiction; congruence]).
  all: eexists; split;
    [cbn [In]; repeat (first [left; reflexivity | right])|assumption].
Qed.

(** ** Clean-up of temporary files *)

Ltac forget_answers :=
  repeat match goal with H : answers _ _ _ _ |- _ => clear H end.

(** Membership of an event with a successful reply in a run whose calls
    are known: the events whose reply is an error are refuted. *)
Ltac in_ok_events H :=
  cbn [app In] in H; decompose [or] H; clear H; try contradiction;
  try discriminate;
  repeat match goal with
         | E : (_, _) = (_, _) |- _ => injection E; clear E; intros; subst
         end;
  try congruence.

(** X17.  Once [stopNeo4jCommunity] has written the watchdog binary to a
    local temporary file, it removes that file as its last call, on every
    path: whether the deployment of the watchdog, the stop signal or the
    wait fails, or all succeeds.  It removes no other file. *)
Theorem stopNeo4jCommunity_removes_watchdog w pidStr h :
  let t := snd (stopNeo4jCommunity w pidStr h) in
  (forall bytes tmp,
     In (writeEmbeddedWatchdog bytes, tmp) t -> r_err tmp = None ->
     exists body r, t = body ++ [(cleanup (r_out tmp), r)])
  /\ (forall file r,
        In (cleanup file, r) t ->
        exists bytes tmp,
          In (writeEmbeddedWatchdog bytes, tmp) t
          /\ r_err tmp = None /\ file = r_out tmp).
Proof.
  cbv zeta. wp_start (stopNeo4jCommunity w pidStr) h.
  unfold stopNeo4jCommunity, detectNeo4jArchitecture. repeat wp_step.
  all: forget_answers; cbn [app].
  all: split; [intros bytes tmp Hin Hok|intros file r' Hin].
  all: in_ok_events Hin.
  all: first
    [ match goal with
      | |- exists body r, ?l = _ => exists (removelast l)
      end; cbn [removelast]; eexists; reflexivity
    | do 2 eexists; split;
      [cbn [In]; repeat (first [left; reflexivity | right])
      |split; [eassumption|reflexivity]] ].
Qed.

(** X18.  The temporary directory of the database container is removed on
    every path.  Once [backupNeo4jEnterprise] has created it, and once
    [restoreNeo4j] has copied the backup into it, its removal is the last
    command of the function, whatever happened in between; a removal that
    fails is logged and does not change the result. *)
Theorem temporary_directory_removed w :
  (forall backupDir backupMetadata h,
     let run := backupNeo4jEnterprise w backupDir backupMetadata h in
     (forall r,
        In (Exec "database" ["mkdir"; "-p"; neo4jTempBackupDir] None, r)
           (snd run) ->
        r_err r = None -> ends_with is_log remove_temp_dir (snd run))
     /\ (fst run = None
         <-> exists r,
               In (CopyFrom "database" neo4jTempBackupDir
                     (filepath.Join [backupDir; "database"]), r) (snd run)
               /\ r_err r = None))
  /\ (forall workDir neo4jEdition restoreMigrateFormat h,
        let run := restoreNeo4j w workDir neo4jEdition restoreMigrateFormat h in
        forall r,
          In (CopyTo "database" (filepath.Join [workDir; "backup"; "database"])
                neo4jTempBackupDir, r) (snd run) ->
          r_err r = None -> ends_with is_log remove_temp_dir (snd run)).
Proof.
  split.
  - intros backupDir backupMetadata h. cbv zeta.
    wp_start (backupNeo4jEnterprise w backupDir backupMetadata) h.
    unfold backupNeo4jEnterprise. repeat wp_step.
    all: forget_answers; cbn [app].
    all: split;
      [intros r' Hin Hok
      |split; [try discriminate; intros _
              |intros (r' & Hin & Hok); try reflexivity; exfalso]].
    all: try (in_ok_events Hin; fail).
    all: try (unfold remove_temp_dir; ends_with_tac; fail).
    all: eexists; split;
      [cbn [In]; repeat (first [left; reflexivity | right])|assumption].
  - intros workDir neo4jEdition restoreMigrateFormat h. cbv zeta.
    wp_start (restoreNeo4j w workDir neo4jEdition restoreMigrateFormat) h.
    unfold restoreNeo4j. repeat wp_step.
    all: try lazymatch goal with
             | |- wp _ _ _ => apply wp_sub; intros a e _; repeat wp_step
             end.
    all: forget_answers; intros r' Hin Hok.
    all: try (in_ok_events Hin; fail).
    all: clear Hin; unfold remove_temp_dir.
    all: try (cbn [app]; ends_with_tac; fail).
    all: apply (ends_with_app [_]); apply (ends_with_app [_]);
      apply ends_with_app; cbn [app]; ends_with_tac.
Qed.

(** X19.  The dump of the task-manager database does not stay in the
    container.  Once [backupTaskManagerDB] has made the dump, and once
    [restorePostgreSQL] has copied the dump into the container, the removal
    of that file is the last command of the function, whether the copy or
    the restore that follows fails or not; a removal that fails is logged
    and does not change the result. *)
Theorem task_manager_dump_removed w :
  let dumpFile (tmp : Reply) := (r_out tmp ++ "/infrahubops_prefect.dump")%string in
  let remove tmp := Exec "task-manager-db" ["rm"; dumpFile tmp] None in
  (forall backupDir h,
     let run := backupTaskManagerDB w backupDir h in
     exists tmp,
       In (getWritableTempDir "task-manager-db", tmp) (snd run)
       /\ (forall args opts r,
             In (Exec "task-manager-db" ("pg_dump" :: args) opts, r) (snd run) ->
             r_err r = None -> ends_with is_log (remove tmp) (snd run))
       /\ (fst run = None
           <-> exists r,
                 In (CopyFrom "task-manager-db" (dumpFile tmp)
                       (filepath.Join [backupDir; "prefect.dump"]), r)
                    (snd run)
                 /\ r_err r = None))
  /\ (forall workDir h,
        let run := restorePostgreSQL w workDir h in
        (forall tmp src r,
           In (getWritableTempDir "task-manager-db", tmp) (snd run) ->
           In (CopyTo "task-manager-db" src (dumpFile tmp), r) (snd run) ->
           r_err r = None -> ends_with is_log (remove tmp) (snd run))
        /\ (fst run = None
            <-> exists args opts r,
                  In (Exec "task-manager-db" ("pg_restore" :: args) opts, r)
                     (snd run)
                  /\ r_err r = None)).
Proof.
  cbv zeta. split.
  - intros backupDir h.
    wp_start (backupTaskManagerDB w backupDir) h.
    unfold backupTaskManagerDB. repeat wp_step.
    all: forget_answers; cbn [app].
    all: match goal with
         | |- context [(getWritableTempDir _, ?tmp)] => exists tmp
         end.
    all: split; [left; reflexivity|].
    all: split;
      [intros args opts r' Hin Hok
      |split; [try discriminate; intros _
              |intros (r' & Hin & Hok); try reflexivity; exfalso]].
    all: try (in_ok_events Hin; fail).
    all: try (ends_with_tac; fail).
    all: eexists; split;
      [cbn [In]; repeat (first [left; reflexivity | right])|assumption].
  - intros workDir h.
    wp_start (restorePostgreSQL w workDir) h.
    unfold restorePostgreSQL. repeat wp_step.
    all: forget_answers; cbn [app].
    all: split;
      [intros tmp src r' Htmp Hin Hok
      |split; [try discriminate; intros _
              |intros (args & opts & r' & Hin & Hok); try reflexivity;
               exfalso]].
    all: try (in_ok_events Hin; fail).
    all: try (in_ok_events Htmp; in_ok_events Hin; ends_with_tac; fail).
    all: do 3 eexists; split;
      [cbn [In]; repeat (first [left; reflexivity | right])|assumption].
Qed.

(** ** What the procedures never do *)

(** X20.  With an edition other than the community edition, the backup and
    the restore of the database send no signal to the database process and
    do not read its PID file: the pause of the process belongs to the
    community procedures only. *)
Theorem enterprise_sends_no_signal w neo4jEdition :
  strings.ToLower (lowerCase w) neo4jEdition <> neo4jEditionCommunity w ->
  let read_pid := Exec "database" ["cat"; neo4jPIDFile w] None in
  (forall backupDir backupMetadata h,
     let t := snd (backupDatabase w backupDir backupMetadata neo4jEdition h) in
     no_kill t /\ ~ In read_pid (calls t))
  /\ (forall workDir restoreMigrateFormat h,
        let t := snd (restoreNeo4j w workDir neo4jEdition
                        restoreMigrateFormat h) in
        no_kill t /\ ~ In read_pid (calls t)).
Proof.
  intros Hed. apply String.eqb_neq in Hed. cbv zeta. split.
  - intros backupDir backupMetadata h. unfold backupDatabase. rewrite Hed.
    wp_start (backupNeo4jEnterprise w backupDir backupMetadata) h.
    unfold backupNeo4jEnterprise. repeat wp_step.
    all: forget_answers; cbn [app].
    all: split; [no_kill_tac|].
    all: cbn [calls map fst]; intros Hin; in_events Hin.
  - intros workDir restoreMigrateFormat h.
    wp_start (restoreNeo4j w workDir neo4jEdition restoreMigrateFormat) h.
    unfold restoreNeo4j. rewrite Hed. unfold restoreNeo4jEnterprise.
    repeat wp_step.
    all: forget_answers; cbn [app].
    all: split; [no_kill_tac|].
    all: cbn [calls map fst]; intros Hin; in_events Hin.
Qed.

(** X21.  Without the request to migrate the store format, [restoreNeo4j]
    runs no [neo4j-admin database migrate], with either edition. *)
Theorem restoreNeo4j_migrates_on_request w workDir neo4jEdition h :
  avoids is_migrate (snd (restoreNeo4j w workDir neo4jEdition false h)).
Proof.
  revert h. change (quiet is_migrate (restoreNeo4j w workDir neo4jEdition false)).
  unfold restoreNeo4j, restoreNeo4jCommunity, restoreNeo4jEnterprise,
    restoreDeferred, loadNeo4jCommunity, resumeNeo4j, stopNeo4jCommunity,
    readNeo4jPID, detectNeo4jArchitecture.
  cbv iota. quiet_tac.
Qed.
(* ===================================================================== *)
(** * CreateBackup and RestoreBackup: the services and the work directory *)
(* ===================================================================== *)

(** ** Stepping through a run that calls other functions *)

(** A run that is not stepped into and makes no call of the kind [P]. *)
Lemma wp_quiet {A} P (m : M A) h (Q : A -> list Event -> Prop) :
  quiet P m -> (forall a e, avoids P e -> Q a e) -> wp m h Q.
Proof. intros Hq H. apply H, Hq. Qed.

Ltac wp_list_step :=
  lazymatch goal with
  | |- wp (match ?x with [] => _ | _ :: _ => _ end) _ _ =>
      let E := fresh "E" in destruct x eqn:E
  end; cbv beta iota delta [fst snd].

(** The calls of [procedure_call] are none of the kinds below. *)
Lemma procedure_not_lifecycle c : procedure_call c = true -> lifecycle c = false.
Proof. destruct c; (reflexivity || discriminate). Qed.

Lemma procedure_not_wait c : procedure_call c = true -> is_wait c = false.
Proof. destruct c; (reflexivity || discriminate). Qed.

Lemma procedure_not_temp c : procedure_call c = true -> makes_temp c = false.
Proof. destruct c; (reflexivity || discriminate). Qed.

Lemma procedure_not_upload c : procedure_call c = true -> is_upload c = false.
Proof. destruct c; (reflexivity || discriminate). Qed.

(** ** The services that CreateBackup stops *)

Lemma restarted_skip c r t :
  lifecycle c = false -> restarted t -> restarted ((c, r) :: t).
Proof.
  intros Hc [Hq|(pre & st & post & -> & Hpre & Hpost)].
  - left. constructor; assumption.
  - right. exists ((c, r) :: pre), st, post.
    split; [reflexivity|]. split; [constructor; assumption|exact Hpost].
Qed.

Lemma restarted_stop st post :
  match r_list st with
  | [] => avoids lifecycle post
  | _ :: _ =>
      exists mid r tail,
        post = mid ++ (startAppContainers (r_list st), r) :: tail
        /\ avoids lifecycle mid
        /\ Forall (fun c => is_log c = true) (calls tail)
  end ->
  restarted ((stopAppContainers, st) :: post).
Proof.
  intros H. right. exists [], st, post.
  split; [reflexivity|]. split; [constructor|exact H].
Qed.

Lemma Delegated_writeBackup_quiet P w neo4jMetadata excl version info :
  (forall c, procedure_call c = true -> P c = false) ->
  P generateBackupFilename = false ->
  (forall dir pattern, P (MkdirTemp dir pattern) = false) ->
  (forall path, P (RemoveAll path) = false) ->
  (forall dir e, P (calculateBackupChecksums dir e) = false) ->
  (forall path data perm, P (WriteFile path data perm) = false) ->
  (forall a b c, P (createTarball a b c) = false) ->
  (forall path, P (Stat path) = false) ->
  (forall path, P (uploadBackupToS3 path) = false) ->
  quiet P (Delegated.writeBackup w neo4jMetadata excl version info).
Proof.
  intros Hproc H1 H2 H3 H4 H5 H6 H7 H8.
  pose proof (@dumpDatabases_quiet P Hproc) as Hd.
  unfold Delegated.writeBackup, Delegated.packageBackup.
  repeat first
    [ apply quiet_perform;
      first [exact H1 | apply H2 | apply H3 | apply H4 | apply H5 | apply H6
            | apply H7 | apply H8]
    | apply Hd
    | quiet_step ].
Qed.

(** X22.  [CreateBackup] restarts what it stops.  In every run the
    application containers are stopped at most once; when that stop names
    the services it stopped, whether it failed half-way or succeeded,
    exactly those services are started again later, on every path of the
    backup, and the start is the last thing the run does but for log
    lines. *)
Theorem CreateBackup_restarts_stopped_services
    w force neo4jMetadata excludeTaskManager h :
  restarted (snd (Delegated.CreateBackup w force neo4jMetadata
                    excludeTaskManager h)).
Proof.
  wp_start (Delegated.CreateBackup w force neo4jMetadata excludeTaskManager) h.
  unfold Delegated.CreateBackup, restartDeferred.
  repeat first
    [ wp_step
    | wp_list_step
    | lazymatch goal with
      | |- wp (Delegated.writeBackup _ _ _ _ _) _ _ =>
          apply (@wp_quiet _ lifecycle);
          [apply Delegated_writeBackup_quiet;
           first [exact procedure_not_lifecycle | reflexivity]
          |intros a e Hq]
      end ].
  all: forget_answers; cbn [app].
  all: repeat (apply restarted_skip; [reflexivity|]).
  all: try (left; first [constructor | exact Hq]; fail).
  all: try (rewrite app_nil_r; left; exact Hq).
  all: apply restarted_stop.
  all: repeat match goal with E : r_list _ = _ |- _ => rewrite E end.
  all: try (constructor; fail).
  all: try (rewrite app_nil_r; exact Hq).
  all: first
    [ exists []; do 2 eexists; split; [reflexivity|];
      split; [constructor|unfold calls; cbn [map fst]; repeat constructor]
    | exists e; do 2 eexists; split; [reflexivity|];
      split; [exact Hq|unfold calls; cbn [map fst]; repeat constructor] ].
Qed.

(** ** The wait for the running tasks *)

(** Membership of an event in a run of known calls and of runs that are
    not stepped into. *)
Ltac split_in H :=
  repeat match type of H with
         | In _ (_ :: _) =>
             destruct H as [H|H];
             [try discriminate H;
              try (injection H; clear H; intros; subst)|]
         | In _ (_ ++ _) => apply in_app_or in H; destruct H as [H|H]
         | In _ [] => destruct H
         | In _ (map _ (_ ++ _)) => rewrite map_app in H
         | In _ (map _ (_ :: _)) => cbn [map fst] in H
         | In _ (map _ []) => destruct H
         end.

Lemma avoids_calls_In P (t : list Event) c :
  avoids P t -> In c (map fst t) -> P c = false.
Proof. unfold avoids, calls. rewrite Forall_forall. auto. Qed.

(** An event, or a call, of a run that avoids its kind. *)
Ltac avoided H :=
  try match goal with
      | Hq : avoids _ ?e |- _ =>
          match type of H with
          | In _ e => apply (@avoids_In _ _ _ _ Hq) in H; discriminate H
          | In _ (map fst e) => apply (@avoids_calls_In _ _ _ Hq) in H; discriminate H
          end
      end.


Lemma CreateBackup_forced_quiet w neo4jMetadata excl :
  quiet is_wait (Delegated.CreateBackup w true neo4jMetadata excl).
Proof.
  unfold Delegated.CreateBackup, restartDeferred. cbn [negb].
  repeat first
    [ apply Delegated_writeBackup_quiet;
      first [exact procedure_not_wait | reflexivity]
    | quiet_step ].
Qed.

(** X23.  With [--force], [CreateBackup] does not wait for the running
    tasks.  Without it, an error of the wait is the result of the backup,
    and nothing is stopped, dumped, written or archived unless the wait
    returned without error. *)
Theorem CreateBackup_waits_unless_forced w neo4jMetadata excludeTaskManager h :
  avoids is_wait
    (snd (Delegated.CreateBackup w true neo4jMetadata excludeTaskManager h))
  /\ (let run := Delegated.CreateBackup w false neo4jMetadata
                   excludeTaskManager h in
      (forall r e,
         In (waitForRunningTasks, r) (snd run) -> r_err r = Some e ->
         fst run = Some e)
      /\ (forall c,
            In c (calls (snd run)) ->
            destructive c = true \/ archives c = true \/ makes_temp c = true ->
            exists r, In (waitForRunningTasks, r) (snd run) /\ r_err r = None)).
Proof.
  split; [apply CreateBackup_forced_quiet|]. cbv zeta.
  wp_start (Delegated.CreateBackup w false neo4jMetadata excludeTaskManager) h.
  unfold Delegated.CreateBackup, restartDeferred. cbn [negb].
  repeat first
    [ wp_step
    | wp_list_step
    | lazymatch goal with
      | |- wp (Delegated.writeBackup _ _ _ _ _) _ _ =>
          apply (@wp_quiet _ is_wait);
          [apply Delegated_writeBackup_quiet;
           first [exact procedure_not_wait | reflexivity]
          |intros a e Hq]
      end ].
  all: forget_answers; cbn [app].
  all: split; [intros r' e' Hin Hok|intros c Hin Hc].
  all: try match goal with
           | E : r_err ?r = None |- exists _, In (waitForRunningTasks, _) _ /\ _ =>
               match goal with
               | |- context [(waitForRunningTasks, r)] =>
                   exists r; split; [|exact E];
                   cbn [In]; repeat (first [left; reflexivity | right])
               end
           end.
  all: try (unfold calls in Hin; cbn [map fst In] in Hin;
            decompose [or] Hin; clear Hin; try contradiction; subst c;
            destruct Hc as [Hc|[Hc|Hc]]; discriminate Hc).
  all: split_in Hin.
  all: try congruence.
  all: avoided Hin.
Qed.

(** ** The work directory *)

Lemma ends_with_cons ok c ev t : ends_with ok c t -> ends_with ok c (ev :: t).
Proof. apply (ends_with_app [ev]). Qed.

Lemma ends_with_here ok c r post :
  Forall (fun c' => ok c' = true) (calls post) -> ends_with ok c ((c, r) :: post).
Proof. intros H. exists [], r, post. split; [reflexivity|exact H]. Qed.

(** [ends_with] for a run of known calls and of runs that are not stepped
    into: the call is looked for from the start. *)
Ltac ends_with_search :=
  repeat (rewrite <- ?app_assoc, ?app_nil_r; cbn [app]);
  repeat first
    [ apply ends_with_here; unfold calls; cbn [map fst];
      solve [repeat constructor]
    | apply ends_with_cons
    | apply ends_with_app ].

Lemma applyRestore_quiet P w workDir neo4jEdition validatePrefect mig :
  (forall c, procedure_call c = true -> P c = false) ->
  P wipeTransientData = false ->
  P stopAppContainers = false ->
  P restartDependencies = false ->
  quiet P (applyRestore w workDir neo4jEdition validatePrefect mig).
Proof.
  intros Hproc H1 H2 H3.
  pose proof (@restorePostgreSQL_quiet P Hproc) as Hpg.
  pose proof (@restoreNeo4j_quiet P Hproc) as Hneo.
  unfold applyRestore.
  repeat first
    [ apply quiet_perform;
      first [exact H1 | exact H2 | exact H3 | apply Hproc; reflexivity]
    | apply Hpg | apply Hneo
    | quiet_step ].
Qed.

Lemma restore_body_quiet w backupFile workDir excl mig :
  quiet makes_temp
    (metadata <-| readBackupMetadata w backupFile workDir
       onError (fun e => Some e) ;;
     checked <-| Delegated.validateRestore w workDir metadata excl
       onError (fun e => Some e) ;;
     applyRestore w workDir (fst checked) (snd checked) mig).
Proof.
  unfold readBackupMetadata, Delegated.validateRestore.
  repeat first
    [ apply applyRestore_quiet;
      first [exact procedure_not_temp | reflexivity]
    | quiet_step ].
Qed.

(** X24.  The work directory does not outlive the run.  Once [CreateBackup]
    has made its temporary directory, it removes it on every path, and
    after the removal come only the restart of the services and log lines;
    once [RestoreBackup] has made its temporary directory, the removal is
    the last thing it does, whether the restore succeeded or failed at any
    step. *)
Theorem work_directory_removed w :
  (forall force neo4jMetadata excludeTaskManager h tmp,
     let t := snd (Delegated.CreateBackup w force neo4jMetadata
                     excludeTaskManager h) in
     In (MkdirTemp "" "infrahub_backup_*", tmp) t -> r_err tmp = None ->
     ends_with (fun c => lifecycle c || is_log c) (RemoveAll (r_out tmp)) t)
  /\ (forall backupFile excludeTaskManager restoreMigrateFormat h tmp,
        let t := snd (Delegated.RestoreBackup w backupFile excludeTaskManager
                        restoreMigrateFormat h) in
        In (MkdirTemp "" "infrahub_restore_*", tmp) t -> r_err tmp = None ->
        ends_with (fun _ => false) (RemoveAll (r_out tmp)) t).
Proof.
  split.
  - intros force neo4jMetadata excludeTaskManager h tmp. cbv zeta.
    wp_start (Delegated.CreateBackup w force neo4jMetadata excludeTaskManager) h.
    unfold Delegated.CreateBackup, restartDeferred, Delegated.writeBackup,
      Delegated.packageBackup.
    repeat first
      [ wp_step
      | wp_list_step
      | lazymatch goal with
        | |- wp (dumpDatabases _ _ _ _ _) _ _ =>
            apply (@wp_quiet _ makes_temp);
            [apply dumpDatabases_quiet; exact procedure_not_temp
            |intros a e Hq]
        end ].
    all: forget_answers; cbn [app].
    all: intros Hin Hok.
    all: split_in Hin.
    all: try congruence.
    all: avoided Hin.
    all: ends_with_search.
  - intros backupFile excludeTaskManager restoreMigrateFormat h tmp. cbv zeta.
    wp_start (Delegated.RestoreBackup w backupFile excludeTaskManager
                restoreMigrateFormat) h.
    unfold Delegated.RestoreBackup, createRestoreWorkDir.
    repeat first
      [ lazymatch goal with
        | |- wp (orReturnS (readBackupMetadata _ _ _) _ _) _ _ =>
            apply (@wp_quiet _ makes_temp);
            [apply restore_body_quiet|intros a e Hq]
        end
      | wp_step ].
    all: forget_answers; cbn [app].
    all: intros Hin Hok.
    all: split_in Hin.
    all: try congruence.
    all: avoided Hin.
    all: ends_with_search.
Qed.

(** ** The end of a restore *)

Ltac in_search :=
  repeat first [apply in_eq | apply in_cons | apply in_or_app; right].

Lemma restorePostgreSQL_no_resume w workDir :
  quiet resumes_services (restorePostgreSQL w workDir).
Proof. unfold restorePostgreSQL. quiet_tac. Qed.

Lemma restoreNeo4j_no_resume w workDir neo4jEdition mig :
  quiet resumes_services (restoreNeo4j w workDir neo4jEdition mig).
Proof.
  unfold restoreNeo4j, restoreNeo4jCommunity, restoreNeo4jEnterprise,
    restoreDeferred, loadNeo4jCommunity, resumeNeo4j, stopNeo4jCommunity,
    readNeo4jPID, detectNeo4jArchitecture.
  quiet_tac.
Qed.

(** X25.  [RestoreBackup] returns [nil] exactly when it has started the
    Infrahub services again and the start succeeded.  The start is its only
    way back: it never starts the application containers that it stopped by
    any other call, so that a restore that fails after the stop leaves them
    stopped. *)
Theorem RestoreBackup_success_is_restart
    w backupFile excludeTaskManager restoreMigrateFormat h :
  let run := Delegated.RestoreBackup w backupFile excludeTaskManager
               restoreMigrateFormat h in
  (fst run = None
   <-> exists r, In (start_infrahub, r) (snd run) /\ r_err r = None)
  /\ (forall services, ~ In (startAppContainers services) (calls (snd run))).
Proof.
  cbv zeta.
  wp_start (Delegated.RestoreBackup w backupFile excludeTaskManager
              restoreMigrateFormat) h.
  unfold Delegated.RestoreBackup, createRestoreWorkDir, readBackupMetadata,
    Delegated.validateRestore, applyRestore.
  repeat first
    [ lazymatch goal with
      | |- wp (restorePostgreSQL _ _) _ _ =>
          apply (@wp_quiet _ resumes_services);
          [apply restorePostgreSQL_no_resume|intros a e Hq]
      | |- wp (restoreNeo4j _ _ _ _) _ _ =>
          apply (@wp_quiet _ resumes_services);
          [apply restoreNeo4j_no_resume|intros a' e' Hq']
      end
    | wp_step ].
  all: forget_answers.
  all: repeat (rewrite <- ?app_assoc, ?app_nil_r; cbn [app]).
  all: split;
    [split; [try discriminate; intros _
            |intros (r' & Hin & Hok); try reflexivity; exfalso]
    |intros services Hin; unfold calls in Hin;
     cbn [map fst] in Hin; rewrite ?map_app in Hin; cbn [map fst] in Hin].
  all: try (split_in Hin; try congruence; avoided Hin; fail).
  all: eexists; split; [unfold start_infrahub; in_search|assumption].
Qed.

(** ** The task manager, when it is excluded *)

Lemma avoids_cons P c r t :
  P c = false -> avoids P t -> avoids P ((c, r) :: t).
Proof. intros Hc Ht. constructor; assumption. Qed.

(** [avoids] for a run of known calls and of runs that avoid the kind. *)
Ltac avoids_search :=
  repeat (rewrite <- ?app_assoc, ?app_nil_r; cbn [app]);
  repeat first
    [ assumption
    | apply avoids_nil
    | apply avoids_cons; [reflexivity|]
    | apply avoids_app ].

Lemma CreateBackup_excluded_quiet w force neo4jMetadata :
  quiet (on_service "task-manager-db")
        (Delegated.CreateBackup w force neo4jMetadata true).
Proof.
  unfold Delegated.CreateBackup, restartDeferred, Delegated.writeBackup,
    Delegated.packageBackup, dumpDatabases, backupDatabase,
    backupNeo4jCommunity, backupNeo4jEnterprise, dumpNeo4jCommunity,
    resumeNeo4j, stopNeo4jCommunity, readNeo4jPID, detectNeo4jArchitecture.
  cbn [negb]. quiet_tac.
Qed.

Lemma restoreNeo4j_not_task_manager w workDir neo4jEdition mig :
  quiet (on_service "task-manager-db")
        (restoreNeo4j w workDir neo4jEdition mig).
Proof.
  unfold restoreNeo4j, restoreNeo4jCommunity, restoreNeo4jEnterprise,
    restoreDeferred, loadNeo4jCommunity, resumeNeo4j, stopNeo4jCommunity,
    readNeo4jPID, detectNeo4jArchitecture.
  quiet_tac.
Qed.

(** X26.  With the task manager excluded, neither [CreateBackup] nor
    [RestoreBackup] addresses the service [task-manager-db]: no command
    runs in it, no file is copied to or from it, and it is not started,
    whatever the metadata of the archive says. *)
Theorem excluded_task_manager_untouched w :
  (forall force neo4jMetadata h,
     avoids (on_service "task-manager-db")
       (snd (Delegated.CreateBackup w force neo4jMetadata true h)))
  /\ (forall backupFile restoreMigrateFormat h,
        avoids (on_service "task-manager-db")
          (snd (Delegated.RestoreBackup w backupFile true
                  restoreMigrateFormat h))).
Proof.
  split.
  - intros force neo4jMetadata h. apply CreateBackup_excluded_quiet.
  - intros backupFile restoreMigrateFormat h.
    wp_start (Delegated.RestoreBackup w backupFile true restoreMigrateFormat) h.
    unfold Delegated.RestoreBackup, createRestoreWorkDir, readBackupMetadata,
      Delegated.validateRestore, applyRestore.
    repeat first
      [ lazymatch goal with
        | |- wp (restoreNeo4j _ _ _ _) _ _ =>
            apply (@wp_quiet _ (on_service "task-manager-db"));
            [apply restoreNeo4j_not_task_manager|intros a' e' Hq']
        | |- wp (restorePostgreSQL _ _) _ _ =>
            exfalso;
            match goal with
            | E : _ && negb true && _ = true |- _ =>
                cbn [negb] in E; rewrite andb_false_r in E; discriminate E
            end
        end
      | wp_step ].
    all: forget_answers.
    all: avoids_search.
Qed.

(** ** The upload of the archive *)

Lemma precedes_cons a b ev t : precedes a b t -> precedes a b (ev :: t).
Proof.
  intros (t1 & t2 & t3 & ->). exists (ev :: t1), t2, t3. reflexivity.
Qed.

Lemma precedes_app a b t0 t : precedes a b t -> precedes a b (t0 ++ t).
Proof.
  intros (t1 & t2 & t3 & ->). exists (t0 ++ t1), t2, t3.
  rewrite <- app_assoc. reflexivity.
Qed.

Lemma precedes_here a b t : In b t -> precedes a b (a :: t).
Proof.
  intros Hin. apply in_split in Hin. destruct Hin as (t2 & t3 & ->).
  exists [], t2, t3. reflexivity.
Qed.

Ltac precedes_search :=
  repeat (rewrite <- ?app_assoc, ?app_nil_r; cbn [app]);
  repeat first
    [ apply precedes_here; solve [in_search]
    | apply precedes_cons
    | apply precedes_app ].

(** X27.  [CreateBackup] uploads only what it has archived.  Without
    [S3Upload] it never calls the upload; a call of the upload comes after
    the archive was created, without error, at the path that is uploaded;
    and an error of the upload is the result of [CreateBackup], wrapped as
    "backup created but failed to upload to S3", whatever the restart of
    the services does afterwards. *)
Theorem CreateBackup_uploads_archive
    w force neo4jMetadata excludeTaskManager h :
  let run := Delegated.CreateBackup w force neo4jMetadata
               excludeTaskManager h in
  (S3Upload (config w) = false -> avoids is_upload (snd run))
  /\ (forall path up,
        In (uploadBackupToS3 path, up) (snd run) ->
        (exists workDir made,
           precedes (createTarball path workDir "backup/", made)
                    (uploadBackupToS3 path, up) (snd run)
           /\ r_err made = None)
        /\ (forall e,
              r_err up = Some e ->
              fst run
              = Some (wrap "backup created but failed to upload to S3: %w" e))).
Proof.
  cbv zeta.
  wp_start (Delegated.CreateBackup w force neo4jMetadata excludeTaskManager) h.
  unfold Delegated.CreateBackup, restartDeferred, Delegated.writeBackup,
    Delegated.packageBackup.
  repeat first
    [ wp_step
    | wp_list_step
    | lazymatch goal with
      | |- wp (dumpDatabases _ _ _ _ _) _ _ =>
          apply (@wp_quiet _ is_upload);
          [apply dumpDatabases_quiet; exact procedure_not_upload
          |intros a e Hq]
      end ].
  all: forget_answers.
  all: split; [intros Hs3|intros path up Hin].
  all: try (avoids_search; fail).
  all: try congruence.
  all: repeat (rewrite <- ?app_assoc, ?app_nil_r in Hin; cbn [app] in Hin).
  all: split_in Hin.
  all: avoided Hin.
  all: split; [|intros e' He'; try congruence].
  all: do 2 eexists; split; [precedes_search|eassumption].
Qed.
(* ===================================================================== *)
(** * The properties of the backends and of the upload, in example worlds *)
(* ===================================================================== *)

(** ** The pods of a cluster *)


(** In a cluster that cannot be reached, a command for the database is not
    run: the error of the lookup comes back. *)
Lemma failed_lookup_runs_no_command_witness :
  Kubernetes.Exec unreachableWorld plainCommand exampleBackend "database"
                  ["ls"] None []
    = ((exampleBackend, ("", Some (ErrExternal "connection refused"))),
       snd (Kubernetes.getPodForService unreachableWorld exampleBackend
              "database" [])).
Proof.
  refine (proj1 (@failed_lookup_runs_no_command unreachableWorld plainCommand
                   exampleBackend "database" []
                   (ErrExternal "connection refused") _) ["ls"] None).
  vm_compute. reflexivity.
Defined.

(** With the pod of the database known, a command is one [kubectl
    exec]. *)
Lemma command_after_lookup_witness :
  let w := podsWorld ["infrahub-server-0"; "database-0"] in
  let k' := Kubernetes.set_podCache exampleBackend "database" "database-0" in
  let exec :=
    runCommand "kubectl" ["exec"; "-n"; ""; "database-0"; "--"; "ls"] in
  Kubernetes.Exec w plainCommand k' "database" ["ls"] None []
    = ((k', (r_out (oracle w [] exec), r_err (oracle w [] exec))),
       [(exec, oracle w [] exec)]).
Proof.
  refine (proj1 (@command_after_lookup
                   (podsWorld ["infrahub-server-0"; "database-0"])
                   plainCommand exampleBackend "database" []
                   (Kubernetes.set_podCache exampleBackend "database"
                                            "database-0")
                   "database-0" _ _ []) ["ls"] None).
  - vm_compute. reflexivity.
  - discriminate.
Defined.

(** In a cluster that cannot be reached, the error of the lookup is the
    error of the query for all the pods. *)
Lemma getPodForService_error_source_witness :
  let w := unreachableWorld in
  let k := exampleBackend in
  let e := ErrExternal "connection refused" in
  (exists r,
      In (all_pod_names k, r)
         (snd (Kubernetes.getPodForService w k "database" []))
      /\ r_err r = Some e)
  \/ (e = Errorf "no pods found for service %s in namespace %s"
              ["database"; namespace k]
      /\ exists r,
           In (all_pod_names k, r)
              (snd (Kubernetes.getPodForService w k "database" []))
           /\ r_err r = None
           /\ forall name, In name (nonEmptyLines w (r_out r)) ->
                           strings.Contains name "database" = false).
Proof.
  apply (@getPodForService_error_source unreachableWorld exampleBackend
           "database" [] (ErrExternal "connection refused")).
  vm_compute. reflexivity.
Defined.

(** With the namespace [infrahub] in the configuration, [Detect] records
    it and verifies it. *)
Lemma Detect_configured_namespace_witness :
  let w := clusterWorld [] [] in
  let verify :=
    runCommand "kubectl"
      ["get"; "pods"; "-n"; "infrahub"; "-l";
       "app.kubernetes.io/name=infrahub"] in
  Detect w namespacedBackend []
    = ((mkKubernetesBackend (k_config namespacedBackend) "infrahub" [], None),
       [(runCommandQuiet "kubectl" ["version"; "--client"], ok);
        (ListKubernetesNamespaces, ok_list []);
        (verify, ok_out newline)]).
Proof.
  exact (proj2 (@Detect_configured_namespace (clusterWorld [] [])
                  namespacedBackend []
                  ltac:(discriminate) eq_refl) eq_refl).
Defined.

(** The statuses of the database, in a cluster with a pending pod and a
    running one, are the lines of the query with the selector. *)
Lemma getPodStatuses_source_witness :
  let w := clusterWorld [] ["Pending"; "RUNNING"] in
  let k := exampleBackend in
  let statuses := ["Pending"; "RUNNING"] in
  (exists c r,
      In (c, r) (snd (getPodStatuses w k "database" []))
      /\ selector_query c = true
      /\ r_err r = None
      /\ statuses = nonEmptyLines w (r_out r)
      /\ statuses <> [])
  \/ (exists r,
        In (all_pod_phases k, r) (snd (getPodStatuses w k "database" []))
        /\ r_err r = None
        /\ forall status,
             In status statuses
             <-> exists line name,
                   In line (strings.Split (r_out r) newline)
                   /\ strings.Split line ";" = [name; status]
                   /\ strings.Contains name "database" = true).
Proof.
  apply (@getPodStatuses_source (clusterWorld [] ["Pending"; "RUNNING"])
           exampleBackend "database" [] ["Pending"; "RUNNING"]).
  vm_compute. reflexivity.
Defined.

(** In a cluster that cannot be reached, [IsRunning] answers [false] with
    the error of the query for all the pods. *)
Lemma IsRunning_error_source_witness :
  let w := unreachableWorld in
  fst (fst (IsRunning w exampleBackend "database" [])) = false
  /\ exists r,
       In (all_pod_phases exampleBackend, r)
          (snd (IsRunning w exampleBackend "database" []))
       /\ r_err r = Some (ErrExternal "connection refused").
Proof.
  apply (@IsRunning_error_source unreachableWorld exampleBackend "database" []
           (ErrExternal "connection refused")).
  vm_compute. reflexivity.
Defined.

(** ** The upload *)

(** The client for a custom endpoint, the map of the variables being
    visited from its last entry to its first. *)
Lemma createS3Client_compatibility_witness :
  let s3 := minioConfiguration in
  exists pre cfg,
    S3.createS3Client minioOracle s3 (rev S3.envVars) []
      = (match S3.failure cfg with
         | Some err => inl err
         | None =>
             inr (if String.eqb (S3.S3Endpoint s3) ""
                  then S3.mkClient (S3.loaded cfg) None false
                  else S3.mkClient (S3.loaded cfg)
                                   (Some (S3.S3Endpoint s3)) true)
         end,
         pre ++ [(S3.LoadDefaultConfig (S3.S3Region s3) (S3.S3AccessKeyID s3)
                    (S3.S3SecretKey s3) "", cfg)])
    /\ (S3.S3Endpoint s3 = "" -> pre = [])
    /\ (S3.S3Endpoint s3 <> "" ->
        (forall key value, In (key, value) S3.envVars ->
           exists r, In (S3.Setenv key value, r) pre)
        /\ Forall (fun ev => compatibility_call S3.envVars (fst ev)) pre).
Proof.
  apply (@createS3Client_compatibility minioOracle minioConfiguration
           (rev S3.envVars) []).
  intros entry. symmetry. apply in_rev.
Defined.

(** ** The database procedures *)

(** The edition is compared in lower case, rune by rune: spelled in
    capitals with the I with a dot above, the community edition is the
    community edition, and its backup reads the PID file and sends the two
    signals. *)
Lemma dotted_community_backup_pauses :
  let run := backupDatabase healthyWorld "/tmp/infrahub_backup_1/backup"
               "all" ("COMMUN" ++ dottedI ++ "TY") [] in
  strings.ToLower (lowerCase healthyWorld) ("COMMUN" ++ dottedI ++ "TY")
    = neo4jEditionCommunity healthyWorld
  /\ In (Exec "database" ["cat"; neo4jPIDFile healthyWorld] None)
        (calls (snd run))
  /\ In (stop_signal "4242") (calls (snd run))
  /\ In (cont_signal "4242") (calls (snd run)).
Proof.
  vm_compute. repeat split; in_run.
Qed.

(** A backup with the enterprise edition sends no signal. *)
Lemma enterprise_sends_no_signal_witness :
  no_kill (snd (backupDatabase healthyWorld "/tmp/infrahub_backup_1/backup"
                  "all" "Enterprise" [])).
Proof.
  refine (proj1 (proj1 (@enterprise_sends_no_signal healthyWorld "Enterprise" _)
                   "/tmp/infrahub_backup_1/backup" "all" [])).
  vm_compute. discriminate.
Defined.

(** In [slowStopWorld] the database process gets the stop signal and does
    not stop in time: the backup returns the error and sends no continue
    signal. *)
Lemma community_stop_error_not_resumed_witness :
  let w := slowStopWorld in
  let e := ErrExternal "timed out waiting for process to stop" in
  let e1 := snd (readNeo4jPID w []) in
  let stop := stopNeo4jCommunity w "4242" ([] ++ e1) in
  backupNeo4jCommunity w "/tmp/infrahub_backup_1/backup" []
    = (Some e, e1 ++ snd stop)
  /\ restoreNeo4jCommunity w false [] = (Some e, e1 ++ snd stop)
  /\ ~ In (cont_signal "4242") (calls (e1 ++ snd stop)).
Proof.
  refine (@community_stop_error_not_resumed slowStopWorld [] "4242"
            (ErrExternal "timed out waiting for process to stop") _ _
            "/tmp/infrahub_backup_1/backup" false).
  - vm_compute. reflexivity.
  - vm_compute. reflexivity.
Defined.
